(** * sipe-media: SDP negotiation and call state machine of pidgin-sipe

    A shallow embedding of [src/core/sipe-media.c].  Pointers that may be
    [NULL] are options, GLib lists are lists, the fixed-width integers of the
    C code are [Z] with their conversions written out, and every read the C
    standard leaves undefined (a [NULL] dereference, a read past the
    terminator of a string vector, an uninitialised variable) is the
    [Undefined] outcome. *)

From Stdlib Require Import ZArith List String Ascii Bool Lia DecimalString
  DecimalPos.
Import ListNotations.
Open Scope string_scope.
Open Scope Z_scope.

(** ** Outcomes of C code *)

Inductive outcome (A : Type) : Type :=
| Ok (a : A)
| Undefined          (* undefined behaviour of the C program *)
| OutOfFuel.         (* the model's bound on nested signal emission was hit *)

Arguments Ok {A} a.
Arguments Undefined {A}.
Arguments OutOfFuel {A}.

Definition bind {A B} (m : outcome A) (f : A -> outcome B) : outcome B :=
  match m with
  | Ok a => f a
  | Undefined => Undefined
  | OutOfFuel => OutOfFuel
  end.

Notation "x <- m ;; k" := (bind m (fun x => k))
  (at level 61, m at next level, right associativity).
Notation "' p <- m ;; k" := (bind m (fun x => match x with p => k end))
  (at level 61, p pattern, m at next level, right associativity).

(** ** GLib and libc string functions

    GLib and the C library are not part of the sources; these definitions
    follow their reference manuals. *)

Module GLib.

Definition CR : ascii := ascii_of_nat 13.
Definition LF : ascii := ascii_of_nat 10.
Definition CRLF : string := String CR (String LF EmptyString).

(** [g_str_has_prefix]. *)
Definition g_str_has_prefix (s p : string) : bool := String.prefix p s.

(** Puts a character in front of the token under construction. *)
Definition cons_head (c : ascii) (l : list string) : list string :=
  match l with
  | [] => [String c EmptyString]
  | t :: ts => String c t :: ts
  end.

(** The scan of [g_strsplit]: [skip] characters of a matched delimiter are
    still to be stepped over, [splits] more cuts are allowed; the head of
    the result is the rest of the current token. *)
Fixpoint split_from (delim : string) (skip splits : nat) (s : string)
  : list string :=
  match s with
  | EmptyString => [EmptyString]
  | String c s' =>
    match skip with
    | S k => split_from delim k splits s'
    | O =>
      match splits with
      | O => [s]
      | S n =>
        if String.prefix delim s
        then EmptyString :: split_from delim (String.length delim - 1) n s'
        else cons_head c (split_from delim 0 splits s')
      end
    end
  end.

(** [g_strsplit (string, delimiter, max_tokens)]: at most [max_tokens]
    pieces, the remainder going to the last one; fewer than one means no
    limit; the empty string gives the empty vector. *)
Definition g_strsplit (s delim : string) (max_tokens : Z) : list string :=
  match s with
  | EmptyString => []
  | _ => split_from delim 0
           (if max_tokens <? 1 then String.length s
            else Z.to_nat (max_tokens - 1)) s
  end.

Fixpoint mem_char (c : ascii) (set : string) : bool :=
  match set with
  | EmptyString => false
  | String d set' => Ascii.eqb c d || mem_char c set'
  end.

Fixpoint split_set_from (delims : string) (splits : nat) (s : string)
  : list string :=
  match s with
  | EmptyString => [EmptyString]
  | String c s' =>
    match splits with
    | O => [s]
    | S n =>
      if mem_char c delims
      then EmptyString :: split_set_from delims n s'
      else cons_head c (split_set_from delims splits s')
    end
  end.

(** [g_strsplit_set (string, delimiters, max_tokens)]. *)
Definition g_strsplit_set (s delims : string) (max_tokens : Z) : list string :=
  match s with
  | EmptyString => []
  | _ => split_set_from delims
           (if max_tokens <? 1 then String.length s
            else Z.to_nat (max_tokens - 1)) s
  end.

(** Reading [v[i]] in a [NULL]-terminated vector of [n] strings: a string
    below [n], the terminator at [n], undefined beyond. *)
Definition strv_get (v : list string) (i : nat) : outcome (option string) :=
  match nth_error v i with
  | Some s => Ok (Some s)
  | None => if Nat.eqb i (List.length v) then Ok None else Undefined
  end.

Definition isspace (c : ascii) : bool :=
  let n := nat_of_ascii c in
  Nat.eqb n 32 || (Nat.leb 9 n && Nat.leb n 13).

Definition digit_of (c : ascii) : option Z :=
  let n := nat_of_ascii c in
  if Nat.leb 48 n && Nat.leb n 57 then Some (Z.of_nat n - 48) else None.

Fixpoint digits_value (acc : Z) (s : string) : Z :=
  match s with
  | EmptyString => acc
  | String c s' =>
    match digit_of c with
    | Some d => digits_value (10 * acc + d) s'
    | None => acc
    end
  end.

Definition signed_value (s : string) : Z :=
  match s with
  | String "-" s' => - digits_value 0 s'
  | String "+" s' => digits_value 0 s'
  | _ => digits_value 0 s
  end.

Fixpoint skip_space (s : string) : string :=
  match s with
  | String c s' => if isspace c then skip_space s' else s
  | EmptyString => s
  end.

Definition INT_MIN : Z := - 2 ^ 31.
Definition INT_MAX : Z := 2 ^ 31 - 1.

(** [atoi]: undefined on [NULL] and when the value is not an [int]. *)
Definition atoi (p : option string) : outcome Z :=
  match p with
  | None => Undefined
  | Some s =>
    let v := signed_value (skip_space s) in
    if (INT_MIN <=? v) && (v <=? INT_MAX) then Ok v else Undefined
  end.

(** [g_strcmp0 (a, b) == 0], which accepts [NULL]. *)
Definition g_strcmp0_eq (a b : option string) : bool :=
  match a, b with
  | None, None => true
  | Some x, Some y => String.eqb x y
  | _, _ => false
  end.

(** Conversions to [guint16] and [guint32]. *)
Definition to_guint16 (z : Z) : Z := z mod 65536.
Definition to_guint32 (z : Z) : Z := z mod 4294967296.

(** A 32-bit value read as an [int], as [%d] prints a [guint]. *)
Definition to_gint (z : Z) : Z := (z + 2 ^ 31) mod 2 ^ 32 - 2 ^ 31.

(** [%d] and [%u] of [printf]. *)
Definition fmt_int (z : Z) : string := NilZero.string_of_int (Z.to_int z).

(** [%s] of glibc's [printf], which prints a [NULL] argument as [(null)]. *)
Definition fmt_str (p : option string) : string :=
  match p with
  | Some s => s
  | None => "(null)"
  end.

End GLib.
Import GLib.

(** ** Data model *)

Inductive SipeCallState : Type :=
| SIPE_CALL_CONNECTING
| SIPE_CALL_RUNNING
| SIPE_CALL_HELD
| SIPE_CALL_FINISHED.

Definition SipeCallState_eqb (a b : SipeCallState) : bool :=
  match a, b with
  | SIPE_CALL_CONNECTING, SIPE_CALL_CONNECTING
  | SIPE_CALL_RUNNING, SIPE_CALL_RUNNING
  | SIPE_CALL_HELD, SIPE_CALL_HELD
  | SIPE_CALL_FINISHED, SIPE_CALL_FINISHED => true
  | _, _ => false
  end.

(** libpurple's [PurpleMediaCodec]; every codec of this file is an audio
    codec. *)
Record PurpleMediaCodec : Type := mkCodec {
  codec_id : Z;
  encoding_name : option string;
  clock_rate : Z;
  optional_parameters : list (string * string)
}.

Inductive PurpleMediaComponentType : Type :=
| PURPLE_MEDIA_COMPONENT_NONE
| PURPLE_MEDIA_COMPONENT_RTP
| PURPLE_MEDIA_COMPONENT_RTCP.

Inductive PurpleMediaNetworkProtocol : Type :=
| PURPLE_MEDIA_NETWORK_PROTOCOL_UDP
| PURPLE_MEDIA_NETWORK_PROTOCOL_TCP.

Inductive PurpleMediaCandidateType : Type :=
| PURPLE_MEDIA_CANDIDATE_TYPE_HOST
| PURPLE_MEDIA_CANDIDATE_TYPE_SRFLX
| PURPLE_MEDIA_CANDIDATE_TYPE_PRFLX
| PURPLE_MEDIA_CANDIDATE_TYPE_RELAY
| PURPLE_MEDIA_CANDIDATE_TYPE_MULTICAST.

(** libpurple's [PurpleMediaCandidate].  [cand_port] holds the [guint] that
    was given to [purple_media_candidate_new]. *)
Record PurpleMediaCandidate : Type := mkCandidate {
  cand_foundation : option string;
  cand_component : PurpleMediaComponentType;
  cand_type : PurpleMediaCandidateType;
  cand_protocol : PurpleMediaNetworkProtocol;
  cand_ip : option string;
  cand_port : Z;
  cand_priority : Z;
  cand_username : option string;
  cand_password : option string
}.

(** [purple_media_candidate_new]: priority and credentials are set later. *)
Definition purple_media_candidate_new (foundation : option string)
    (component : PurpleMediaComponentType) (type : PurpleMediaCandidateType)
    (protocol : PurpleMediaNetworkProtocol) (ip : option string) (port : Z)
  : PurpleMediaCandidate :=
  mkCandidate foundation component type protocol ip port 0 None None.

Definition set_priority (priority : Z) (c : PurpleMediaCandidate) :=
  mkCandidate (cand_foundation c) (cand_component c) (cand_type c)
    (cand_protocol c) (cand_ip c) (cand_port c) priority
    (cand_username c) (cand_password c).

Definition set_credentials (username password : option string)
    (c : PurpleMediaCandidate) :=
  mkCandidate (cand_foundation c) (cand_component c) (cand_type c)
    (cand_protocol c) (cand_ip c) (cand_port c) (cand_priority c)
    username password.

(** The parts of [struct sipmsg] this file reads: the Call-ID header and the
    body. *)
Record sipmsg : Type := mkMsg {
  msg_callid : option string;
  msg_from : string;
  msg_body : string
}.

(** [struct _sipe_media_call].  [call_callid] and [call_with] stand for
    [dialog->callid] and [dialog->with]; the media handle is the
    [engine] given to each operation. *)
Record sipe_media_call : Type := mkCall {
  call_callid : option string;
  call_with : string;
  remote_ip : option string;
  remote_port : Z;
  sdp_attrs : list (string * string);
  invitation : option sipmsg;
  remote_candidates : list PurpleMediaCandidate;
  remote_codecs : list PurpleMediaCodec;
  sdp_response : option string;
  legacy_mode : bool;
  state : SipeCallState
}.

Definition with_sdp (attrs : list (string * string)) (ip : option string)
    (port : Z) (c : sipe_media_call) : sipe_media_call :=
  mkCall (call_callid c) (call_with c) ip port attrs (invitation c)
    (remote_candidates c) (remote_codecs c) (sdp_response c)
    (legacy_mode c) (state c).

Definition with_sdp_attrs (attrs : list (string * string))
    (c : sipe_media_call) : sipe_media_call :=
  with_sdp attrs (remote_ip c) (remote_port c) c.

Definition with_invitation (m : option sipmsg) (c : sipe_media_call) :=
  mkCall (call_callid c) (call_with c) (remote_ip c) (remote_port c)
    (sdp_attrs c) m (remote_candidates c) (remote_codecs c)
    (sdp_response c) (legacy_mode c) (state c).

Definition with_remote_candidates (l : list PurpleMediaCandidate)
    (c : sipe_media_call) :=
  mkCall (call_callid c) (call_with c) (remote_ip c) (remote_port c)
    (sdp_attrs c) (invitation c) l (remote_codecs c)
    (sdp_response c) (legacy_mode c) (state c).

Definition with_remote_codecs (l : list PurpleMediaCodec)
    (c : sipe_media_call) :=
  mkCall (call_callid c) (call_with c) (remote_ip c) (remote_port c)
    (sdp_attrs c) (invitation c) (remote_candidates c) l
    (sdp_response c) (legacy_mode c) (state c).

Definition with_sdp_response (r : option string) (c : sipe_media_call) :=
  mkCall (call_callid c) (call_with c) (remote_ip c) (remote_port c)
    (sdp_attrs c) (invitation c) (remote_candidates c) (remote_codecs c)
    r (legacy_mode c) (state c).

Definition with_legacy_mode (b : bool) (c : sipe_media_call) :=
  mkCall (call_callid c) (call_with c) (remote_ip c) (remote_port c)
    (sdp_attrs c) (invitation c) (remote_candidates c) (remote_codecs c)
    (sdp_response c) b (state c).

Definition with_state (s : SipeCallState) (c : sipe_media_call) :=
  mkCall (call_callid c) (call_with c) (remote_ip c) (remote_port c)
    (sdp_attrs c) (invitation c) (remote_candidates c) (remote_codecs c)
    (sdp_response c) (legacy_mode c) s.

Definition with_dialog (callid : option string) (who : string)
    (c : sipe_media_call) :=
  mkCall callid who (remote_ip c) (remote_port c)
    (sdp_attrs c) (invitation c) (remote_candidates c) (remote_codecs c)
    (sdp_response c) (legacy_mode c) (state c).

(** [g_new0 (sipe_media_call, 1)]. *)
Definition call_zero : sipe_media_call :=
  mkCall None "" None 0 [] None [] [] None false SIPE_CALL_CONNECTING.

(** ** Attribute lists ([sipe-utils.c], not among the sources) *)

Module NameVal.

(** Modelled from the spec: [sipe_utils_nameval_add] of [sipe-utils.c] is
    missing.  The attribute set is an ordered multimap from name to string
    value, never deduplicated; an attribute without a value (no colon on its
    line) is kept with the empty value, so that it counts as contained. *)
Definition sipe_utils_nameval_add (l : list (string * string))
    (name : string) (value : option string) : list (string * string) :=
  l ++ [(name, match value with Some v => v | None => "" end)].

(** Modelled from the spec: [sipe_utils_nameval_find_instance] of
    [sipe-utils.c] is missing.  Insertion order within a name recovers the
    N-th instance; names are compared exactly. *)
Fixpoint sipe_utils_nameval_find_instance (l : list (string * string))
    (name : string) (which : nat) : option string :=
  match l with
  | [] => None
  | (n, v) :: l' =>
    if String.eqb n name then
      match which with
      | O => Some v
      | S w => sipe_utils_nameval_find_instance l' name w
      end
    else sipe_utils_nameval_find_instance l' name which
  end.

(** Modelled from the spec: [sipe_utils_nameval_find] of [sipe-utils.c] is
    missing; it is the first instance. *)
Definition sipe_utils_nameval_find (l : list (string * string))
    (name : string) : option string :=
  sipe_utils_nameval_find_instance l name 0.

(** All values of a name, in order: what the loops
    [while ((attr = sipe_utils_nameval_find_instance(attrs, name, i++)))]
    visit. *)
Definition instances (l : list (string * string)) (name : string)
  : list string :=
  map snd (filter (fun nv => String.eqb (fst nv) name) l).

(** Modelled from the spec: [sipe_strequal] of [sipe-utils.c] is missing;
    an exact comparison that accepts [NULL]. *)
Definition sipe_strequal (a b : option string) : bool := g_strcmp0_eq a b.

End NameVal.
Import NameVal.

(** ** Remote codecs *)

(** One turn of the loop of [sipe_media_parse_remote_codecs]: the codec of
    one [rtpmap] value. *)
Definition parse_rtpmap (attr : string) : outcome PurpleMediaCodec :=
  let tokens := g_strsplit_set attr " /" 3 in
  t0 <- strv_get tokens 0 ;;
  id <- atoi t0 ;;
  codec_name <- strv_get tokens 1 ;;
  t2 <- strv_get tokens 2 ;;
  rate <- atoi t2 ;;
  Ok (mkCodec id codec_name (to_guint32 rate) []).

Fixpoint parse_codecs_loop (attrs : list string)
    (codecs : list PurpleMediaCodec) : outcome (list PurpleMediaCodec) :=
  match attrs with
  | [] => Ok codecs
  | attr :: rest =>
    codec <- parse_rtpmap attr ;;
    parse_codecs_loop rest (codecs ++ [codec])
  end.

Definition sipe_media_parse_remote_codecs (call : sipe_media_call)
  : outcome (list PurpleMediaCodec) :=
  parse_codecs_loop (instances (sdp_attrs call) "rtpmap") [].

(** [codec_name_compare (codec1, codec2) == 0]. *)
Definition codec_name_compare (codec1 codec2 : PurpleMediaCodec) : bool :=
  g_strcmp0_eq (encoding_name codec1) (encoding_name codec2).

(** [g_list_find_custom (list, data, func) != NULL]: [func] is called with
    the element first and [data] second. *)
Fixpoint g_list_find_custom {A} (l : list A) (data : A)
    (func : A -> A -> bool) : option A :=
  match l with
  | [] => None
  | x :: l' => if func x data then Some x else g_list_find_custom l' data func
  end.

(** The loop of [sipe_media_prune_remote_codecs]. *)
Fixpoint prune_loop (local_codecs remote_codecs pruned_codecs
    : list PurpleMediaCodec) : list PurpleMediaCodec :=
  match remote_codecs with
  | [] => pruned_codecs
  | c :: next =>
    match g_list_find_custom local_codecs c codec_name_compare with
    | Some _ => prune_loop local_codecs next (pruned_codecs ++ [c])
    | None => prune_loop local_codecs next pruned_codecs
    end
  end.

(** [sipe_media_prune_remote_codecs]; [local_codecs] is what
    [purple_media_get_codecs (media, "sipe-voice")] returns. *)
Definition sipe_media_prune_remote_codecs
    (local_codecs codecs : list PurpleMediaCodec) : list PurpleMediaCodec :=
  prune_loop local_codecs codecs [].

(** ** Remote candidates *)

(** One turn of the loop of [sipe_media_parse_remote_candidates]: [None]
    when the line is skipped by [continue]. *)
Definition parse_candidate (attr : string)
  : outcome (option PurpleMediaCandidate) :=
  let tokens := g_strsplit_set attr " " 0 in
  foundation <- strv_get tokens 0 ;;
  t1 <- strv_get tokens 1 ;;
  n <- atoi t1 ;;
  let component :=
    if n =? 1 then PURPLE_MEDIA_COMPONENT_RTP
    else if n =? 2 then PURPLE_MEDIA_COMPONENT_RTCP
    else PURPLE_MEDIA_COMPONENT_NONE in
  t2 <- strv_get tokens 2 ;;
  if negb (sipe_strequal t2 (Some "UDP")) then Ok None else
  let protocol := PURPLE_MEDIA_NETWORK_PROTOCOL_UDP in
  t3 <- strv_get tokens 3 ;;
  p <- atoi t3 ;;
  let priority := to_guint32 p in
  ip <- strv_get tokens 4 ;;
  t5 <- strv_get tokens 5 ;;
  q <- atoi t5 ;;
  let port := to_guint16 q in
  t7 <- strv_get tokens 7 ;;
  let accept type :=
    Ok (Some (set_priority priority
      (purple_media_candidate_new foundation component type protocol ip port)))
  in
  if sipe_strequal t7 (Some "host") then
    accept PURPLE_MEDIA_CANDIDATE_TYPE_HOST
  else if sipe_strequal t7 (Some "relay") then
    accept PURPLE_MEDIA_CANDIDATE_TYPE_RELAY
  else if sipe_strequal t7 (Some "srflx") then
    accept PURPLE_MEDIA_CANDIDATE_TYPE_SRFLX
  else Ok None.

Fixpoint parse_candidates_loop (attrs : list string)
    (candidates : list PurpleMediaCandidate)
  : outcome (list PurpleMediaCandidate) :=
  match attrs with
  | [] => Ok candidates
  | attr :: rest =>
    r <- parse_candidate attr ;;
    match r with
    | Some candidate => parse_candidates_loop rest (candidates ++ [candidate])
    | None => parse_candidates_loop rest candidates
    end
  end.

(** The candidates accepted from the [candidate] lines of an attribute
    set. *)
Definition accepted_candidates (attrs : list (string * string))
  : outcome (list PurpleMediaCandidate) :=
  parse_candidates_loop (instances attrs "candidate") [].

(** The two candidates of the OC2005 fallback. *)
Definition legacy_rtp (call : sipe_media_call) : PurpleMediaCandidate :=
  purple_media_candidate_new (Some "foundation") PURPLE_MEDIA_COMPONENT_RTP
    PURPLE_MEDIA_CANDIDATE_TYPE_HOST PURPLE_MEDIA_NETWORK_PROTOCOL_UDP
    (remote_ip call) (remote_port call).

Definition legacy_rtcp (call : sipe_media_call) : PurpleMediaCandidate :=
  purple_media_candidate_new (Some "foundation") PURPLE_MEDIA_COMPONENT_RTCP
    PURPLE_MEDIA_CANDIDATE_TYPE_HOST PURPLE_MEDIA_NETWORK_PROTOCOL_UDP
    (remote_ip call) (remote_port call + 1).

(** [sipe_media_parse_remote_candidates]: the list it returns and the call
    it leaves behind. *)
Definition sipe_media_parse_remote_candidates (call : sipe_media_call)
  : outcome (list PurpleMediaCandidate * sipe_media_call) :=
  let attrs := sdp_attrs call in
  let username := sipe_utils_nameval_find attrs "ice-ufrag" in
  let password := sipe_utils_nameval_find attrs "ice-pwd" in
  candidates <- accepted_candidates attrs ;;
  let '(candidates, call) :=
    match candidates with
    | [] => ([legacy_rtp call; legacy_rtcp call], with_legacy_mode true call)
    | _ => (candidates, call)
    end in
  let candidates :=
    match username with
    | Some _ => map (set_credentials username password) candidates
    | None => candidates
    end in
  Ok (candidates, call).

(** ** SDP formatting *)

(** [sipe_media_sdp_codec_ids_format]. *)
Fixpoint sipe_media_sdp_codec_ids_format (codecs : list PurpleMediaCodec)
  : string :=
  match codecs with
  | [] => ""
  | c :: next =>
    (" " ++ fmt_int (to_gint (codec_id c)))
      ++ sipe_media_sdp_codec_ids_format next
  end.

Fixpoint fmtp_params (params : list (string * string)) : string :=
  match params with
  | [] => ""
  | (key, value) :: next => (" " ++ key ++ "=" ++ value) ++ fmtp_params next
  end.

(** The identifier and the clock rate are printed with [%d]. *)
Definition rtpmap_line (c : PurpleMediaCodec) : string :=
  "a=rtpmap:" ++ fmt_int (to_gint (codec_id c)) ++ " "
    ++ fmt_str (encoding_name c) ++ "/" ++ fmt_int (to_gint (clock_rate c))
    ++ CRLF.

Definition fmtp_line (c : PurpleMediaCodec) : string :=
  match optional_parameters c with
  | [] => ""
  | params =>
    ("a=fmtp:" ++ fmt_int (to_gint (codec_id c))) ++ fmtp_params params
      ++ CRLF
  end.

(** [sipe_media_sdp_codecs_format]. *)
Fixpoint sipe_media_sdp_codecs_format (codecs : list PurpleMediaCodec)
  : string :=
  match codecs with
  | [] => ""
  | c :: next =>
    rtpmap_line c ++ fmtp_line c ++ sipe_media_sdp_codecs_format next
  end.

(** The [a=candidate] line of one candidate.  [component], [protocol] and
    [type] are uninitialised variables when no [case] of their [switch]
    applies. *)
Definition candidate_line (c : PurpleMediaCandidate) : outcome string :=
  let port := to_guint16 (cand_port c) in
  component <- match cand_component c with
               | PURPLE_MEDIA_COMPONENT_RTP => Ok 1
               | PURPLE_MEDIA_COMPONENT_RTCP => Ok 2
               | PURPLE_MEDIA_COMPONENT_NONE => Undefined
               end ;;
  protocol <- match cand_protocol c with
              | PURPLE_MEDIA_NETWORK_PROTOCOL_TCP => Ok "TCP"
              | PURPLE_MEDIA_NETWORK_PROTOCOL_UDP => Ok "UDP"
              end ;;
  type <- match cand_type c with
          | PURPLE_MEDIA_CANDIDATE_TYPE_HOST => Ok "host"
          | PURPLE_MEDIA_CANDIDATE_TYPE_RELAY => Ok "relay"
          | PURPLE_MEDIA_CANDIDATE_TYPE_SRFLX => Ok "srflx"
          | _ => Undefined
          end ;;
  Ok ("a=candidate:" ++ fmt_str (cand_foundation c) ++ " "
        ++ fmt_int component ++ " " ++ protocol ++ " "
        ++ fmt_int (cand_priority c) ++ " " ++ fmt_str (cand_ip c) ++ " "
        ++ fmt_int port ++ " typ " ++ type ++ " " ++ CRLF).

(** The [while (candidates)] loop of [sipe_media_sdp_candidates_format]:
    the lines, and the port of the first RTCP candidate with a port other
    than 0. *)
Fixpoint candidates_loop (candidates : list PurpleMediaCandidate)
    (rtcp_port : Z) : outcome (string * Z) :=
  match candidates with
  | [] => Ok ("", rtcp_port)
  | c :: next =>
    let port := to_guint16 (cand_port c) in
    let rtcp_port :=
      match cand_component c with
      | PURPLE_MEDIA_COMPONENT_RTCP =>
        if rtcp_port =? 0 then port else rtcp_port
      | _ => rtcp_port
      end in
    line <- candidate_line c ;;
    '(lines, rtcp_port) <- candidates_loop next rtcp_port ;;
    Ok (line ++ lines, rtcp_port)
  end.

Definition remote_candidates_line (call : sipe_media_call) : outcome string :=
  match remote_candidates call with
  | first :: second :: _ =>
    Ok ("a=remote-candidates:1 " ++ fmt_str (cand_ip first) ++ " "
          ++ fmt_int (to_guint16 (cand_port first)) ++ " 2 "
          ++ fmt_str (cand_ip second) ++ " "
          ++ fmt_int (to_guint16 (cand_port second)) ++ CRLF)
  | _ => Undefined
  end.

Definition rtcp_lines (rtcp_port : Z) : string :=
  if rtcp_port =? 0 then ""
  else "a=maxptime:200" ++ CRLF ++ "a=rtcp:" ++ fmt_int rtcp_port ++ CRLF.

(** [sipe_media_sdp_candidates_format]. *)
Definition sipe_media_sdp_candidates_format
    (candidates : list PurpleMediaCandidate) (call : sipe_media_call)
    (remote_candidate : bool) : outcome string :=
  match candidates with
  | [] => Undefined
  | first :: _ =>
    let username := cand_username first in
    let password := cand_password first in
    if legacy_mode call then Ok "" else
    let ice := "a=ice-ufrag:" ++ fmt_str username ++ CRLF
                 ++ "a=ice-pwd:" ++ fmt_str password ++ CRLF in
    '(lines, rtcp_port) <- candidates_loop candidates 0 ;;
    remote <- (if remote_candidate then remote_candidates_line call
               else Ok "") ;;
    Ok (ice ++ lines ++ remote ++ rtcp_lines rtcp_port)
  end.

(** What the media engine and the account layer answer when asked. *)
Record engine : Type := mkEngine {
  purple_media_get_codecs : list PurpleMediaCodec;
  purple_media_get_local_candidates : list PurpleMediaCandidate;
  sipe_utils_get_suitable_local_ip : string;
  purple_media_candidates_prepared : bool;
  purple_media_accepted : bool;
  get_contact : string
}.

Definition inactive_line (call : sipe_media_call) : string :=
  match state call with
  | SIPE_CALL_HELD => "a=inactive" ++ CRLF
  | _ => ""
  end.

(** [sipe_media_create_sdp]. *)
Definition sipe_media_create_sdp (env : engine) (call : sipe_media_call)
    (remote_candidate : bool) : outcome string :=
  let local_codecs := purple_media_get_codecs env in
  let local_candidates := purple_media_get_local_candidates env in
  match local_candidates with
  | [] => Undefined
  | first :: _ =>
    let local_port := to_guint16 (cand_port first) in
    let ip := sipe_utils_get_suitable_local_ip env in
    let sdp_codecs := sipe_media_sdp_codecs_format local_codecs in
    let sdp_codec_ids := sipe_media_sdp_codec_ids_format local_codecs in
    sdp_candidates <-
      sipe_media_sdp_candidates_format local_candidates call remote_candidate ;;
    let inactive := inactive_line call in
    Ok ("v=0" ++ CRLF
        ++ "o=- 0 0 IN IP4 " ++ ip ++ CRLF
        ++ "s=session" ++ CRLF
        ++ "c=IN IP4 " ++ ip ++ CRLF
        ++ "b=CT:99980" ++ CRLF
        ++ "t=0 0" ++ CRLF
        ++ "m=audio " ++ fmt_int local_port ++ " RTP/AVP" ++ sdp_codec_ids
        ++ CRLF
        ++ sdp_candidates
        ++ inactive
        ++ sdp_codecs
        ++ "a=encryption:rejected" ++ CRLF)
  end.

(** ** SDP parsing *)

(** [*ptr + 2]. *)
Definition after_prefix (line : string) : string :=
  String.substring 2 (String.length line - 2) line.

Record sdp_frame : Type := mkFrame {
  frame_attrs : list (string * string);
  frame_ip : option string;
  frame_port : Z
}.

(** The [for] loop of [sipe_media_parse_sdp_frame]: [None] when it is left
    by [break] with [no_error = FALSE]. *)
Fixpoint parse_sdp_lines (lines : list string) (acc : sdp_frame)
  : outcome (option sdp_frame) :=
  match lines with
  | [] => Ok (Some acc)
  | line :: rest =>
    if g_str_has_prefix line "a=" then
      let parts := g_strsplit (after_prefix line) ":" 2 in
      name <- strv_get parts 0 ;;
      match name with
      | None => Ok None
      | Some name =>
        value <- strv_get parts 1 ;;
        parse_sdp_lines rest
          (mkFrame (sipe_utils_nameval_add (frame_attrs acc) name value)
                   (frame_ip acc) (frame_port acc))
      end
    else if g_str_has_prefix line "o=" then
      let parts := g_strsplit (after_prefix line) " " 6 in
      ip <- strv_get parts 5 ;;
      parse_sdp_lines rest (mkFrame (frame_attrs acc) ip (frame_port acc))
    else if g_str_has_prefix line "m=" then
      let parts := g_strsplit (after_prefix line) " " 3 in
      p <- strv_get parts 1 ;;
      port <- atoi p ;;
      parse_sdp_lines rest
        (mkFrame (frame_attrs acc) (frame_ip acc) (to_guint16 port))
    else parse_sdp_lines rest acc
  end.

(** [sipe_media_parse_sdp_frame]: the call it leaves behind and the
    [gboolean] it returns. *)
Definition sipe_media_parse_sdp_frame (call : sipe_media_call)
    (frame : string) : outcome (sipe_media_call * bool) :=
  let lines := g_strsplit frame CRLF 0 in
  r <- parse_sdp_lines lines (mkFrame [] None 0) ;;
  match r with
  | Some f => Ok (with_sdp (frame_attrs f) (frame_ip f) (frame_port f) call,
                  true)
  | None => Ok (call, false)
  end.

(** ** Call state machine *)

Inductive PurpleMediaInfoType : Type :=
| PURPLE_MEDIA_INFO_HANGUP
| PURPLE_MEDIA_INFO_ACCEPT
| PURPLE_MEDIA_INFO_REJECT
| PURPLE_MEDIA_INFO_MUTE
| PURPLE_MEDIA_INFO_UNMUTE
| PURPLE_MEDIA_INFO_PAUSE
| PURPLE_MEDIA_INFO_UNPAUSE
| PURPLE_MEDIA_INFO_HOLD
| PURPLE_MEDIA_INFO_UNHOLD.

(** What the handlers send to the SIP transport and ask of the media
    engine, in the order of the calls.  Diagnostics printed on the standard
    output are left out. *)
Inductive effect : Type :=
| send_sip_response (msg : option sipmsg) (code : Z) (text : string)
    (body : option string)
| send_sip_request (method : string) (to : string) (hdr : option string)
    (body : option string)
| purple_media_add_stream (transmitter : string)
| purple_media_add_remote_candidates (l : list PurpleMediaCandidate)
| purple_media_set_remote_codecs (l : list PurpleMediaCodec)
| stream_info (type : PurpleMediaInfoType) (local : bool).

(** [sip->media_call] after a handler, and what the handler emitted. *)
Definition result : Type := option sipe_media_call * list effect.

(** [sipe_media_session_ready_cb]. *)
Definition sipe_media_session_ready_cb (env : engine)
    (call : sipe_media_call) : outcome (sipe_media_call * list effect) :=
  if negb (purple_media_candidates_prepared env) then Ok (call, []) else
  call <- match sdp_response call with
          | None =>
            sdp <- sipe_media_create_sdp env call false ;;
            Ok (with_sdp_response (Some sdp) call)
          | Some _ => Ok call
          end ;;
  if negb (purple_media_accepted env) then
    if negb (legacy_mode call) then
      Ok (call, [send_sip_response (invitation call) 183 "Session Progress"
                   (sdp_response call)])
    else Ok (call, [])
  else
    Ok (with_state SIPE_CALL_RUNNING call,
        [send_sip_response (invitation call) 200 "OK" (sdp_response call)]).

Definition DQUOTE : string := String (ascii_of_nat 34) EmptyString.

(** [sipe_invite_call]. *)
Definition sipe_invite_call (env : engine) (call : sipe_media_call)
  : outcome (list effect) :=
  let hdr :=
    "Supported: ms-sender" ++ CRLF
    ++ "ms-keep-alive: UAC;hop-hop=yes" ++ CRLF
    ++ "Contact: " ++ get_contact env
    ++ match state call with
       | SIPE_CALL_HELD => ";+sip.rendering=" ++ DQUOTE ++ "no" ++ DQUOTE
       | _ => ""
       end ++ CRLF
    ++ "Supported: Replaces" ++ CRLF
    ++ "Content-Type: application/sdp" ++ CRLF in
  body <- sipe_media_create_sdp env call true ;;
  Ok [send_sip_request "INVITE" (call_with call) (Some hdr) (Some body)].

(** [notify_state_change]. *)
Definition notify_state_change (env : engine) (call : sipe_media_call)
    (local : bool) : outcome (list effect) :=
  if local then sipe_invite_call env call
  else
    body <- sipe_media_create_sdp env call true ;;
    Ok [send_sip_response (invitation call) 200 "OK" (Some body)].

(** The body of [sipe_media_stream_info_cb]; [emit] is
    [purple_media_stream_info] on the call's media.  [sip->media_call] is
    dereferenced by every branch that is taken. *)
Definition stream_info_cb_body
    (emit : PurpleMediaInfoType -> bool -> option sipe_media_call ->
            outcome result)
    (env : engine) (type : PurpleMediaInfoType) (local : bool)
    (media_call : option sipe_media_call) : outcome result :=
  let deref := match media_call with
               | Some call => Ok call
               | None => Undefined
               end in
  match type with
  | PURPLE_MEDIA_INFO_ACCEPT =>
    call <- deref ;;
    '(call, out) <- sipe_media_session_ready_cb env call ;;
    Ok (Some call, out)
  | PURPLE_MEDIA_INFO_REJECT =>
    call <- deref ;;
    Ok (None, [send_sip_response (invitation call) 603 "Decline" None])
  | PURPLE_MEDIA_INFO_HOLD =>
    call <- deref ;;
    if SipeCallState_eqb (state call) SIPE_CALL_HELD
    then Ok (Some call, []) else
    let call := with_state SIPE_CALL_HELD call in
    out <- notify_state_change env call local ;;
    '(media_call, out') <- emit PURPLE_MEDIA_INFO_HOLD true (Some call) ;;
    Ok (media_call, (out ++ out')%list)
  | PURPLE_MEDIA_INFO_UNHOLD =>
    call <- deref ;;
    if SipeCallState_eqb (state call) SIPE_CALL_RUNNING
    then Ok (Some call, []) else
    let call := with_state SIPE_CALL_RUNNING call in
    out <- notify_state_change env call local ;;
    '(media_call, out') <- emit PURPLE_MEDIA_INFO_UNHOLD true (Some call) ;;
    Ok (media_call, (out ++ out')%list)
  | PURPLE_MEDIA_INFO_HANGUP =>
    call <- deref ;;
    let call := with_state SIPE_CALL_FINISHED call in
    Ok (None,
        if local
        then [send_sip_request "BYE" (call_with call) None None]
        else [])
  | _ => Ok (media_call, [])
  end.

(** libpurple's [purple_media_stream_info]: the engine takes note of the
    request and emits the [stream-info] signal, to which
    [sipe_media_incoming_invite] has connected [sipe_media_stream_info_cb].
    The callback runs before the function returns and may call it again;
    [fuel] bounds this nesting. *)
Fixpoint purple_media_stream_info (fuel : nat) (env : engine)
    (type : PurpleMediaInfoType) (local : bool)
    (media_call : option sipe_media_call) : outcome result :=
  match fuel with
  | O => OutOfFuel
  | S fuel' =>
    '(media_call, out) <-
      stream_info_cb_body (purple_media_stream_info fuel' env)
        env type local media_call ;;
    Ok (media_call, stream_info type local :: out)
  end.

(** [sipe_media_stream_info_cb]. *)
Definition sipe_media_stream_info_cb (fuel : nat) (env : engine)
    (type : PurpleMediaInfoType) (local : bool)
    (media_call : option sipe_media_call) : outcome result :=
  stream_info_cb_body (purple_media_stream_info fuel env)
    env type local media_call.

(** [sipe_media_hold], [sipe_media_unhold] and [sipe_media_hangup]. *)
Definition sipe_media_hold (fuel : nat) (env : engine)
    (media_call : option sipe_media_call) : outcome result :=
  match media_call with
  | Some _ =>
    purple_media_stream_info fuel env PURPLE_MEDIA_INFO_HOLD false media_call
  | None => Ok (None, [])
  end.

Definition sipe_media_unhold (fuel : nat) (env : engine)
    (media_call : option sipe_media_call) : outcome result :=
  match media_call with
  | Some _ =>
    purple_media_stream_info fuel env PURPLE_MEDIA_INFO_UNHOLD false media_call
  | None => Ok (None, [])
  end.

Definition sipe_media_hangup (fuel : nat) (env : engine)
    (media_call : option sipe_media_call) : outcome result :=
  match media_call with
  | Some _ =>
    purple_media_stream_info fuel env PURPLE_MEDIA_INFO_HANGUP false media_call
  | None => Ok (None, [])
  end.

(** [sipe_media_call_init]: [None] is the [NULL] it returns when the body
    does not parse. *)
Definition sipe_media_call_init (msg : sipmsg)
  : outcome (option sipe_media_call) :=
  let call := call_zero in
  '(call, no_error) <- sipe_media_parse_sdp_frame call (msg_body msg) ;;
  if negb no_error then Ok None else
  let call := with_invitation (Some msg) call in
  let call := with_legacy_mode false call in
  let call := with_state SIPE_CALL_CONNECTING call in
  '(candidates, call) <- sipe_media_parse_remote_candidates call ;;
  Ok (Some (with_remote_candidates candidates call)).

(** The negotiation of the remote codecs, as both paths of
    [sipe_media_incoming_invite] do it. *)
Definition negotiate_codecs (env : engine) (call : sipe_media_call)
  : outcome sipe_media_call :=
  codecs <- sipe_media_parse_remote_codecs call ;;
  Ok (with_remote_codecs
        (sipe_media_prune_remote_codecs (purple_media_get_codecs env) codecs)
        call).

(** The branch of [sipe_media_incoming_invite] for a message with the
    Call-ID of the call in progress. *)
Definition reinvite (fuel : nat) (env : engine) (call : sipe_media_call)
    (msg : sipmsg) : outcome result :=
  let call := with_invitation (Some msg) call in
  let call := with_sdp_attrs [] call in
  '(call, _) <- sipe_media_parse_sdp_frame call (msg_body msg) ;;
  if legacy_mode call && SipeCallState_eqb (state call) SIPE_CALL_RUNNING
  then sipe_media_hold fuel env (Some call) else
  match sipe_utils_nameval_find (sdp_attrs call) "inactive" with
  | Some _ => sipe_media_hold fuel env (Some call)
  | None =>
    if SipeCallState_eqb (state call) SIPE_CALL_HELD
    then sipe_media_unhold fuel env (Some call) else
    call <- negotiate_codecs env call ;;
    rsp <- sipe_media_create_sdp env call true ;;
    Ok (Some call,
        [purple_media_set_remote_codecs (remote_codecs call);
         send_sip_response (Some msg) 200 "OK" (Some rsp)])
  end.

(** [sipe_media_incoming_invite]. *)
Definition sipe_media_incoming_invite (fuel : nat) (env : engine)
    (media_call : option sipe_media_call) (msg : sipmsg) : outcome result :=
  let callid := msg_callid msg in
  match media_call with
  | Some call =>
    if sipe_strequal (call_callid call) callid
    then reinvite fuel env call msg
    else Ok (media_call, [])
  | None =>
    r <- sipe_media_call_init msg ;;
    call <- match r with
            | Some call => Ok call
            | None => Undefined
            end ;;
    let call := with_dialog callid (msg_from msg) call in
    let stream :=
      purple_media_add_stream (if legacy_mode call then "rawudp" else "nice") in
    let cands := purple_media_add_remote_candidates (remote_candidates call) in
    call <- negotiate_codecs env call ;;
    match remote_candidates call, remote_codecs call with
    | [], _ | _, [] => Ok (None, [stream; cands])
    | _, _ =>
      Ok (Some call,
          [stream; cands;
           purple_media_set_remote_codecs (remote_codecs call);
           send_sip_response (Some msg) 180 "Ringing" None])
    end
  end.

(** ** Events of one account *)

Inductive event : Type :=
| EvInvite (msg : sipmsg)        (* an INVITE arrives *)
| EvStreamInfo (type : PurpleMediaInfoType) (local : bool)
                                 (* the media emits [stream-info] *)
| EvCandidatesPrepared           (* the media emits [candidates-prepared] *)
| EvHold                         (* [sipe_media_hold] *)
| EvUnhold                       (* [sipe_media_unhold] *)
| EvHangup.                      (* [sipe_media_hangup] *)

(** Nesting of [purple_media_stream_info] never goes beyond two levels. *)
Definition signal_depth : nat := 2.

(** One event, served to completion, with the engine as it is then. *)
Definition handle (env : engine) (ev : event)
    (media_call : option sipe_media_call) : outcome result :=
  match ev with
  | EvInvite msg => sipe_media_incoming_invite signal_depth env media_call msg
  | EvStreamInfo type local =>
    sipe_media_stream_info_cb signal_depth env type local media_call
  | EvCandidatesPrepared =>
    match media_call with
    | Some call =>
      '(call, out) <- sipe_media_session_ready_cb env call ;;
      Ok (Some call, out)
    | None => Undefined
    end
  | EvHold => sipe_media_hold signal_depth env media_call
  | EvUnhold => sipe_media_unhold signal_depth env media_call
  | EvHangup => sipe_media_hangup signal_depth env media_call
  end.

(** The events of a call's life: they are served one after the other until
    one of them destroys the call. *)
Fixpoint run (evs : list (engine * event)) (call : sipe_media_call)
  : outcome (option sipe_media_call) :=
  match evs with
  | [] => Ok (Some call)
  | (env, ev) :: rest =>
    '(media_call, _) <- handle env ev (Some call) ;;
    match media_call with
    | Some call' => run rest call'
    | None => Ok None
    end
  end.

(** * Definitions used by the statements *)

(** A remote codec is kept when some local codec has its encoding name. *)
Definition offered_locally (local_codecs : list PurpleMediaCodec)
    (c : PurpleMediaCodec) : bool :=
  existsb (fun l => codec_name_compare l c) local_codecs.

(** [subseq l1 l2]: [l1] is [l2] with some entries left out, the others
    unchanged and in the same order. *)
Inductive subseq {A} : list A -> list A -> Prop :=
| subseq_nil : subseq [] []
| subseq_keep x l1 l2 : subseq l1 l2 -> subseq (x :: l1) (x :: l2)
| subseq_drop x l1 l2 : subseq l1 l2 -> subseq l1 (x :: l2).

Definition PCMU (id : Z) : PurpleMediaCodec := mkCodec id (Some "PCMU") 8000 [].
Definition G722 (id : Z) : PurpleMediaCodec := mkCodec id (Some "G722") 8000 [].
Definition SPEEX (id : Z) : PurpleMediaCodec :=
  mkCodec id (Some "SPEEX") 16000 [].

(** The negotiation as the component overview words it: the local codecs
    whose encoding name the remote side offers, in the local order and with
    the local identifiers. *)
Definition intersect_in_local_order (local remote : list PurpleMediaCodec)
  : list PurpleMediaCodec :=
  filter (fun l => existsb (fun r => codec_name_compare l r) remote) local.

(** A candidate of the given component that is a UDP host candidate at the
    given address. *)
Definition host_udp_at (component : PurpleMediaComponentType)
    (ip : option string) (port : Z) (c : PurpleMediaCandidate) : Prop :=
  cand_component c = component /\
  cand_type c = PURPLE_MEDIA_CANDIDATE_TYPE_HOST /\
  cand_protocol c = PURPLE_MEDIA_NETWORK_PROTOCOL_UDP /\
  cand_ip c = ip /\
  cand_port c = port.

(** A call whose only candidate line is a TCP one. *)
Definition tcp_only_call : sipe_media_call :=
  with_sdp [("candidate", "1 1 TCP 100 10.0.0.5 5004 typ host")]
    (Some "10.0.0.5") 5004 call_zero.

(** The lines of an SDP body, as [sipe_media_parse_sdp_frame] cuts them. *)
Definition sdp_lines (body : string) : list string := g_strsplit body CRLF 0.

Definition has_line (line body : string) : bool :=
  existsb (String.eqb line) (sdp_lines body).

(** A line that starts with [prefix]. *)
Definition has_line_with_prefix (prefix body : string) : bool :=
  existsb (String.prefix prefix) (sdp_lines body).

(** Joins lines, each followed by CRLF. *)
Fixpoint crlf_lines (lines : list string) : string :=
  match lines with
  | [] => ""
  | l :: rest => l ++ CRLF ++ crlf_lines rest
  end.

(** *** Concrete calls and messages *)

Definition local_candidate (component : PurpleMediaComponentType) (port : Z)
  : PurpleMediaCandidate :=
  mkCandidate (Some "1") component PURPLE_MEDIA_CANDIDATE_TYPE_HOST
    PURPLE_MEDIA_NETWORK_PROTOCOL_UDP (Some "192.168.1.2") port 2130706431
    (Some "lufrag") (Some "lpwd").

(** An engine that knows PCMU, has an RTP and an RTCP host candidate, and
    has prepared and accepted the stream. *)
Definition example_engine : engine :=
  mkEngine [PCMU 0]
    [local_candidate PURPLE_MEDIA_COMPONENT_RTP 6000;
     local_candidate PURPLE_MEDIA_COMPONENT_RTCP 6001]
    "192.168.1.2" true true "<sip:alice@example.com>".

(** The offer of a peer without ICE: no [a=candidate] line. *)
Definition legacy_offer : string :=
  crlf_lines ["v=0"; "o=- 0 0 IN IP4 10.0.0.5"; "m=audio 5004 RTP/AVP 0";
              "a=rtpmap:0 PCMU/8000"].

(** An offer with both ICE candidates, and one with a single candidate. *)
Definition ice_offer : string :=
  crlf_lines ["v=0"; "o=- 0 0 IN IP4 10.0.0.5"; "m=audio 5004 RTP/AVP 0";
              "a=ice-ufrag:rufrag"; "a=ice-pwd:rpwd";
              "a=candidate:1 1 UDP 2130706431 10.0.0.5 5004 typ host";
              "a=candidate:1 2 UDP 2130706430 10.0.0.5 5005 typ host";
              "a=rtpmap:0 PCMU/8000"].

Definition single_candidate_offer : string :=
  crlf_lines ["v=0"; "o=- 0 0 IN IP4 10.0.0.5"; "m=audio 5004 RTP/AVP 0";
              "a=ice-ufrag:rufrag"; "a=ice-pwd:rpwd";
              "a=candidate:1 1 UDP 2130706431 10.0.0.5 5004 typ host";
              "a=rtpmap:0 PCMU/8000"].

(** A body whose last attribute line has no name. *)
Definition malformed_offer : string :=
  crlf_lines ["v=0"; "o=- 0 0 IN IP4 10.0.0.5"; "m=audio 5004 RTP/AVP 0";
              "a=rtpmap:0 PCMU/8000"; "a="].

Definition invite (callid body : string) : sipmsg :=
  mkMsg (Some callid) "sip:bob@example.com" body.

Definition remote_candidate (component : PurpleMediaComponentType)
    (port priority : Z) : PurpleMediaCandidate :=
  mkCandidate (Some "1") component PURPLE_MEDIA_CANDIDATE_TYPE_HOST
    PURPLE_MEDIA_NETWORK_PROTOCOL_UDP (Some "10.0.0.5") port priority
    (Some "rufrag") (Some "rpwd").

(** The call that [ice_offer] sets up, once accepted. *)
Definition running_call : sipe_media_call :=
  mkCall (Some "call-1") "sip:bob@example.com" (Some "10.0.0.5") 5004
    [("ice-ufrag", "rufrag"); ("ice-pwd", "rpwd");
     ("candidate", "1 1 UDP 2130706431 10.0.0.5 5004 typ host");
     ("candidate", "1 2 UDP 2130706430 10.0.0.5 5005 typ host");
     ("rtpmap", "0 PCMU/8000")]
    (Some (invite "call-1" ice_offer))
    [remote_candidate PURPLE_MEDIA_COMPONENT_RTP 5004 2130706431;
     remote_candidate PURPLE_MEDIA_COMPONENT_RTCP 5005 2130706430]
    [mkCodec 0 (Some "PCMU") 8000 []]
    (Some (crlf_lines
       ["v=0"; "o=- 0 0 IN IP4 192.168.1.2"; "s=session";
        "c=IN IP4 192.168.1.2"; "b=CT:99980"; "t=0 0";
        "m=audio 6000 RTP/AVP 0";
        "a=ice-ufrag:lufrag"; "a=ice-pwd:lpwd";
        "a=candidate:1 1 UDP 2130706431 192.168.1.2 6000 typ host ";
        "a=candidate:1 2 UDP 2130706431 192.168.1.2 6001 typ host ";
        "a=maxptime:200"; "a=rtcp:6001";
        "a=rtpmap:0 PCMU/8000"; "a=encryption:rejected"]))
    false SIPE_CALL_RUNNING.

(** What a handler leaves in [sip->media_call] has the given legacy flag. *)
Definition keeps_legacy (b : bool) (r : outcome result) : Prop :=
  match r with
  | Ok (Some call, _) => legacy_mode call = b
  | _ => True
  end.

(** The call that [legacy_offer] sets up, once accepted. *)
Definition legacy_call : sipe_media_call :=
  mkCall (Some "call-1") "sip:bob@example.com" (Some "10.0.0.5") 5004
    [("rtpmap", "0 PCMU/8000")]
    (Some (invite "call-1" legacy_offer))
    [purple_media_candidate_new (Some "foundation")
       PURPLE_MEDIA_COMPONENT_RTP PURPLE_MEDIA_CANDIDATE_TYPE_HOST
       PURPLE_MEDIA_NETWORK_PROTOCOL_UDP (Some "10.0.0.5") 5004;
     purple_media_candidate_new (Some "foundation")
       PURPLE_MEDIA_COMPONENT_RTCP PURPLE_MEDIA_CANDIDATE_TYPE_HOST
       PURPLE_MEDIA_NETWORK_PROTOCOL_UDP (Some "10.0.0.5") 5005]
    [mkCodec 0 (Some "PCMU") 8000 []]
    (Some (crlf_lines
       ["v=0"; "o=- 0 0 IN IP4 192.168.1.2"; "s=session";
        "c=IN IP4 192.168.1.2"; "b=CT:99980"; "t=0 0";
        "m=audio 6000 RTP/AVP 0";
        "a=rtpmap:0 PCMU/8000"; "a=encryption:rejected"]))
    true SIPE_CALL_RUNNING.

(** A legacy call that gets a re-INVITE with ICE candidates (taken as a
    hold), a second one (taken as an unhold), a local hold and unhold, a
    candidates-prepared signal and a last re-INVITE. *)
Definition latch_events : list (engine * event) :=
  [(example_engine, EvInvite (invite "call-1" ice_offer));
   (example_engine, EvInvite (invite "call-1" ice_offer));
   (example_engine, EvStreamInfo PURPLE_MEDIA_INFO_HOLD true);
   (example_engine, EvStreamInfo PURPLE_MEDIA_INFO_UNHOLD true);
   (example_engine, EvCandidatesPrepared);
   (example_engine, EvInvite (invite "call-1" ice_offer))].

(** *** The re-INVITE rule, as the description of the state machine words
    it *)

Module ReinviteSpec.

Inductive action : Type := RemoteHold | RemoteUnhold | Renegotiate.

Definition has_inactive_marker (call : sipe_media_call) : bool :=
  match sipe_utils_nameval_find (sdp_attrs call) "inactive" with
  | Some _ => true
  | None => false
  end.

(** Priority order (a) to (d); exactly one action is chosen. *)
Definition choose (call : sipe_media_call) : action :=
  if legacy_mode call && SipeCallState_eqb (state call) SIPE_CALL_RUNNING
  then RemoteHold                                           (* a *)
  else if has_inactive_marker call then RemoteHold          (* b *)
  else if SipeCallState_eqb (state call) SIPE_CALL_HELD
  then RemoteUnhold                                         (* c *)
  else Renegotiate.                                         (* d *)

(** The existing call, with the new invitation and the attributes of its
    body in place of the former ones (none when the body does not parse). *)
Definition reparse (call : sipe_media_call) (msg : sipmsg)
  : outcome sipe_media_call :=
  r <- parse_sdp_lines (sdp_lines (msg_body msg)) (mkFrame [] None 0) ;;
  let call := with_invitation (Some msg) call in
  Ok match r with
     | Some f => with_sdp (frame_attrs f) (frame_ip f) (frame_port f) call
     | None => with_sdp_attrs [] call
     end.

(** A hold or unhold request from the remote side: nothing but the request
    when the call is already in the state asked for; else the new state, a
    200 OK with the updated SDP, and the request to the engine to pause or
    resume the stream. *)
Definition remote_request (type : PurpleMediaInfoType)
    (target : SipeCallState) (env : engine) (call : sipe_media_call)
  : outcome result :=
  if SipeCallState_eqb (state call) target
  then Ok (Some call, [stream_info type false])
  else
    let call := with_state target call in
    body <- sipe_media_create_sdp env call true ;;
    Ok (Some call,
        [stream_info type false;
         send_sip_response (invitation call) 200 "OK" (Some body);
         stream_info type true]).

Definition remote_hold : engine -> sipe_media_call -> outcome result :=
  remote_request PURPLE_MEDIA_INFO_HOLD SIPE_CALL_HELD.

Definition remote_unhold : engine -> sipe_media_call -> outcome result :=
  remote_request PURPLE_MEDIA_INFO_UNHOLD SIPE_CALL_RUNNING.

(** A fresh negotiation round: the remote codecs are parsed from the new
    attributes and pruned, given to the engine, and the request is answered
    200 OK with the updated SDP. *)
Definition renegotiate (env : engine) (msg : sipmsg)
    (call : sipe_media_call) : outcome result :=
  codecs <- sipe_media_parse_remote_codecs call ;;
  let call :=
    with_remote_codecs
      (filter (offered_locally (purple_media_get_codecs env)) codecs) call in
  rsp <- sipe_media_create_sdp env call true ;;
  Ok (Some call,
      [purple_media_set_remote_codecs (remote_codecs call);
       send_sip_response (Some msg) 200 "OK" (Some rsp)]).

Definition handle_reinvite (env : engine) (call : sipe_media_call)
    (msg : sipmsg) : outcome result :=
  call <- reparse call msg ;;
  match choose call with
  | RemoteHold => remote_hold env call
  | RemoteUnhold => remote_unhold env call
  | Renegotiate => renegotiate env msg call
  end.

End ReinviteSpec.

(** *** Well-formed engine data *)

(** No carriage return in the string. *)
Fixpoint nocr (s : string) : bool :=
  match s with
  | EmptyString => true
  | String c s' => negb (Ascii.eqb c CR) && nocr s'
  end.

(** The marker of a held call. *)
Definition inactive_marker : string := "a=inactive".

(** [text] is a sequence of lines, each closed by CRLF, none of which is
    [x]. *)
Inductive lines_avoiding (x : string) : string -> Prop :=
| la_nil : lines_avoiding x ""
| la_cons l rest :
    nocr l = true -> l <> x -> lines_avoiding x rest ->
    lines_avoiding x (l ++ CRLF ++ rest).

(** [s] is empty or ends with CRLF. *)
Definition closed_by_crlf (s : string) : Prop :=
  s = "" \/ exists p, s = p ++ CRLF.

(** A candidate for which every [switch] of the formatter has a case. *)
Definition formattable (c : PurpleMediaCandidate) : bool :=
  match cand_component c with
  | PURPLE_MEDIA_COMPONENT_NONE => false
  | _ => true
  end &&
  match cand_type c with
  | PURPLE_MEDIA_CANDIDATE_TYPE_HOST
  | PURPLE_MEDIA_CANDIDATE_TYPE_RELAY
  | PURPLE_MEDIA_CANDIDATE_TYPE_SRFLX => true
  | _ => false
  end.

(** The conditions under which [sipe_media_create_sdp] with the
    remote-candidate flag stays within defined behaviour: the engine has a
    local candidate, and outside legacy mode every local candidate is
    formattable and the call has two remote candidates. *)
Definition sdp_defined (env : engine) (call : sipe_media_call) : bool :=
  match purple_media_get_local_candidates env with
  | [] => false
  | _ =>
    legacy_mode call ||
    (forallb formattable (purple_media_get_local_candidates env) &&
     Nat.leb 2 (List.length (remote_candidates call)))
  end.

Definition clean_codec (c : PurpleMediaCodec) : bool :=
  nocr (fmt_str (encoding_name c)) &&
  forallb (fun kv => nocr (fst kv) && nocr (snd kv)) (optional_parameters c).

Definition clean_candidate (c : PurpleMediaCandidate) : bool :=
  nocr (fmt_str (cand_foundation c)) && nocr (fmt_str (cand_ip c)) &&
  nocr (fmt_str (cand_username c)) && nocr (fmt_str (cand_password c)).

(** None of the strings the formatter copies into the SDP has a carriage
    return. *)
Definition clean (env : engine) (call : sipe_media_call) : bool :=
  nocr (sipe_utils_get_suitable_local_ip env) &&
  forallb clean_codec (purple_media_get_codecs env) &&
  forallb clean_candidate (purple_media_get_local_candidates env) &&
  forallb clean_candidate (remote_candidates call).

(** The lines of the SDP before the candidate section, the last one
    without its CRLF. *)
Definition sdp_head (env : engine) (first : PurpleMediaCandidate) : string :=
  "v=0" ++ CRLF
  ++ "o=- 0 0 IN IP4 " ++ sipe_utils_get_suitable_local_ip env ++ CRLF
  ++ "s=session" ++ CRLF
  ++ "c=IN IP4 " ++ sipe_utils_get_suitable_local_ip env ++ CRLF
  ++ "b=CT:99980" ++ CRLF
  ++ "t=0 0" ++ CRLF
  ++ "m=audio " ++ fmt_int (to_guint16 (cand_port first)) ++ " RTP/AVP"
  ++ sipe_media_sdp_codec_ids_format (purple_media_get_codecs env).


(** [running_call], held, after a re-INVITE with [ice_offer]. *)
Definition reoffered_call : sipe_media_call :=
  with_sdp (sdp_attrs running_call) (Some "10.0.0.5") 5004
    (with_invitation (Some (invite "call-1" ice_offer))
       (with_state SIPE_CALL_HELD running_call)).

(** * Definitions used by the further properties *)

(** [sipe_media_get_callid]. *)
Definition sipe_media_get_callid (call : sipe_media_call) : option string :=
  call_callid call.

(** A candidate as the resolver accepts or synthesizes them: UDP, and of
    type host, relay or server-reflexive. *)
Definition udp_of_known_type (c : PurpleMediaCandidate) : Prop :=
  cand_protocol c = PURPLE_MEDIA_NETWORK_PROTOCOL_UDP /\
  (cand_type c = PURPLE_MEDIA_CANDIDATE_TYPE_HOST \/
   cand_type c = PURPLE_MEDIA_CANDIDATE_TYPE_RELAY \/
   cand_type c = PURPLE_MEDIA_CANDIDATE_TYPE_SRFLX).

(** An offer with a TCP and a UDP candidate and ICE credentials. *)
Definition mixed_call : sipe_media_call :=
  with_sdp [("ice-ufrag", "rufrag"); ("ice-pwd", "rpwd");
            ("candidate", "1 1 TCP 100 10.0.0.5 5004 typ host");
            ("candidate", "2 1 UDP 90 10.0.0.5 5006 typ srflx");
            ("rtpmap", "0 PCMU/8000"); ("rtpmap", "97 SPEEX/16000")]
    (Some "10.0.0.5") 5004 call_zero.

(** An offer whose only codec the example engine does not know. *)
Definition speex_offer : string :=
  crlf_lines ["v=0"; "o=- 0 0 IN IP4 10.0.0.5"; "m=audio 5004 RTP/AVP 97";
              "a=rtpmap:97 SPEEX/16000"].

(** Something sent to the peer. *)
Definition is_sip_message (e : effect) : bool :=
  match e with
  | send_sip_response _ _ _ _ | send_sip_request _ _ _ _ => true
  | _ => false
  end.

(** What the handlers may change in a call that stays: the SDP data, the
    invitation, the remote codecs, the cached SDP, and the state, which
    stays or becomes running or held. *)
Definition evolves (c c' : sipe_media_call) : Prop :=
  call_callid c' = call_callid c /\
  call_with c' = call_with c /\
  remote_candidates c' = remote_candidates c /\
  legacy_mode c' = legacy_mode c /\
  (state c' = state c \/ state c' = SIPE_CALL_RUNNING \/
   state c' = SIPE_CALL_HELD).

Definition result_evolves (c : sipe_media_call) (r : outcome result) : Prop :=
  match r with
  | Ok (Some c', _) => evolves c c'
  | _ => True
  end.

(** The port an [a=rtcp] line is written for: that of the first RTCP
    candidate whose port, as a [guint16], is not 0; 0 when there is none. *)
Definition first_rtcp_port (cs : list PurpleMediaCandidate) : Z :=
  match
    find (fun c =>
            match cand_component c with
            | PURPLE_MEDIA_COMPONENT_RTCP =>
              negb (to_guint16 (cand_port c) =? 0)
            | _ => false
            end) cs
  with
  | Some c => to_guint16 (cand_port c)
  | None => 0
  end.




(** *** Texts and tokens *)

(** No character of [set] occurs in [s]. *)
Fixpoint free_of (set : string) (s : string) : bool :=
  match s with
  | EmptyString => true
  | String c s' => negb (mem_char c set) && free_of set s'
  end.

(** Tokens, each followed by its separator, then a last token. *)
Fixpoint join (tokens : list (string * ascii)) (last : string) : string :=
  match tokens with
  | [] => last
  | (t, d) :: rest => t ++ String d (join rest last)
  end.

(** The value a sequence of decimal digits stands for, after [acc]. *)
Fixpoint uint_value (acc : Z) (u : Decimal.uint) : Z :=
  match u with
  | Decimal.Nil => acc
  | Decimal.D0 l => uint_value (10 * acc + 0) l
  | Decimal.D1 l => uint_value (10 * acc + 1) l
  | Decimal.D2 l => uint_value (10 * acc + 2) l
  | Decimal.D3 l => uint_value (10 * acc + 3) l
  | Decimal.D4 l => uint_value (10 * acc + 4) l
  | Decimal.D5 l => uint_value (10 * acc + 5) l
  | Decimal.D6 l => uint_value (10 * acc + 6) l
  | Decimal.D7 l => uint_value (10 * acc + 7) l
  | Decimal.D8 l => uint_value (10 * acc + 8) l
  | Decimal.D9 l => uint_value (10 * acc + 9) l
  end.

(** *** Lines of an SDP *)

(** The lines [sipe_media_parse_sdp_frame] looks at. *)
Definition relevant_line (line : string) : bool :=
  g_str_has_prefix line "a=" || g_str_has_prefix line "o="
  || g_str_has_prefix line "m=".

(** The line of an attribute with a value. *)
Definition attr_line (nv : string * string) : string :=
  "a=" ++ fst nv ++ ":" ++ snd nv.

Definition clean_attr (nv : string * string) : bool :=
  free_of ":" (fst nv) && nocr (fst nv) && nocr (snd nv).

Definition add_attrs (acc : sdp_frame) (nvs : list (string * string))
  : sdp_frame :=
  mkFrame (frame_attrs acc ++ nvs) (frame_ip acc) (frame_port acc).

(** A body whose connection line names another address than its origin
    line, and the same body without the lines the parser skips. *)
Definition verbose_offer : string :=
  crlf_lines ["v=0"; "o=- 0 0 IN IP4 10.0.0.5"; "s=session";
              "c=IN IP4 172.16.0.1"; "b=CT:99980"; "t=0 0";
              "m=audio 5004 RTP/AVP 0"; "a=rtpmap:0 PCMU/8000";
              "a=encryption:rejected"].

Definition terse_offer : string :=
  crlf_lines ["o=- 0 0 IN IP4 10.0.0.5"; "m=audio 5004 RTP/AVP 0";
              "a=rtpmap:0 PCMU/8000"; "a=encryption:rejected"].

(** *** What the formatter writes, attribute by attribute *)

Definition rtpmap_value (c : PurpleMediaCodec) : string :=
  fmt_int (to_gint (codec_id c)) ++ " " ++ fmt_str (encoding_name c) ++ "/"
    ++ fmt_int (to_gint (clock_rate c)).

Definition fmtp_value (c : PurpleMediaCodec) : string :=
  fmt_int (to_gint (codec_id c)) ++ fmtp_params (optional_parameters c).

Definition codec_attrs (codecs : list PurpleMediaCodec)
  : list (string * string) :=
  flat_map (fun c =>
              ("rtpmap", rtpmap_value c)
              :: match optional_parameters c with
                 | [] => []
                 | _ => [("fmtp", fmtp_value c)]
                 end) codecs.

Definition component_number (c : PurpleMediaCandidate) : Z :=
  match cand_component c with
  | PURPLE_MEDIA_COMPONENT_RTP => 1
  | PURPLE_MEDIA_COMPONENT_RTCP => 2
  | PURPLE_MEDIA_COMPONENT_NONE => 0
  end.

Definition protocol_name (c : PurpleMediaCandidate) : string :=
  match cand_protocol c with
  | PURPLE_MEDIA_NETWORK_PROTOCOL_TCP => "TCP"
  | PURPLE_MEDIA_NETWORK_PROTOCOL_UDP => "UDP"
  end.

Definition type_name (c : PurpleMediaCandidate) : string :=
  match cand_type c with
  | PURPLE_MEDIA_CANDIDATE_TYPE_HOST => "host"
  | PURPLE_MEDIA_CANDIDATE_TYPE_RELAY => "relay"
  | PURPLE_MEDIA_CANDIDATE_TYPE_SRFLX => "srflx"
  | _ => ""
  end.

(** The value of the [candidate] attribute of a formattable candidate. *)
Definition candidate_value (c : PurpleMediaCandidate) : string :=
  fmt_str (cand_foundation c) ++ " " ++ fmt_int (component_number c) ++ " "
    ++ protocol_name c ++ " " ++ fmt_int (cand_priority c) ++ " "
    ++ fmt_str (cand_ip c) ++ " " ++ fmt_int (to_guint16 (cand_port c))
    ++ " typ " ++ type_name c ++ " ".

Definition remote_candidates_attr (call : sipe_media_call)
  : list (string * string) :=
  match remote_candidates call with
  | first :: second :: _ =>
    [("remote-candidates",
      "1 " ++ fmt_str (cand_ip first) ++ " "
        ++ fmt_int (to_guint16 (cand_port first)) ++ " 2 "
        ++ fmt_str (cand_ip second) ++ " "
        ++ fmt_int (to_guint16 (cand_port second)))]
  | _ => []
  end.

(** The attributes of the candidate section. *)
Definition candidate_section_attrs (cs : list PurpleMediaCandidate)
    (call : sipe_media_call) (remote_candidate : bool)
  : list (string * string) :=
  if legacy_mode call then []
  else
    match cs with
    | [] => []
    | first :: _ =>
      [("ice-ufrag", fmt_str (cand_username first));
       ("ice-pwd", fmt_str (cand_password first))]
      ++ map (fun c => ("candidate", candidate_value c)) cs
      ++ (if remote_candidate then remote_candidates_attr call else [])
      ++ (if first_rtcp_port cs =? 0 then []
          else [("maxptime", "200"); ("rtcp", fmt_int (first_rtcp_port cs))])
    end.

(** The attributes of a whole body, as a parser of this file sees them. *)
Definition sdp_attrs_written (env : engine) (call : sipe_media_call)
    (remote_candidate : bool) : list (string * string) :=
  candidate_section_attrs (purple_media_get_local_candidates env) call
    remote_candidate
  ++ match state call with
     | SIPE_CALL_HELD => [("inactive", "")]
     | _ => []
     end
  ++ codec_attrs (purple_media_get_codecs env)
  ++ [("encryption", "rejected")].

(** The port of the media line. *)
Definition local_port (env : engine) : Z :=
  match purple_media_get_local_candidates env with
  | first :: _ => to_guint16 (cand_port first)
  | [] => 0
  end.

(** The lines before the candidate section. *)
Definition sdp_head_lines (env : engine) : list string :=
  ["v=0";
   "o=- 0 0 IN IP4 " ++ sipe_utils_get_suitable_local_ip env;
   "s=session";
   "c=IN IP4 " ++ sipe_utils_get_suitable_local_ip env;
   "b=CT:99980";
   "t=0 0";
   "m=audio " ++ fmt_int (local_port env) ++ " RTP/AVP"
     ++ sipe_media_sdp_codec_ids_format (purple_media_get_codecs env)].

Definition inactive_lines (call : sipe_media_call) : list string :=
  match state call with
  | SIPE_CALL_HELD => ["a=inactive"]
  | _ => []
  end.

(** *** Codecs and candidates that survive the wire *)

(** A codec as it is read back: the optional parameters are written, as
    [fmtp], but not read. *)
Definition bare_codec (c : PurpleMediaCodec) : PurpleMediaCodec :=
  mkCodec (codec_id c) (encoding_name c) (clock_rate c) [].

(** The name is there and has no space and no slash, the identifier is an
    [int] and the clock rate a [guint]. *)
Definition codec_round_trips (c : PurpleMediaCodec) : bool :=
  match encoding_name c with
  | Some n => free_of " /" n
  | None => false
  end
  && (INT_MIN <=? codec_id c) && (codec_id c <=? INT_MAX)
  && (0 <=? clock_rate c) && (clock_rate c <? 2 ^ 32).

Definition is_udp (c : PurpleMediaCandidate) : bool :=
  match cand_protocol c with
  | PURPLE_MEDIA_NETWORK_PROTOCOL_UDP => true
  | PURPLE_MEDIA_NETWORK_PROTOCOL_TCP => false
  end.

(** A candidate as it is read back: the port as a [guint16], no
    credentials of its own. *)
Definition bare_candidate (c : PurpleMediaCandidate) : PurpleMediaCandidate :=
  mkCandidate (cand_foundation c) (cand_component c) (cand_type c)
    (cand_protocol c) (cand_ip c) (to_guint16 (cand_port c))
    (cand_priority c) None None.

(** The formatter has a case for the candidate, foundation and address
    are there and have no space, and the priority is a non-negative
    [int]. *)
Definition candidate_round_trips (c : PurpleMediaCandidate) : bool :=
  formattable c
  && match cand_foundation c with
     | Some f => free_of " " f
     | None => false
     end
  && match cand_ip c with
     | Some i => free_of " " i
     | None => false
     end
  && (0 <=? cand_priority c) && (cand_priority c <=? INT_MAX).

(** Every name of the attribute list is one of [names]. *)
Definition names_in (names : list string) (l : list (string * string))
  : bool :=
  forallb (fun nv => existsb (String.eqb (fst nv)) names) l.

Definition candidate_section_names : list string :=
  ["ice-ufrag"; "ice-pwd"; "candidate"; "remote-candidates"; "maxptime";
   "rtcp"].

(** [running_call], held. *)
Definition held_call : sipe_media_call :=
  with_state SIPE_CALL_HELD running_call.


(** The tokens of a [candidate] value, each with the space after it. *)
Definition candidate_tokens (c : PurpleMediaCandidate)
  : list (string * ascii) :=
  [(fmt_str (cand_foundation c), " "%char);
   (fmt_int (component_number c), " "%char);
   (protocol_name c, " "%char);
   (fmt_int (cand_priority c), " "%char);
   (fmt_str (cand_ip c), " "%char);
   (fmt_int (to_guint16 (cand_port c)), " "%char);
   ("typ", " "%char);
   (type_name c, " "%char)].

(** What the peer makes of a local candidate: the credentials are those of
    the first local candidate, as text. *)
Definition as_seen_by_peer (first c : PurpleMediaCandidate)
  : PurpleMediaCandidate :=
  set_credentials (Some (fmt_str (cand_username first)))
    (Some (fmt_str (cand_password first))) (bare_candidate c).

(** A call in legacy mode, and an engine with a candidate over TCP, a port
    beyond 16 bits and a codec with a parameter. *)
Definition legacy_running_call : sipe_media_call :=
  with_legacy_mode true running_call.

Definition tcp_udp_engine : engine :=
  mkEngine [PCMU 0; mkCodec 97 (Some "SPEEX") 16000 [("vbr", "on")]]
    [mkCandidate (Some "1") PURPLE_MEDIA_COMPONENT_RTP
       PURPLE_MEDIA_CANDIDATE_TYPE_HOST PURPLE_MEDIA_NETWORK_PROTOCOL_TCP
       (Some "192.168.1.2") 6000 2130706431 (Some "lufrag") (Some "lpwd");
     mkCandidate (Some "2") PURPLE_MEDIA_COMPONENT_RTP
       PURPLE_MEDIA_CANDIDATE_TYPE_SRFLX PURPLE_MEDIA_NETWORK_PROTOCOL_UDP
       (Some "198.51.100.7") 71540 1694498815 None None;
     mkCandidate (Some "2") PURPLE_MEDIA_COMPONENT_RTCP
       PURPLE_MEDIA_CANDIDATE_TYPE_SRFLX PURPLE_MEDIA_NETWORK_PROTOCOL_UDP
       (Some "198.51.100.7") 6005 1694498814 None None]
    "192.168.1.2" true true "<sip:alice@example.com>".

(** *** The end of a call, and what goes to the peer *)

(** The signals that destroy the call. *)
Definition ending (type : PurpleMediaInfoType) : bool :=
  match type with
  | PURPLE_MEDIA_INFO_REJECT | PURPLE_MEDIA_INFO_HANGUP => true
  | _ => false
  end.

(** A handler that left the call in place, if it returned. *)
Definition keeps_call (r : outcome result) : Prop :=
  match r with
  | Ok (None, _) => False
  | _ => True
  end.

(** The events that end a call, with what they emit. *)
Definition ends_with (ev : event) (call : sipe_media_call)
  : option (list effect) :=
  match ev with
  | EvStreamInfo PURPLE_MEDIA_INFO_REJECT _ =>
    Some [send_sip_response (invitation call) 603 "Decline" None]
  | EvStreamInfo PURPLE_MEDIA_INFO_HANGUP local =>
    Some (if local
          then [send_sip_request "BYE" (call_with call) None None]
          else [])
  | EvHangup => Some [stream_info PURPLE_MEDIA_INFO_HANGUP false]
  | _ => None
  end.

(** The number of SIP messages among the effects. *)
Definition messages (out : list effect) : nat :=
  List.length (filter is_sip_message out).

Definition at_most_one_message (r : outcome result) : Prop :=
  match r with
  | Ok (_, out) => (messages out <= 1)%nat
  | _ => True
  end.

(** The first INVITE of the example, and a request to hold while the call
    runs. *)
Definition first_invite : sipmsg := invite "call-1" ice_offer.
(** * Properties *)

(** ** Outcomes and strings *)

Lemma Ok_inj {A} (a b : A) : Ok a = Ok b -> a = b.
Proof. now intros [=]. Qed.

Lemma app_string_assoc (a b c : string) : (a ++ b) ++ c = a ++ (b ++ c).
Proof. induction a as [|x a IH]; simpl; [reflexivity | now rewrite IH]. Qed.

Lemma app_string_nil_r (a : string) : a ++ "" = a.
Proof. induction a as [|x a IH]; simpl; [reflexivity | now rewrite IH]. Qed.

(** ** The library functions on the examples of their manuals *)

Example g_strsplit_set_manual_1 :
  g_strsplit_set "abc:def/ghi" ":/" (-1) = ["abc"; "def"; "ghi"].
Proof. reflexivity. Qed.

Example g_strsplit_set_manual_2 :
  g_strsplit_set ":def/ghi:" ":/" (-1) = [""; "def"; "ghi"; ""].
Proof. reflexivity. Qed.

Example g_strsplit_empty : g_strsplit "" ":" 2 = [].
Proof. reflexivity. Qed.

Example g_strsplit_remainder :
  g_strsplit "rtpmap:0 PCMU/8000:x" ":" 2 = ["rtpmap"; "0 PCMU/8000:x"].
Proof. reflexivity. Qed.

Example g_strsplit_no_delimiter : g_strsplit "inactive" ":" 2 = ["inactive"].
Proof. reflexivity. Qed.

Example atoi_examples :
  atoi (Some "5004") = Ok 5004 /\ atoi (Some " -12x") = Ok (-12) /\
  atoi (Some "typ") = Ok 0 /\ atoi None = Undefined.
Proof. repeat split; reflexivity. Qed.

Example fmt_int_examples :
  fmt_int 5005 = "5005" /\ fmt_int 0 = "0" /\ fmt_int (-3) = "-3".
Proof. repeat split; reflexivity. Qed.

(** The offer without candidates parses into one attribute, the address of
    its origin line and the port of its media line. *)
Example parse_legacy_offer :
  sipe_media_parse_sdp_frame call_zero legacy_offer
  = Ok (with_sdp [("rtpmap", "0 PCMU/8000")] (Some "10.0.0.5") 5004
          call_zero, true).
Proof. vm_compute. reflexivity. Qed.

(** ** Codec negotiation *)

Lemma g_strcmp0_eq_spec (a b : option string) :
  g_strcmp0_eq a b = true <-> a = b.
Proof.
  destruct a as [x|], b as [y|]; simpl; split; intros H;
    try discriminate; try reflexivity.
  - apply String.eqb_eq in H. now subst.
  - injection H as ->. apply String.eqb_refl.
Qed.

Section Prune.

Variable local_codecs : list PurpleMediaCodec.

Lemma offered_locally_spec (c : PurpleMediaCodec) :
  offered_locally local_codecs c = true <->
  exists l, In l local_codecs /\ encoding_name l = encoding_name c.
Proof.
  unfold offered_locally. rewrite existsb_exists.
  split; intros [l [Hin Hn]]; exists l; split; trivial;
    now apply g_strcmp0_eq_spec.
Qed.

Lemma find_custom_offered (c : PurpleMediaCodec) :
  match g_list_find_custom local_codecs c codec_name_compare with
  | Some _ => offered_locally local_codecs c = true
  | None => offered_locally local_codecs c = false
  end.
Proof.
  unfold offered_locally.
  induction local_codecs as [|l ls IH]; simpl; [reflexivity|].
  destruct (codec_name_compare l c); simpl; [reflexivity | exact IH].
Qed.

Lemma prune_loop_filter (remote pruned : list PurpleMediaCodec) :
  prune_loop local_codecs remote pruned
  = (pruned ++ filter (offered_locally local_codecs) remote)%list.
Proof.
  revert pruned.
  induction remote as [|c next IH]; intros pruned; simpl.
  - now rewrite app_nil_r.
  - pose proof (find_custom_offered c) as H.
    destruct (g_list_find_custom local_codecs c codec_name_compare);
      rewrite H, IH; [now rewrite <- app_assoc | reflexivity].
Qed.

Lemma prune_filter (remote : list PurpleMediaCodec) :
  sipe_media_prune_remote_codecs local_codecs remote
  = filter (offered_locally local_codecs) remote.
Proof. unfold sipe_media_prune_remote_codecs. apply prune_loop_filter. Qed.

End Prune.

Lemma subseq_filter {A} (f : A -> bool) (l : list A) : subseq (filter f l) l.
Proof.
  induction l as [|x l IH]; simpl; [constructor|].
  destruct (f x); now constructor.
Qed.

(** C4: for every local and remote codec list the negotiation returns the
    remote list filtered, in the remote order, by "some local codec has
    exactly this encoding name"; names that differ in case do not match;
    local [PCMU, G722] and remote [G722, PCMU, SPEEX] give [G722, PCMU]. *)
Theorem prune_keeps_matching_in_remote_order :
  (forall local remote,
     sipe_media_prune_remote_codecs local remote
     = filter (offered_locally local) remote) /\
  (forall local c,
     offered_locally local c = true <->
     exists l, In l local /\ encoding_name l = encoding_name c) /\
  sipe_media_prune_remote_codecs [PCMU 0; G722 9] [G722 9; PCMU 0; SPEEX 97]
  = [G722 9; PCMU 0] /\
  sipe_media_prune_remote_codecs [PCMU 0]
    [mkCodec 0 (Some "pcmu") 8000 []] = [].
Proof.
  split; [|split; [|split]].
  - intros local remote. apply prune_filter.
  - intros local c. apply offered_locally_spec.
  - reflexivity.
  - reflexivity.
Qed.

(** C5, as stated, fails: with local [PCMU 0, G722 9] and remote
    [G722 109, PCMU 100] the code returns the remote entries in the remote
    order, not the local ones in the local order. *)
Lemma prune_is_not_in_local_order :
  sipe_media_prune_remote_codecs [PCMU 0; G722 9] [G722 109; PCMU 100]
    = [G722 109; PCMU 100] /\
  intersect_in_local_order [PCMU 0; G722 9] [G722 109; PCMU 100]
    = [PCMU 0; G722 9] /\
  sipe_media_prune_remote_codecs [PCMU 0; G722 9] [G722 109; PCMU 100]
    <> intersect_in_local_order [PCMU 0; G722 9] [G722 109; PCMU 100].
Proof.
  split; [reflexivity | split; [reflexivity | discriminate]].
Qed.

(** C5, amended: the negotiation is the intersection by encoding name taken
    on the remote side: its output holds exactly the remote codecs whose
    name a local codec has, and it is the remote list with entries left
    out, so the order and the numeric identifiers are the remote ones. *)
Theorem prune_is_intersection_in_remote_order :
  forall local remote,
    (forall c,
       In c (sipe_media_prune_remote_codecs local remote) <->
       In c remote /\
       exists l, In l local /\ encoding_name l = encoding_name c) /\
    subseq (sipe_media_prune_remote_codecs local remote) remote /\
    subseq (map codec_id (sipe_media_prune_remote_codecs local remote))
           (map codec_id remote).
Proof.
  intros local remote. rewrite prune_filter. split; [|split].
  - intros c. rewrite filter_In, offered_locally_spec. reflexivity.
  - apply subseq_filter.
  - induction remote as [|c next IH]; simpl; [constructor|].
    destruct (offered_locally local c); simpl; now constructor.
Qed.

(** ** Attribute lists *)

(** The N-th instance of a name is the N-th entry of [instances]: a loop
    that asks for instance 0, 1, 2, ... until it gets [NULL] visits
    [instances] in order. *)
Lemma nameval_find_instance_nth (l : list (string * string)) (name : string)
    (which : nat) :
  sipe_utils_nameval_find_instance l name which
  = nth_error (instances l name) which.
Proof.
  unfold instances. revert which.
  induction l as [|[n v] l IH]; intros which; simpl.
  - now destruct which.
  - destruct (String.eqb n name); simpl; [|apply IH].
    destruct which; [reflexivity | apply IH].
Qed.

(** ** Candidate resolver *)

Lemma parse_candidates_loop_app (attrs : list string)
    (acc : list PurpleMediaCandidate) :
  parse_candidates_loop attrs acc
  = (l <- parse_candidates_loop attrs [] ;; Ok (acc ++ l)%list).
Proof.
  revert acc. induction attrs as [|a rest IH]; intros acc; simpl.
  - now rewrite app_nil_r.
  - destruct (parse_candidate a) as [[c|] | |]; simpl; trivial.
    rewrite (IH (acc ++ [c])%list), (IH [c]).
    destruct (parse_candidates_loop rest []); simpl; trivial.
    now rewrite <- app_assoc.
Qed.

(** No line is accepted exactly when every candidate line is skipped. *)
Lemma accepted_none_iff (attrs : list (string * string)) :
  accepted_candidates attrs = Ok [] <->
  Forall (fun a => parse_candidate a = Ok None) (instances attrs "candidate").
Proof.
  unfold accepted_candidates.
  induction (instances attrs "candidate") as [|a rest IH]; simpl.
  - split; [constructor | reflexivity].
  - destruct (parse_candidate a) as [[c|] | |] eqn:E; simpl.
    + rewrite parse_candidates_loop_app.
      split; intros H.
      * destruct (parse_candidates_loop rest []); discriminate.
      * inversion H; subst. congruence.
    + rewrite IH. split; intros H; [now constructor | now inversion H].
    + split; intros H; [discriminate | inversion H; congruence].
    + split; intros H; [discriminate | inversion H; congruence].
Qed.

(** C2: when no candidate line of the attribute set is accepted, the
    resolver returns exactly two candidates, a UDP host RTP candidate at
    (remote_ip, remote_port) and a UDP host RTCP candidate at
    (remote_ip, remote_port + 1), and leaves the call in legacy mode. *)
Theorem no_accepted_candidate_gives_legacy_pair :
  forall call,
    accepted_candidates (sdp_attrs call) = Ok [] ->
    exists rtp rtcp call',
      sipe_media_parse_remote_candidates call = Ok ([rtp; rtcp], call') /\
      host_udp_at PURPLE_MEDIA_COMPONENT_RTP
        (remote_ip call) (remote_port call) rtp /\
      host_udp_at PURPLE_MEDIA_COMPONENT_RTCP
        (remote_ip call) (remote_port call + 1) rtcp /\
      call' = with_legacy_mode true call /\
      legacy_mode call' = true.
Proof.
  intros call H. unfold sipe_media_parse_remote_candidates.
  rewrite H. simpl.
  destruct (sipe_utils_nameval_find (sdp_attrs call) "ice-ufrag");
    simpl; do 3 eexists; (split; [reflexivity|]);
    repeat split; reflexivity.
Qed.

Lemma no_accepted_candidate_gives_legacy_pair_witness :
  accepted_candidates (sdp_attrs tcp_only_call) = Ok [] /\
  exists rtp rtcp call',
    sipe_media_parse_remote_candidates tcp_only_call
      = Ok ([rtp; rtcp], call') /\
    host_udp_at PURPLE_MEDIA_COMPONENT_RTP (Some "10.0.0.5") 5004 rtp /\
    host_udp_at PURPLE_MEDIA_COMPONENT_RTCP (Some "10.0.0.5") 5005 rtcp /\
    call' = with_legacy_mode true tcp_only_call /\
    legacy_mode call' = true.
Proof.
  split; [reflexivity|].
  apply (no_accepted_candidate_gives_legacy_pair tcp_only_call).
  reflexivity.
Defined.

(** ** Concrete runs *)

(** [running_call] is what the code reaches from [ice_offer]. *)
Lemma running_call_reachable :
  exists call out1 out2,
    handle example_engine (EvInvite (invite "call-1" ice_offer)) None
      = Ok (Some call, out1) /\
    handle example_engine (EvStreamInfo PURPLE_MEDIA_INFO_ACCEPT true)
      (Some call) = Ok (Some running_call, out2).
Proof. do 3 eexists. split; vm_compute; reflexivity. Qed.

(** The parse itself never touches the call when it fails. *)
Lemma parse_failure_keeps_call (call call' : sipe_media_call)
    (frame : string) :
  sipe_media_parse_sdp_frame call frame = Ok (call', false) -> call' = call.
Proof.
  unfold sipe_media_parse_sdp_frame.
  destruct (parse_sdp_lines _ _) as [[f|] | |]; simpl; congruence.
Qed.

(** A line [a=] stops the loop with an error, whatever was read before: no
    body with such a line parses. *)
Lemma parse_sdp_lines_empty_attribute (lines : list string) :
  In "a=" lines ->
  forall acc f, parse_sdp_lines lines acc <> Ok (Some f).
Proof.
  induction lines as [|l rest IH]; intros Hin acc f; [destruct Hin|].
  destruct (String.eqb_spec l "a=") as [->|Hne].
  - discriminate.
  - destruct Hin as [->|Hin]; [congruence|].
    specialize (IH Hin). cbn [parse_sdp_lines].
    repeat match goal with
    | |- context [if ?b then _ else _] => destruct b
    | |- context [strv_get ?v ?i] =>
      destruct (strv_get v i) as [[?|] | |]; cbn [bind]
    | |- context [atoi ?p] => destruct (atoi p); cbn [bind]
    end; auto; discriminate.
Qed.

(** C1, on the code: a re-INVITE for the call in progress whose body has a
    nameless [a=] line does make the parse fail without touching the call,
    but the handler has emptied [sdp_attrs] before parsing and goes on
    after the failure: the prior attributes and remote codecs are gone and
    the request is answered 200 OK.  As a first INVITE the same body makes
    [sipe_media_call_init] return [NULL], which the handler dereferences. *)
Theorem malformed_reinvite_drops_prior_attributes :
  sipe_media_parse_sdp_frame running_call malformed_offer
    = Ok (running_call, false) /\
  sdp_attrs running_call <> [] /\
  (exists call rsp,
     sipe_media_incoming_invite signal_depth example_engine
       (Some running_call) (invite "call-1" malformed_offer)
     = Ok (Some call,
           [purple_media_set_remote_codecs [];
            send_sip_response (Some (invite "call-1" malformed_offer))
              200 "OK" (Some rsp)]) /\
     sdp_attrs call = [] /\ remote_codecs call = []) /\
  sipe_media_call_init (invite "call-2" malformed_offer) = Ok None /\
  sipe_media_incoming_invite signal_depth example_engine None
    (invite "call-2" malformed_offer) = Undefined.
Proof.
  split; [vm_compute; reflexivity|].
  split; [discriminate|].
  split; [|split; vm_compute; reflexivity].
  do 2 eexists. split; [vm_compute; reflexivity|].
  split; reflexivity.
Qed.

(** An INVITE with another Call-ID leaves the call as it is and emits
    nothing. *)
Lemma collision_is_silent (fuel : nat) (env : engine)
    (call : sipe_media_call) (msg : sipmsg) :
  sipe_strequal (call_callid call) (msg_callid msg) = false ->
  sipe_media_incoming_invite fuel env (Some call) msg = Ok (Some call, []).
Proof. intros H. unfold sipe_media_incoming_invite. now rewrite H. Qed.

(** C8, on the code: an INVITE with Call-ID call-2 while call-1 is in
    progress leaves every field of the call as it was, but no response at
    all is sent for it. *)
Theorem collision_sends_no_response :
  sipe_media_incoming_invite signal_depth example_engine
    (Some running_call) (invite "call-2" ice_offer)
  = Ok (Some running_call, []).
Proof. apply collision_is_silent. reflexivity. Qed.

(** C10, on the code: an offer with a single accepted candidate sets up a
    call that is not in legacy mode and has one remote candidate; once it
    runs, a local hold formats the SDP with the remote-candidate flag and
    reads the second remote candidate, which is not there. *)
Theorem single_candidate_call_reads_past_the_list :
  exists call out1 call' out2,
    handle example_engine
      (EvInvite (invite "call-1" single_candidate_offer)) None
      = Ok (Some call, out1) /\
    handle example_engine (EvStreamInfo PURPLE_MEDIA_INFO_ACCEPT true)
      (Some call) = Ok (Some call', out2) /\
    state call' = SIPE_CALL_RUNNING /\
    legacy_mode call' = false /\
    List.length (remote_candidates call') = 1%nat /\
    sipe_media_sdp_candidates_format
      (purple_media_get_local_candidates example_engine) call' true
      = Undefined /\
    handle example_engine (EvStreamInfo PURPLE_MEDIA_INFO_HOLD true)
      (Some call') = Undefined.
Proof.
  do 4 eexists.
  split; [vm_compute; reflexivity|].
  split; [vm_compute; reflexivity|].
  repeat split; vm_compute; reflexivity.
Qed.

(** ** SDP formatter in legacy mode *)

(** C6, as stated, fails on its example: the offer without [a=candidate]
    lines and with [m=audio 5004] sets up a legacy call, and the 200 OK
    that answers it has no line [a=rtcp:5005], nor any [a=rtcp] line. *)
Lemma legacy_example_has_no_rtcp_line :
  exists call out1 call' body,
    handle example_engine (EvInvite (invite "call-1" legacy_offer)) None
      = Ok (Some call, out1) /\
    legacy_mode call = true /\
    handle example_engine (EvStreamInfo PURPLE_MEDIA_INFO_ACCEPT true)
      (Some call)
      = Ok (Some call',
            [send_sip_response (Some (invite "call-1" legacy_offer))
               200 "OK" (Some body)]) /\
    has_line "a=rtcp:5005" body = false /\
    has_line_with_prefix "a=rtcp" body = false.
Proof.
  do 4 eexists.
  split; [vm_compute; reflexivity|].
  split; [reflexivity|].
  split; [vm_compute; reflexivity|].
  split; vm_compute; reflexivity.
Qed.

(** C6, amended: in legacy mode the candidate section of the SDP is empty,
    so the body has no ICE credential and no candidate line, and no
    [a=remote-candidates], [a=maxptime] or [a=rtcp] line either: between
    its media line and its codec lines it has the inactive marker at most. *)
Theorem legacy_candidate_section_is_empty :
  forall env call remote_candidate first rest,
    legacy_mode call = true ->
    purple_media_get_local_candidates env = first :: rest ->
    sipe_media_sdp_candidates_format
      (purple_media_get_local_candidates env) call remote_candidate = Ok "" /\
    sipe_media_create_sdp env call remote_candidate
    = Ok (crlf_lines
            ["v=0";
             "o=- 0 0 IN IP4 " ++ sipe_utils_get_suitable_local_ip env;
             "s=session";
             "c=IN IP4 " ++ sipe_utils_get_suitable_local_ip env;
             "b=CT:99980"; "t=0 0";
             "m=audio " ++ fmt_int (to_guint16 (cand_port first))
               ++ " RTP/AVP"
               ++ sipe_media_sdp_codec_ids_format
                    (purple_media_get_codecs env)]
          ++ inactive_line call
          ++ sipe_media_sdp_codecs_format (purple_media_get_codecs env)
          ++ crlf_lines ["a=encryption:rejected"]).
Proof.
  intros env call rc first rest Hlegacy Hlocal.
  unfold sipe_media_create_sdp, sipe_media_sdp_candidates_format.
  rewrite Hlocal, Hlegacy. split; [reflexivity|].
  cbn [bind crlf_lines]. f_equal.
  rewrite !app_string_assoc, app_string_nil_r. reflexivity.
Qed.

Lemma legacy_candidate_section_is_empty_witness :
  legacy_mode (with_legacy_mode true running_call) = true /\
  sipe_media_sdp_candidates_format
    (purple_media_get_local_candidates example_engine)
    (with_legacy_mode true running_call) true = Ok "".
Proof.
  split; [reflexivity|].
  apply (legacy_candidate_section_is_empty example_engine
           (with_legacy_mode true running_call) true
           (local_candidate PURPLE_MEDIA_COMPONENT_RTP 6000)
           [local_candidate PURPLE_MEDIA_COMPONENT_RTCP 6001]);
    reflexivity.
Defined.

(** ** Legacy mode is a latch *)

Lemma parse_sdp_frame_shape (call call' : sipe_media_call) (frame : string)
    (no_error : bool) :
  sipe_media_parse_sdp_frame call frame = Ok (call', no_error) ->
  exists attrs ip port, call' = with_sdp attrs ip port call.
Proof.
  unfold sipe_media_parse_sdp_frame.
  destruct (parse_sdp_lines _ _) as [[f|] | |]; simpl; intros H;
    inversion H; subst.
  - now do 3 eexists.
  - exists (sdp_attrs call'), (remote_ip call'), (remote_port call').
    now destruct call'.
Qed.

Lemma session_ready_keeps_legacy (env : engine) (call : sipe_media_call) :
  match sipe_media_session_ready_cb env call with
  | Ok (call', _) => legacy_mode call' = legacy_mode call
  | _ => True
  end.
Proof.
  unfold sipe_media_session_ready_cb.
  destruct (purple_media_candidates_prepared env); simpl; trivial.
  destruct (sdp_response call); simpl.
  - destruct (purple_media_accepted env); simpl; trivial.
    destruct (negb (legacy_mode call)); reflexivity.
  - destruct (sipe_media_create_sdp env call false); simpl; trivial.
    destruct (purple_media_accepted env); simpl; trivial.
    destruct (negb (legacy_mode call)); reflexivity.
Qed.

Section StreamInfo.

Variable env : engine.
Variable emit : PurpleMediaInfoType -> bool -> option sipe_media_call ->
                outcome result.
Hypothesis emit_keeps : forall type local call,
  keeps_legacy (legacy_mode call) (emit type local (Some call)).

Lemma cb_body_keeps_legacy (type : PurpleMediaInfoType) (local : bool)
    (call : sipe_media_call) :
  keeps_legacy (legacy_mode call)
    (stream_info_cb_body emit env type local (Some call)).
Proof.
  destruct type; simpl; trivial.
  - pose proof (session_ready_keeps_legacy env call) as H.
    destruct (sipe_media_session_ready_cb env call) as [[c o]| |];
      simpl; trivial.
  - destruct (SipeCallState_eqb (state call) SIPE_CALL_HELD);
      simpl; trivial.
    destruct (notify_state_change env _ local); simpl; trivial.
    pose proof (emit_keeps PURPLE_MEDIA_INFO_HOLD true
                  (with_state SIPE_CALL_HELD call)) as H.
    destruct (emit _ _ _) as [[[c|] o]| |]; simpl in *; trivial.
  - destruct (SipeCallState_eqb (state call) SIPE_CALL_RUNNING);
      simpl; trivial.
    destruct (notify_state_change env _ local); simpl; trivial.
    pose proof (emit_keeps PURPLE_MEDIA_INFO_UNHOLD true
                  (with_state SIPE_CALL_RUNNING call)) as H.
    destruct (emit _ _ _) as [[[c|] o]| |]; simpl in *; trivial.
Qed.

End StreamInfo.

Lemma stream_info_keeps_legacy (fuel : nat) (env : engine)
    (type : PurpleMediaInfoType) (local : bool) (call : sipe_media_call) :
  keeps_legacy (legacy_mode call)
    (purple_media_stream_info fuel env type local (Some call)).
Proof.
  revert type local call.
  induction fuel as [|fuel IH]; intros type local call; simpl; trivial.
  pose proof (cb_body_keeps_legacy env _ IH type local call) as H.
  destruct (stream_info_cb_body _ env type local (Some call))
    as [[[c|] o]| |]; simpl in *; trivial.
Qed.

Lemma reinvite_keeps_legacy (fuel : nat) (env : engine)
    (call : sipe_media_call) (msg : sipmsg) :
  keeps_legacy (legacy_mode call) (reinvite fuel env call msg).
Proof.
  unfold reinvite.
  destruct (sipe_media_parse_sdp_frame _ _) as [[c b]| |] eqn:E;
    simpl; trivial.
  apply parse_sdp_frame_shape in E. destruct E as (attrs & ip & port & ->).
  change (legacy_mode (with_sdp attrs ip port
            (with_sdp_attrs [] (with_invitation (Some msg) call))))
    with (legacy_mode call).
  set (c := with_sdp attrs ip port _).
  assert (Hc : legacy_mode c = legacy_mode call) by reflexivity.
  clearbody c.
  destruct (legacy_mode call && _).
  { rewrite <- Hc. apply stream_info_keeps_legacy. }
  destruct (sipe_utils_nameval_find _ _).
  { rewrite <- Hc. apply stream_info_keeps_legacy. }
  destruct (SipeCallState_eqb _ _).
  { rewrite <- Hc. apply stream_info_keeps_legacy. }
  unfold negotiate_codecs.
  destruct (sipe_media_parse_remote_codecs c); simpl; trivial.
  destruct (sipe_media_create_sdp _ _ _); simpl; trivial.
Qed.

Lemma handle_keeps_legacy (env : engine) (ev : event)
    (call : sipe_media_call) :
  keeps_legacy (legacy_mode call) (handle env ev (Some call)).
Proof.
  destruct ev as [msg|type local| | | |]; cbn [handle].
  - unfold sipe_media_incoming_invite.
    destruct (sipe_strequal _ _); [apply reinvite_keeps_legacy | reflexivity].
  - apply cb_body_keeps_legacy. intros. apply stream_info_keeps_legacy.
  - pose proof (session_ready_keeps_legacy env call) as H.
    destruct (sipe_media_session_ready_cb env call) as [[c o]| |];
      simpl; trivial.
  - apply stream_info_keeps_legacy.
  - apply stream_info_keeps_legacy.
  - apply stream_info_keeps_legacy.
Qed.

(** C3: whatever events a call goes through after its initialisation
    (INVITEs, stream-info signals of any kind from either side,
    candidates-prepared signals, hold, unhold, hangup requests), with
    whatever the engine answers at each, a call in legacy mode is still in
    legacy mode for as long as it exists. *)
Theorem legacy_mode_is_a_latch :
  forall evs call call',
    legacy_mode call = true ->
    run evs call = Ok (Some call') ->
    legacy_mode call' = true.
Proof.
  induction evs as [|[env ev] rest IH]; intros call call' Hl Hrun; simpl in *.
  - now inversion Hrun; subst.
  - pose proof (handle_keeps_legacy env ev call) as H.
    destruct (handle env ev (Some call)) as [[[c|] o]| |];
      simpl in *; try discriminate.
    apply (IH c call'); congruence.
Qed.

Lemma legacy_mode_is_a_latch_witness :
  legacy_mode legacy_call = true /\
  exists call',
    run latch_events legacy_call = Ok (Some call') /\
    legacy_mode call' = true.
Proof.
  split; [reflexivity|].
  eexists. split.
  - vm_compute. reflexivity.
  - eapply (legacy_mode_is_a_latch latch_events legacy_call);
      [reflexivity | vm_compute; reflexivity].
Defined.

(** ** Re-INVITE for the call in progress *)

(** The two levels of [purple_media_stream_info] for a hold or unhold
    request, written out. *)
Lemma stream_info_hold (n : nat) (env : engine) (local : bool)
    (call : sipe_media_call) :
  purple_media_stream_info (S (S n)) env PURPLE_MEDIA_INFO_HOLD local
    (Some call)
  = if SipeCallState_eqb (state call) SIPE_CALL_HELD
    then Ok (Some call, [stream_info PURPLE_MEDIA_INFO_HOLD local])
    else
      out <- notify_state_change env (with_state SIPE_CALL_HELD call) local ;;
      Ok (Some (with_state SIPE_CALL_HELD call),
          (stream_info PURPLE_MEDIA_INFO_HOLD local :: out
             ++ [stream_info PURPLE_MEDIA_INFO_HOLD true])%list).
Proof.
  cbn [purple_media_stream_info stream_info_cb_body bind].
  destruct (SipeCallState_eqb (state call) SIPE_CALL_HELD); [reflexivity|].
  destruct (notify_state_change env _ local); reflexivity.
Qed.

Lemma stream_info_unhold (n : nat) (env : engine) (local : bool)
    (call : sipe_media_call) :
  purple_media_stream_info (S (S n)) env PURPLE_MEDIA_INFO_UNHOLD local
    (Some call)
  = if SipeCallState_eqb (state call) SIPE_CALL_RUNNING
    then Ok (Some call, [stream_info PURPLE_MEDIA_INFO_UNHOLD local])
    else
      out <- notify_state_change env (with_state SIPE_CALL_RUNNING call)
               local ;;
      Ok (Some (with_state SIPE_CALL_RUNNING call),
          (stream_info PURPLE_MEDIA_INFO_UNHOLD local :: out
             ++ [stream_info PURPLE_MEDIA_INFO_UNHOLD true])%list).
Proof.
  cbn [purple_media_stream_info stream_info_cb_body bind].
  destruct (SipeCallState_eqb (state call) SIPE_CALL_RUNNING); [reflexivity|].
  destruct (notify_state_change env _ local); reflexivity.
Qed.

Lemma remote_hold_flat (n : nat) (env : engine) (call : sipe_media_call) :
  sipe_media_hold (S (S n)) env (Some call)
  = ReinviteSpec.remote_hold env call.
Proof.
  unfold sipe_media_hold, ReinviteSpec.remote_hold,
    ReinviteSpec.remote_request.
  rewrite stream_info_hold.
  destruct (SipeCallState_eqb (state call) SIPE_CALL_HELD); [reflexivity|].
  unfold notify_state_change.
  destruct (sipe_media_create_sdp env _ true); reflexivity.
Qed.

Lemma remote_unhold_flat (n : nat) (env : engine) (call : sipe_media_call) :
  sipe_media_unhold (S (S n)) env (Some call)
  = ReinviteSpec.remote_unhold env call.
Proof.
  unfold sipe_media_unhold, ReinviteSpec.remote_unhold,
    ReinviteSpec.remote_request.
  rewrite stream_info_unhold.
  destruct (SipeCallState_eqb (state call) SIPE_CALL_RUNNING); [reflexivity|].
  unfold notify_state_change.
  destruct (sipe_media_create_sdp env _ true); reflexivity.
Qed.

Lemma reparse_is_parse (call : sipe_media_call) (msg : sipmsg) :
  ReinviteSpec.reparse call msg
  = ('(c, _) <- sipe_media_parse_sdp_frame
                  (with_sdp_attrs [] (with_invitation (Some msg) call))
                  (msg_body msg) ;;
     Ok c).
Proof.
  unfold ReinviteSpec.reparse, sipe_media_parse_sdp_frame, sdp_lines.
  destruct (parse_sdp_lines _ _) as [[f|] | |]; reflexivity.
Qed.

(** The handler of a re-INVITE does what the rule says. *)
Lemma incoming_reinvite_flat (n : nat) (env : engine)
    (call : sipe_media_call) (msg : sipmsg) :
  sipe_strequal (call_callid call) (msg_callid msg) = true ->
  sipe_media_incoming_invite (S (S n)) env (Some call) msg
  = ReinviteSpec.handle_reinvite env call msg.
Proof.
  intros Hid.
  unfold sipe_media_incoming_invite. rewrite Hid.
  unfold reinvite, ReinviteSpec.handle_reinvite.
  rewrite reparse_is_parse.
  destruct (sipe_media_parse_sdp_frame _ _) as [[c b]| |];
    cbn [bind]; trivial.
  unfold ReinviteSpec.choose, ReinviteSpec.has_inactive_marker.
  destruct (legacy_mode c && _); [apply remote_hold_flat|].
  destruct (sipe_utils_nameval_find _ _); [apply remote_hold_flat|].
  destruct (SipeCallState_eqb _ _); [apply remote_unhold_flat|].
  unfold negotiate_codecs, ReinviteSpec.renegotiate.
  destruct (sipe_media_parse_remote_codecs c); cbn [bind]; trivial.
  now rewrite prune_filter.
Qed.

Lemma reparse_shape (call c : sipe_media_call) (msg : sipmsg) :
  ReinviteSpec.reparse call msg = Ok c ->
  exists attrs ip port,
    c = with_sdp attrs ip port (with_invitation (Some msg) call).
Proof.
  unfold ReinviteSpec.reparse.
  destruct (parse_sdp_lines _ _) as [[f|] | |]; cbn [bind]; intros E;
    try discriminate; apply Ok_inj in E; subst c.
  - now do 3 eexists.
  - now exists [], (remote_ip call), (remote_port call).
Qed.

(** ** Lines of a formatted SDP *)

Lemma length_app_string (a b : string) :
  String.length (a ++ b) = (String.length a + String.length b)%nat.
Proof. induction a as [|x a IH]; simpl; [reflexivity | now rewrite IH]. Qed.

Lemma nocr_app (a b : string) : nocr (a ++ b) = nocr a && nocr b.
Proof.
  induction a as [|x a IH]; simpl; [reflexivity|].
  now rewrite IH, andb_assoc.
Qed.

Lemma nocr_uint (u : Decimal.uint) : nocr (NilEmpty.string_of_uint u) = true.
Proof. induction u; simpl; trivial. Qed.

Lemma nocr_fmt_int (z : Z) : nocr (fmt_int z) = true.
Proof.
  unfold fmt_int, NilZero.string_of_int, NilZero.string_of_uint.
  destruct (Z.to_int z) as [u|u]; [|cbn [nocr]; rewrite andb_true_l];
    destruct u; simpl; trivial; apply nocr_uint.
Qed.

(** A line without carriage return, followed by CRLF, is cut off as one
    token. *)
Lemma split_from_line (l rest : string) (n : nat) :
  nocr l = true ->
  split_from CRLF 0 (S n) (l ++ CRLF ++ rest)
  = l :: split_from CRLF 0 n rest.
Proof.
  intros Hl. induction l as [|c l IH].
  - destruct rest; reflexivity.
  - simpl in Hl. apply andb_true_iff in Hl. destruct Hl as [Hc Hl].
    cbn [append split_from]. unfold CRLF at 1. cbn [String.prefix].
    destruct (ascii_dec CR c) as [<-|Hne]; [discriminate Hc|].
    now rewrite (IH Hl).
Qed.

Lemma split_from_avoiding (x body : string) :
  x <> "" ->
  lines_avoiding x body ->
  forall n, (String.length body <= n)%nat ->
    existsb (String.eqb x) (split_from CRLF 0 n body) = false.
Proof.
  intros Hx H. induction H as [|l rest Hl Hne Hrest IH]; intros n Hn.
  - simpl. rewrite orb_false_r. now apply String.eqb_neq.
  - rewrite !length_app_string in Hn. simpl in Hn.
    destruct n as [|n]; [lia|].
    rewrite split_from_line by assumption.
    simpl. rewrite IH by lia.
    rewrite orb_false_r. apply String.eqb_neq. congruence.
Qed.

Lemma has_line_avoiding (x body : string) :
  x <> "" -> lines_avoiding x body -> has_line x body = false.
Proof.
  intros Hx H. unfold has_line, sdp_lines, g_strsplit.
  destruct body; [reflexivity|].
  change (0 <? 1) with true. cbv iota.
  now apply split_from_avoiding.
Qed.

Lemma lines_avoiding_app (x a b : string) :
  lines_avoiding x a -> lines_avoiding x b -> lines_avoiding x (a ++ b).
Proof.
  intros Ha Hb. induction Ha as [|l rest Hl Hne Hrest IH]; [exact Hb|].
  rewrite !app_string_assoc. now constructor.
Qed.

Lemma fold_right_append_tail (pieces : list string) (tail : string) :
  fold_right append tail pieces = fold_right append "" pieces ++ tail.
Proof.
  induction pieces as [|p ps IH]; cbn [fold_right]; [reflexivity|].
  now rewrite IH, app_string_assoc.
Qed.

(** A line given by its pieces. *)
Lemma lines_avoiding_pieces (x : string) (pieces : list string)
    (rest : string) :
  forallb nocr pieces = true ->
  fold_right append "" pieces <> x ->
  lines_avoiding x rest ->
  lines_avoiding x (fold_right append (CRLF ++ rest) pieces).
Proof.
  intros Hp Hne Hrest.
  rewrite fold_right_append_tail. constructor; trivial.
  clear -Hp.
  induction pieces as [|p ps IH]; cbn [fold_right forallb] in *;
    [reflexivity|].
  apply andb_true_iff in Hp. destruct Hp as [H1 H2].
  now rewrite nocr_app, H1, IH.
Qed.


Ltac side_nocr :=
  cbn [forallb]; rewrite ?nocr_app, ?nocr_fmt_int;
  repeat match goal with
         | H : nocr _ = true |- _ => rewrite H
         end;
  reflexivity.

Ltac line_of pieces :=
  apply (lines_avoiding_pieces inactive_marker pieces);
  [ side_nocr
  | intros Habs; unfold inactive_marker in Habs; simpl in Habs;
    discriminate Habs
  | ].

Lemma nocr_fmtp_params (params : list (string * string)) :
  forallb (fun kv => nocr (fst kv) && nocr (snd kv)) params = true ->
  nocr (fmtp_params params) = true.
Proof.
  induction params as [|[k v] ps IH]; cbn [forallb fmtp_params fst snd];
    [reflexivity|].
  intros H. apply andb_true_iff in H. destruct H as [Hkv Hps].
  apply andb_true_iff in Hkv. destruct Hkv as [Hk Hv].
  rewrite !nocr_app, Hk, Hv, (IH Hps). reflexivity.
Qed.

Lemma codecs_avoid_marker (codecs : list PurpleMediaCodec) :
  forallb clean_codec codecs = true ->
  lines_avoiding inactive_marker (sipe_media_sdp_codecs_format codecs).
Proof.
  induction codecs as [|c next IH];
    cbn [forallb sipe_media_sdp_codecs_format]; [constructor|].
  intros H. apply andb_true_iff in H. destruct H as [Hc Hnext].
  apply andb_true_iff in Hc. destruct Hc as [Hname Hparams].
  apply lines_avoiding_app; [|apply lines_avoiding_app; [|now apply IH]].
  - line_of ["a=rtpmap:"; fmt_int (to_gint (codec_id c)); " ";
             fmt_str (encoding_name c); "/"; fmt_int (to_gint (clock_rate c))].
    constructor.
  - unfold fmtp_line.
    pose proof (nocr_fmtp_params _ Hparams) as Hp.
    destruct (optional_parameters c) as [|kv ps]; [constructor|].
    line_of ["a=fmtp:" ++ fmt_int (to_gint (codec_id c)); fmtp_params (kv :: ps)].
    constructor.
Qed.

Lemma candidate_text_avoids_marker (f n p pr ip port t : string) :
  nocr f = true -> nocr n = true -> nocr p = true -> nocr pr = true ->
  nocr ip = true -> nocr port = true -> nocr t = true ->
  lines_avoiding inactive_marker
    ("a=candidate:" ++ f ++ " " ++ n ++ " " ++ p ++ " " ++ pr ++ " " ++ ip
       ++ " " ++ port ++ " typ " ++ t ++ " " ++ CRLF).
Proof.
  intros Hf Hn Hp Hpr Hip Hport Ht.
  line_of ["a=candidate:"; f; " "; n; " "; p; " "; pr; " "; ip; " "; port;
           " typ "; t; " "].
  constructor.
Qed.

Lemma candidate_line_avoids_marker (c : PurpleMediaCandidate) (line : string) :
  clean_candidate c = true ->
  candidate_line c = Ok line ->
  lines_avoiding inactive_marker line.
Proof.
  unfold clean_candidate, candidate_line. intros H.
  apply andb_true_iff in H. destruct H as [H Hpwd].
  apply andb_true_iff in H. destruct H as [H Huser].
  apply andb_true_iff in H. destruct H as [Hf Hip].
  destruct (cand_component c); cbn [bind]; try discriminate;
    destruct (cand_protocol c); cbn [bind];
    destruct (cand_type c); cbn [bind]; try discriminate;
    intros E; apply Ok_inj in E; subst line;
    apply candidate_text_avoids_marker;
    trivial; try apply nocr_fmt_int; reflexivity.
Qed.

Lemma candidates_loop_avoids_marker (cs : list PurpleMediaCandidate) :
  forallb clean_candidate cs = true ->
  forall port lines port',
    candidates_loop cs port = Ok (lines, port') ->
    lines_avoiding inactive_marker lines.
Proof.
  induction cs as [|c next IH]; cbn [forallb candidates_loop];
    intros H port lines port' E.
  - apply Ok_inj in E. apply (f_equal fst) in E. cbn [fst] in E.
    subst lines. constructor.
  - apply andb_true_iff in H. destruct H as [Hc Hnext].
    destruct (candidate_line c) as [line| |] eqn:El; try discriminate.
    cbn [bind] in E.
    destruct (candidates_loop next _) as [[ls p]| |] eqn:En;
      try discriminate.
    cbn [bind] in E. apply Ok_inj in E.
    apply (f_equal fst) in E. cbn [fst] in E. subst lines.
    apply lines_avoiding_app.
    + now apply (candidate_line_avoids_marker c).
    + now apply (IH Hnext _ _ _ En).
Qed.

Lemma candidates_format_avoids_marker (cs : list PurpleMediaCandidate)
    (call : sipe_media_call) (flag : bool) (text : string) :
  forallb clean_candidate cs = true ->
  forallb clean_candidate (remote_candidates call) = true ->
  sipe_media_sdp_candidates_format cs call flag = Ok text ->
  lines_avoiding inactive_marker text.
Proof.
  intros Hcs Hremote. unfold sipe_media_sdp_candidates_format.
  destruct cs as [|first rest] eqn:Ecs; [discriminate|].
  destruct (legacy_mode call);
    [intros E; apply Ok_inj in E; subst text; constructor|].
  rewrite <- Ecs in *.
  destruct (candidates_loop cs 0) as [[lines port]| |] eqn:El;
    try discriminate.
  cbn [bind].
  assert (Hr : forall r,
             (if flag then remote_candidates_line call else Ok "") = Ok r ->
             lines_avoiding inactive_marker r).
  { intros r.
    destruct flag; [|intros E; apply Ok_inj in E; subst r; constructor].
    unfold remote_candidates_line.
    destruct (remote_candidates call) as [|c1 [|c2 more]];
      try discriminate.
    cbn [forallb] in Hremote.
    apply andb_true_iff in Hremote. destruct Hremote as [H1 Hremote].
    apply andb_true_iff in Hremote. destruct Hremote as [H2 _].
    unfold clean_candidate in H1, H2.
    apply andb_true_iff in H1. destruct H1 as [H1 _].
    apply andb_true_iff in H1. destruct H1 as [H1 _].
    apply andb_true_iff in H1. destruct H1 as [_ Hip1].
    apply andb_true_iff in H2. destruct H2 as [H2 _].
    apply andb_true_iff in H2. destruct H2 as [H2 _].
    apply andb_true_iff in H2. destruct H2 as [_ Hip2].
    intros E. apply Ok_inj in E. subst r.
    line_of ["a=remote-candidates:1 "; fmt_str (cand_ip c1); " ";
             fmt_int (to_guint16 (cand_port c1)); " 2 ";
             fmt_str (cand_ip c2); " ";
             fmt_int (to_guint16 (cand_port c2))].
    constructor. }
  destruct (if flag then _ else _) as [r| |]; try discriminate.
  specialize (Hr r eq_refl). cbn [bind].
  intros E. apply Ok_inj in E. subst text.
  assert (Hfirst : clean_candidate first = true).
  { rewrite Ecs in Hcs. cbn [forallb] in Hcs.
    now apply andb_true_iff in Hcs. }
  unfold clean_candidate in Hfirst.
  apply andb_true_iff in Hfirst. destruct Hfirst as [Hfirst Hpwd].
  apply andb_true_iff in Hfirst. destruct Hfirst as [_ Huser].
  rewrite !app_string_assoc.
  line_of ["a=ice-ufrag:"; fmt_str (cand_username first)].
  line_of ["a=ice-pwd:"; fmt_str (cand_password first)].
  apply lines_avoiding_app; [now apply (candidates_loop_avoids_marker cs
                                          Hcs _ _ _ El)|].
  apply lines_avoiding_app; [exact Hr|].
  unfold rtcp_lines. destruct (port =? 0); [constructor|].
  line_of ["a=maxptime:200"].
  line_of ["a=rtcp:"; fmt_int port].
  constructor.
Qed.


Lemma nocr_codec_ids (codecs : list PurpleMediaCodec) :
  nocr (sipe_media_sdp_codec_ids_format codecs) = true.
Proof.
  induction codecs as [|c next IH]; cbn [sipe_media_sdp_codec_ids_format];
    [reflexivity|].
  now rewrite !nocr_app, nocr_fmt_int, IH.
Qed.

(** With clean engine data, the SDP of a call that is not held is a
    sequence of lines none of which is the inactive marker. *)
Lemma create_sdp_avoids_marker (env : engine) (call : sipe_media_call)
    (flag : bool) (body : string) :
  clean env call = true ->
  state call <> SIPE_CALL_HELD ->
  sipe_media_create_sdp env call flag = Ok body ->
  lines_avoiding inactive_marker body.
Proof.
  unfold clean, sipe_media_create_sdp. intros H Hstate.
  apply andb_true_iff in H. destruct H as [H Hremote].
  apply andb_true_iff in H. destruct H as [H Hlocal].
  apply andb_true_iff in H. destruct H as [Hip Hcodecs].
  destruct (purple_media_get_local_candidates env) as [|first rest] eqn:El;
    [discriminate|].
  rewrite <- El in *.
  destruct (sipe_media_sdp_candidates_format _ call flag) as [cands| |] eqn:Ec;
    try discriminate.
  cbn [bind]. intros E. apply Ok_inj in E. subst body.
  pose proof (nocr_codec_ids (purple_media_get_codecs env)) as Hids.
  line_of ["v=0"].
  line_of ["o=- 0 0 IN IP4 "; sipe_utils_get_suitable_local_ip env].
  line_of ["s=session"].
  line_of ["c=IN IP4 "; sipe_utils_get_suitable_local_ip env].
  line_of ["b=CT:99980"].
  line_of ["t=0 0"].
  line_of ["m=audio "; fmt_int (to_guint16 (cand_port first)); " RTP/AVP";
           sipe_media_sdp_codec_ids_format (purple_media_get_codecs env)].
  apply lines_avoiding_app;
    [now apply (candidates_format_avoids_marker
                  (purple_media_get_local_candidates env) call flag)|].
  apply lines_avoiding_app.
  { unfold inactive_line.
    destruct (state call) eqn:Es;
      [constructor | constructor | congruence | constructor]. }
  apply lines_avoiding_app; [now apply codecs_avoid_marker|].
  line_of ["a=encryption:rejected"]. constructor.
Qed.

(** *** Finding a line *)

Lemma prefix_CRLF (c1 c2 : ascii) (s : string) :
  String.prefix CRLF (String c1 (String c2 s))
  = Ascii.eqb c1 CR && Ascii.eqb c2 LF.
Proof.
  unfold CRLF. cbn [String.prefix].
  destruct (ascii_dec CR c1) as [<-|H1].
  - destruct (ascii_dec LF c2) as [<-|H2].
    + now destruct s.
    + symmetry. rewrite andb_true_l. apply Ascii.eqb_neq. congruence.
  - symmetry. apply andb_false_iff. left. apply Ascii.eqb_neq. congruence.
Qed.

Lemma split_from_step (c : ascii) (s : string) (n : nat) :
  split_from CRLF 0 (S n) (String c s)
  = if String.prefix CRLF (String c s)
    then "" :: split_from CRLF 1 n s
    else cons_head c (split_from CRLF 0 (S n) s).
Proof. reflexivity. Qed.

Lemma split_from_skip (c : ascii) (s : string) (n : nat) :
  split_from CRLF 1 n (String c s) = split_from CRLF 0 n s.
Proof. reflexivity. Qed.

Lemma split_from_finds_line (l post : string) :
  nocr l = true ->
  forall pre skip n,
    skip = 0%nat \/ (skip = 1%nat /\ exists p, pre = String LF p) ->
    (String.length (pre ++ CRLF ++ l ++ CRLF ++ post) <= n)%nat ->
    exists t ls1 ls2,
      split_from CRLF skip n (pre ++ CRLF ++ l ++ CRLF ++ post)
      = t :: (ls1 ++ l :: ls2)%list.
Proof.
  intros Hl. induction pre as [|c pre IH]; intros skip n Hskip Hn.
  - destruct Hskip as [->|[_ [p Hp]]]; [|discriminate].
    rewrite !length_app_string in Hn.
    change (String.length CRLF) with 2%nat in Hn.
    cbn [append String.length] in *.
    destruct n as [|[|n]]; [lia | lia |].
    exists "", [], (split_from CRLF 0 n post).
    change (CRLF ++ l ++ CRLF ++ post)
      with (String CR (String LF (l ++ CRLF ++ post))).
    rewrite split_from_step, prefix_CRLF, split_from_skip.
    cbn [Ascii.eqb Bool.eqb CR LF ascii_of_nat andb].
    rewrite !Ascii.eqb_refl. cbn [andb app].
    now rewrite split_from_line.
  - cbn [append String.length] in Hn. cbn [append].
    destruct Hskip as [->|[-> [p Hp]]].
    + destruct n as [|n]; [lia|].
      rewrite split_from_step.
      destruct (String.prefix CRLF _) eqn:P.
      * destruct pre as [|c2 pre'].
        { change (String c ("" ++ CRLF ++ l ++ CRLF ++ post))
            with (String c (String CR (String LF (l ++ CRLF ++ post)))) in P.
          rewrite prefix_CRLF in P.
          apply andb_true_iff in P. destruct P as [_ P].
          discriminate P. }
        cbn [append] in P. rewrite prefix_CRLF in P.
        apply andb_true_iff in P. destruct P as [_ P].
        apply Ascii.eqb_eq in P. subst c2.
        destruct (IH 1%nat n) as (t & ls1 & ls2 & E).
        { right. split; [reflexivity | now exists pre']. }
        { lia. }
        exists "", (t :: ls1), ls2. rewrite E. reflexivity.
      * destruct (IH 0%nat (S n)) as (t & ls1 & ls2 & E);
          [now left | lia |].
        exists (String c t), ls1, ls2. rewrite E. reflexivity.
    + rewrite split_from_skip.
      destruct (IH 0%nat n) as (t & ls1 & ls2 & E); [now left | lia |].
      exists t, ls1, ls2. exact E.
Qed.

Lemma has_line_found (pre l post : string) :
  nocr l = true ->
  has_line l (pre ++ CRLF ++ l ++ CRLF ++ post) = true.
Proof.
  intros Hl. unfold has_line, sdp_lines, g_strsplit.
  destruct (split_from_finds_line l post Hl pre 0%nat
              (String.length (pre ++ CRLF ++ l ++ CRLF ++ post)))
    as (t & ls1 & ls2 & E); [now left | lia |].
  destruct (pre ++ CRLF ++ l ++ CRLF ++ post) eqn:Eb.
  - destruct pre; discriminate.
  - change (0 <? 1) with true. cbv iota. rewrite E.
    cbn [existsb]. rewrite existsb_app. cbn [existsb].
    rewrite String.eqb_refl, !orb_true_r. reflexivity.
Qed.

(** *** The candidate section is empty or ends a line *)

Lemma closed_app (a b : string) :
  closed_by_crlf a -> closed_by_crlf b -> closed_by_crlf (a ++ b).
Proof.
  intros Ha [->|[p ->]].
  - now rewrite app_string_nil_r.
  - right. exists (a ++ p). now rewrite app_string_assoc.
Qed.

Lemma closed_pieces (pieces : list string) :
  closed_by_crlf (fold_right append CRLF pieces).
Proof. right. eexists. apply fold_right_append_tail. Qed.

Lemma candidates_loop_closed (cs : list PurpleMediaCandidate) :
  forall port lines port',
    candidates_loop cs port = Ok (lines, port') -> closed_by_crlf lines.
Proof.
  induction cs as [|c next IH]; cbn [candidates_loop];
    intros port lines port' E.
  - apply Ok_inj in E. apply (f_equal fst) in E. cbn [fst] in E.
    subst lines. now left.
  - destruct (candidate_line c) as [line| |] eqn:El; try discriminate.
    cbn [bind] in E.
    destruct (candidates_loop next _) as [[ls p]| |] eqn:En;
      try discriminate.
    cbn [bind] in E. apply Ok_inj in E.
    apply (f_equal fst) in E. cbn [fst] in E. subst lines.
    apply closed_app; [|now apply (IH _ _ _ En)].
    unfold candidate_line in El.
    destruct (cand_component c); cbn [bind] in El; try discriminate;
      destruct (cand_protocol c); cbn [bind] in El;
      destruct (cand_type c); cbn [bind] in El; try discriminate;
      apply Ok_inj in El; subst line;
      match goal with
      | |- closed_by_crlf (?a ++ ?b ++ ?c ++ ?d ++ ?e ++ ?f ++ ?g ++ ?h
                             ++ ?i ++ ?j ++ ?k ++ ?l ++ ?m ++ ?n ++ ?o
                             ++ CRLF) =>
        apply (closed_pieces [a; b; c; d; e; f; g; h; i; j; k; l; m; n; o])
      end.
Qed.

Lemma candidates_format_closed (cs : list PurpleMediaCandidate)
    (call : sipe_media_call) (flag : bool) (text : string) :
  sipe_media_sdp_candidates_format cs call flag = Ok text ->
  closed_by_crlf text.
Proof.
  unfold sipe_media_sdp_candidates_format.
  destruct cs as [|first rest] eqn:Ecs; [discriminate|].
  destruct (legacy_mode call);
    [intros E; apply Ok_inj in E; subst text; now left|].
  rewrite <- Ecs.
  destruct (candidates_loop cs 0) as [[lines port]| |] eqn:El;
    try discriminate.
  cbn [bind].
  assert (Hr : forall r,
             (if flag then remote_candidates_line call else Ok "") = Ok r ->
             closed_by_crlf r).
  { intros r.
    destruct flag; [|intros E; apply Ok_inj in E; subst r; now left].
    unfold remote_candidates_line.
    destruct (remote_candidates call) as [|c1 [|c2 more]];
      try discriminate.
    intros E. apply Ok_inj in E. subst r.
    match goal with
    | |- closed_by_crlf (?a ++ ?b ++ ?c ++ ?d ++ ?e ++ ?f ++ ?g ++ ?h
                           ++ CRLF) =>
      apply (closed_pieces [a; b; c; d; e; f; g; h])
    end. }
  destruct (if flag then _ else _) as [r| |]; try discriminate.
  specialize (Hr r eq_refl). cbn [bind].
  intros E. apply Ok_inj in E. subst text.
  apply closed_app.
  { match goal with
    | |- closed_by_crlf (?a ++ ?b ++ ?c ++ ?d ++ ?e ++ CRLF) =>
      apply (closed_pieces [a; b; c; d; e])
    end. }
  apply closed_app; [now apply (candidates_loop_closed cs _ _ _ El)|].
  apply closed_app; [exact Hr|].
  unfold rtcp_lines. destruct (port =? 0); [now left|].
  match goal with
  | |- closed_by_crlf (?a ++ ?b ++ ?c ++ ?d ++ CRLF) =>
    apply (closed_pieces [a; b; c; d])
  end.
Qed.

(** The SDP of a held call has the inactive marker as one of its lines,
    whatever the engine's strings are. *)
Lemma create_sdp_has_marker (env : engine) (call : sipe_media_call)
    (flag : bool) (body : string) :
  state call = SIPE_CALL_HELD ->
  sipe_media_create_sdp env call flag = Ok body ->
  has_line inactive_marker body = true.
Proof.
  unfold sipe_media_create_sdp, inactive_line. intros Hstate.
  destruct (purple_media_get_local_candidates env) as [|first rest] eqn:El;
    [discriminate|].
  rewrite <- El.
  destruct (sipe_media_sdp_candidates_format _ call flag) as [cands| |] eqn:Ec;
    try discriminate.
  cbn [bind]. rewrite Hstate. intros E. apply Ok_inj in E.
  set (post := sipe_media_sdp_codecs_format (purple_media_get_codecs env)
               ++ "a=encryption:rejected" ++ CRLF) in *.
  assert (Eb : body = (sdp_head env first ++ CRLF ++ cands)
                      ++ inactive_marker ++ CRLF ++ post).
  { subst body. unfold sdp_head, inactive_marker.
    rewrite !app_string_assoc. reflexivity. }
  rewrite Eb.
  destruct (candidates_format_closed _ _ _ _ Ec) as [->|[p ->]].
  - replace ((sdp_head env first ++ CRLF ++ "")
             ++ inactive_marker ++ CRLF ++ post)
      with (sdp_head env first ++ CRLF ++ inactive_marker ++ CRLF ++ post)
      by (now rewrite !app_string_assoc).
    now apply has_line_found.
  - replace ((sdp_head env first ++ CRLF ++ p ++ CRLF)
             ++ inactive_marker ++ CRLF ++ post)
      with ((sdp_head env first ++ CRLF ++ p)
            ++ CRLF ++ inactive_marker ++ CRLF ++ post)
      by (now rewrite !app_string_assoc).
    now apply has_line_found.
Qed.

(** *** The formatter is defined on formattable candidates *)

Lemma candidates_loop_total (cs : list PurpleMediaCandidate) :
  forallb formattable cs = true ->
  forall port, exists lines port',
    candidates_loop cs port = Ok (lines, port').
Proof.
  induction cs as [|c next IH]; cbn [forallb candidates_loop];
    intros H port; [now do 2 eexists|].
  apply andb_true_iff in H. destruct H as [Hc Hnext].
  unfold formattable in Hc. unfold candidate_line.
  destruct (cand_component c); cbn [andb] in Hc; try discriminate;
    destruct (cand_protocol c); destruct (cand_type c); try discriminate;
    cbn [bind];
    match goal with
    | |- context [candidates_loop next ?q] =>
      destruct (IH Hnext q) as (ls & p' & ->)
    end; cbn [bind]; now do 2 eexists.
Qed.

Lemma create_sdp_total (env : engine) (call : sipe_media_call)
    (flag : bool) :
  sdp_defined env call = true ->
  exists body, sipe_media_create_sdp env call flag = Ok body.
Proof.
  unfold sdp_defined, sipe_media_create_sdp,
    sipe_media_sdp_candidates_format.
  destruct (purple_media_get_local_candidates env) as [|first rest] eqn:El;
    [discriminate|].
  destruct (legacy_mode call); cbn [orb]; intros H; [now eexists|].
  apply andb_true_iff in H. destruct H as [Hf Hr].
  destruct (candidates_loop_total _ Hf 0) as (ls & p & ->). cbn [bind].
  unfold remote_candidates_line.
  destruct (remote_candidates call) as [|c1 [|c2 more]];
    try discriminate.
  destruct flag; cbn [bind]; now eexists.
Qed.

(** ** Hold and unhold *)

(** The hold and unhold round trip, where the formatter's reads are
    defined: a local hold of a running call leaves it held and sends an INVITE
    whose SDP has the line [a=inactive]; a re-INVITE for the held call
    whose attributes have no [inactive] marker then leaves it running and
    is answered 200 OK with an SDP that, the engine's strings being free
    of carriage returns, has no line [a=inactive]; a hold of the held call
    and an unhold of the running call change nothing and send nothing.
    The engine is assumed to have what the formatter reads: a local
    candidate and, outside legacy mode, formattable local candidates and
    two remote candidates. *)
Theorem hold_then_remote_unhold :
  forall n env env' call msg reparsed,
    state call = SIPE_CALL_RUNNING ->
    sdp_defined env call = true ->
    sipe_strequal (call_callid call) (msg_callid msg) = true ->
    ReinviteSpec.reparse (with_state SIPE_CALL_HELD call) msg = Ok reparsed ->
    sipe_utils_nameval_find (sdp_attrs reparsed) "inactive" = None ->
    sdp_defined env' call = true ->
    let held := with_state SIPE_CALL_HELD call in
    let resumed := with_state SIPE_CALL_RUNNING reparsed in
    exists hdr body body',
      sipe_media_stream_info_cb (S n) env PURPLE_MEDIA_INFO_HOLD true
        (Some call)
      = Ok (Some held,
            [send_sip_request "INVITE" (call_with call) (Some hdr)
               (Some body);
             stream_info PURPLE_MEDIA_INFO_HOLD true]) /\
      state held = SIPE_CALL_HELD /\
      has_line "a=inactive" body = true /\
      sipe_media_incoming_invite (S (S n)) env' (Some held) msg
      = Ok (Some resumed,
            [stream_info PURPLE_MEDIA_INFO_UNHOLD false;
             send_sip_response (Some msg) 200 "OK" (Some body');
             stream_info PURPLE_MEDIA_INFO_UNHOLD true]) /\
      state resumed = SIPE_CALL_RUNNING /\
      (clean env' call = true -> has_line "a=inactive" body' = false) /\
      (forall local,
         sipe_media_stream_info_cb (S n) env PURPLE_MEDIA_INFO_HOLD local
           (Some held) = Ok (Some held, [])) /\
      (forall local,
         sipe_media_stream_info_cb (S n) env PURPLE_MEDIA_INFO_UNHOLD local
           (Some call) = Ok (Some call, [])).
Proof.
  intros n env env' call msg reparsed Hrun Hdef Hid Hparse Hnone Hdef'
    held resumed.
  destruct (create_sdp_total env held true) as [body Hbody];
    [exact Hdef|].
  destruct (reparse_shape _ _ _ Hparse) as (attrs & ip & port & Hshape).
  destruct (create_sdp_total env' resumed true) as [body' Hbody'].
  { subst resumed reparsed. exact Hdef'. }
  eexists. exists body, body'.
  split; [|split; [reflexivity|split; [|split; [|split; [reflexivity|]]]]].
  - unfold sipe_media_stream_info_cb.
    cbn [stream_info_cb_body purple_media_stream_info bind].
    rewrite Hrun. cbn [SipeCallState_eqb].
    unfold notify_state_change, sipe_invite_call.
    fold held. rewrite Hbody. cbn [bind].
    cbn [state held with_state SipeCallState_eqb app]. reflexivity.
  - now apply (create_sdp_has_marker env held true).
  - rewrite incoming_reinvite_flat by exact Hid.
    unfold ReinviteSpec.handle_reinvite, held. rewrite Hparse.
    cbn [bind].
    unfold ReinviteSpec.choose, ReinviteSpec.has_inactive_marker.
    rewrite Hnone.
    assert (Hst : state reparsed = SIPE_CALL_HELD)
      by (subst reparsed; reflexivity).
    rewrite Hst. cbn [SipeCallState_eqb].
    rewrite andb_false_r.
    unfold ReinviteSpec.remote_unhold, ReinviteSpec.remote_request.
    rewrite Hst. cbn [SipeCallState_eqb].
    fold resumed. rewrite Hbody'. cbn [bind].
    subst resumed reparsed. reflexivity.
  - split; [|split].
    + intros Hclean.
      apply has_line_avoiding; [discriminate|].
      apply (create_sdp_avoids_marker env' resumed true);
        [| subst resumed; discriminate | exact Hbody'].
      subst resumed reparsed. exact Hclean.
    + intros local. reflexivity.
    + intros local. unfold sipe_media_stream_info_cb.
      cbn [stream_info_cb_body bind]. now rewrite Hrun.
Qed.

Lemma hold_then_remote_unhold_witness :
  state running_call = SIPE_CALL_RUNNING /\
  sdp_defined example_engine running_call = true /\
  sipe_strequal (call_callid running_call)
    (msg_callid (invite "call-1" ice_offer)) = true /\
  ReinviteSpec.reparse (with_state SIPE_CALL_HELD running_call)
    (invite "call-1" ice_offer) = Ok reoffered_call /\
  sipe_utils_nameval_find (sdp_attrs reoffered_call) "inactive" = None /\
  let held := with_state SIPE_CALL_HELD running_call in
  let resumed := with_state SIPE_CALL_RUNNING reoffered_call in
  exists hdr body body',
    sipe_media_stream_info_cb 1 example_engine PURPLE_MEDIA_INFO_HOLD true
      (Some running_call)
    = Ok (Some held,
          [send_sip_request "INVITE" (call_with running_call) (Some hdr)
             (Some body);
           stream_info PURPLE_MEDIA_INFO_HOLD true]) /\
    state held = SIPE_CALL_HELD /\
    has_line "a=inactive" body = true /\
    sipe_media_incoming_invite 2 example_engine (Some held)
      (invite "call-1" ice_offer)
    = Ok (Some resumed,
          [stream_info PURPLE_MEDIA_INFO_UNHOLD false;
           send_sip_response (Some (invite "call-1" ice_offer)) 200 "OK"
             (Some body');
           stream_info PURPLE_MEDIA_INFO_UNHOLD true]) /\
    state resumed = SIPE_CALL_RUNNING /\
    (clean example_engine running_call = true ->
     has_line "a=inactive" body' = false) /\
    (forall local,
       sipe_media_stream_info_cb 1 example_engine PURPLE_MEDIA_INFO_HOLD
         local (Some held) = Ok (Some held, [])) /\
    (forall local,
       sipe_media_stream_info_cb 1 example_engine PURPLE_MEDIA_INFO_UNHOLD
         local (Some running_call) = Ok (Some running_call, [])).
Proof.
  split; [reflexivity|].
  split; [reflexivity|].
  split; [reflexivity|].
  split; [vm_compute; reflexivity|].
  split; [reflexivity|].
  apply (hold_then_remote_unhold 0 example_engine example_engine
           running_call (invite "call-1" ice_offer) reoffered_call);
    vm_compute; reflexivity.
Defined.

(** C9, on the code: the call that an offer with a single accepted
    candidate sets up is running once the stream is accepted, and is not
    in legacy mode.  A local hold of it does not leave it held and sends
    no INVITE: the formatter reads the second remote candidate, which is
    not there.  Were the call held, the re-INVITE without an [inactive]
    attribute would not be answered either, for the same reason.  Only the
    two requests that change nothing do what the claim says. *)
Theorem local_hold_of_single_candidate_call_is_undefined :
  exists call out1 call' out2,
    handle example_engine
      (EvInvite (invite "call-1" single_candidate_offer)) None
      = Ok (Some call, out1) /\
    handle example_engine (EvStreamInfo PURPLE_MEDIA_INFO_ACCEPT true)
      (Some call) = Ok (Some call', out2) /\
    state call' = SIPE_CALL_RUNNING /\
    legacy_mode call' = false /\
    sipe_media_stream_info_cb signal_depth example_engine
      PURPLE_MEDIA_INFO_HOLD true (Some call') = Undefined /\
    has_line "a=inactive" single_candidate_offer = false /\
    sipe_media_incoming_invite signal_depth example_engine
      (Some (with_state SIPE_CALL_HELD call'))
      (invite "call-1" single_candidate_offer) = Undefined /\
    sipe_media_stream_info_cb signal_depth example_engine
      PURPLE_MEDIA_INFO_HOLD true (Some (with_state SIPE_CALL_HELD call'))
      = Ok (Some (with_state SIPE_CALL_HELD call'), []) /\
    sipe_media_stream_info_cb signal_depth example_engine
      PURPLE_MEDIA_INFO_UNHOLD true (Some call') = Ok (Some call', []).
Proof.
  do 4 eexists.
  split; [vm_compute; reflexivity|].
  split; [vm_compute; reflexivity|].
  repeat split; vm_compute; reflexivity.
Qed.

(** ** What a re-INVITE renegotiates *)





(** * Further properties of the code *)

(** ** Candidate resolver *)

Lemma parse_candidate_accepts (attr : string) (c : PurpleMediaCandidate) :
  parse_candidate attr = Ok (Some c) ->
  udp_of_known_type c /\ cand_username c = None /\ cand_password c = None.
Proof.
  unfold parse_candidate, udp_of_known_type.
  repeat match goal with
  | |- context [strv_get ?v ?i] =>
    destruct (strv_get v i) as [?| |]; cbn [bind]; try discriminate
  | |- context [atoi ?p] =>
    destruct (atoi p) as [?| |]; cbn [bind]; try discriminate
  | |- context [if ?b then _ else _] => destruct b; try discriminate
  end; intros E; apply Ok_inj in E; injection E as <-; cbn; auto.
Qed.

Lemma parse_candidates_loop_forall (P : PurpleMediaCandidate -> Prop)
    (attrs : list string) :
  (forall a c, parse_candidate a = Ok (Some c) -> P c) ->
  forall acc l,
    Forall P acc -> parse_candidates_loop attrs acc = Ok l -> Forall P l.
Proof.
  intros HP. induction attrs as [|a rest IH]; intros acc l Hacc E;
    cbn [parse_candidates_loop] in E.
  - apply Ok_inj in E. now subst.
  - destruct (parse_candidate a) as [[c|]| |] eqn:Ea; cbn [bind] in E;
      try discriminate.
    + apply (IH (acc ++ [c])%list); [|exact E].
      apply Forall_app. split; [exact Hacc|].
      constructor; [now apply (HP a) | constructor].
    + now apply (IH acc).
Qed.

(** What the resolver returns, spelled out. *)
Lemma resolver_cases (call : sipe_media_call)
    (cands : list PurpleMediaCandidate) (call' : sipe_media_call) :
  sipe_media_parse_remote_candidates call = Ok (cands, call') ->
  exists accepted,
    accepted_candidates (sdp_attrs call) = Ok accepted /\
    let raw := match accepted with
               | [] => [legacy_rtp call; legacy_rtcp call]
               | _ => accepted
               end in
    call' = match accepted with
            | [] => with_legacy_mode true call
            | _ => call
            end /\
    cands = match sipe_utils_nameval_find (sdp_attrs call) "ice-ufrag" with
            | Some u =>
              map (set_credentials (Some u)
                     (sipe_utils_nameval_find (sdp_attrs call) "ice-pwd"))
                  raw
            | None => raw
            end.
Proof.
  unfold sipe_media_parse_remote_candidates.
  destruct (accepted_candidates (sdp_attrs call)) as [acc| |];
    cbn [bind]; try discriminate.
  intros E. exists acc. split; [reflexivity|].
  destruct acc as [|a acc'];
    destruct (sipe_utils_nameval_find (sdp_attrs call) "ice-ufrag");
    apply Ok_inj in E; injection E as <- <-; split; reflexivity.
Qed.

(** X1: whatever the resolver returns is a UDP candidate of type host,
    relay or server-reflexive: TCP lines and lines of another type never
    get through. *)
Theorem resolver_returns_udp_of_known_type :
  forall call cands call',
    sipe_media_parse_remote_candidates call = Ok (cands, call') ->
    Forall udp_of_known_type cands.
Proof.
  intros call cands call' E.
  destruct (resolver_cases _ _ _ E) as (acc & Hacc & _ & ->).
  assert (Hraw : Forall udp_of_known_type
                   match acc with
                   | [] => [legacy_rtp call; legacy_rtcp call]
                   | _ => acc
                   end).
  { destruct acc as [|a acc'].
    - repeat constructor.
    - apply (parse_candidates_loop_forall udp_of_known_type
               (instances (sdp_attrs call) "candidate")
               (fun a c H => proj1 (parse_candidate_accepts a c H))
               [] _ (Forall_nil _) Hacc). }
  destruct (sipe_utils_nameval_find (sdp_attrs call) "ice-ufrag");
    [|exact Hraw].
  apply Forall_map. revert Hraw. apply Forall_impl.
  intros c H. exact H.
Qed.

Lemma resolver_returns_udp_of_known_type_witness :
  exists cands call',
    sipe_media_parse_remote_candidates mixed_call = Ok (cands, call') /\
    List.length cands = 1%nat /\
    Forall udp_of_known_type cands.
Proof.
  do 2 eexists. split; [vm_compute; reflexivity|].
  split; [reflexivity|].
  eapply (resolver_returns_udp_of_known_type mixed_call).
  vm_compute. reflexivity.
Defined.

(** X2: the resolver never returns an empty list.  When no line is accepted
    it returns two candidates and sets legacy mode; when some are, it
    returns as many as were accepted and leaves the call, legacy flag
    included, as it was. *)
Theorem resolver_never_returns_nothing :
  forall call cands call',
    sipe_media_parse_remote_candidates call = Ok (cands, call') ->
    cands <> [] /\
    exists accepted,
      accepted_candidates (sdp_attrs call) = Ok accepted /\
      ((accepted = [] /\ List.length cands = 2%nat /\
        call' = with_legacy_mode true call) \/
       (accepted <> [] /\ List.length cands = List.length accepted /\
        call' = call)).
Proof.
  intros call cands call' E.
  destruct (resolver_cases _ _ _ E) as (acc & Hacc & -> & ->).
  destruct acc as [|a acc'];
    destruct (sipe_utils_nameval_find (sdp_attrs call) "ice-ufrag");
    (split; [discriminate|]);
    eexists; (split; [exact Hacc|]);
    cbn [map List.length]; rewrite ?length_map;
    solve [ left; split; [reflexivity | split; reflexivity]
          | right; split; [discriminate | split; reflexivity] ].
Qed.

Lemma resolver_never_returns_nothing_witness :
  exists cands call',
    sipe_media_parse_remote_candidates mixed_call = Ok (cands, call') /\
    cands <> [] /\ call' = mixed_call.
Proof.
  do 2 eexists. split; [vm_compute; reflexivity|].
  destruct (resolver_never_returns_nothing mixed_call _ _ eq_refl)
    as [Hne _].
  split; [exact Hne | reflexivity].
Defined.

(** X3: the ICE credentials are attached uniformly: every candidate the
    resolver returns has the value of [ice-ufrag] as its user name, and the
    value of [ice-pwd] as its password when [ice-ufrag] is there; a
    password without a user name is not attached. *)
Theorem resolver_attaches_credentials_uniformly :
  forall call cands call',
    sipe_media_parse_remote_candidates call = Ok (cands, call') ->
    Forall
      (fun c =>
         cand_username c
           = sipe_utils_nameval_find (sdp_attrs call) "ice-ufrag" /\
         cand_password c
           = match sipe_utils_nameval_find (sdp_attrs call) "ice-ufrag" with
             | Some _ => sipe_utils_nameval_find (sdp_attrs call) "ice-pwd"
             | None => None
             end)
      cands.
Proof.
  intros call cands call' E.
  destruct (resolver_cases _ _ _ E) as (acc & Hacc & _ & ->).
  destruct (sipe_utils_nameval_find (sdp_attrs call) "ice-ufrag").
  - apply Forall_map. apply Forall_forall. intros c _. split; reflexivity.
  - destruct acc as [|a acc']; [repeat constructor|].
    apply (parse_candidates_loop_forall
             (fun c => cand_username c = None /\ cand_password c = None)
             (instances (sdp_attrs call) "candidate")
             (fun a c H => proj2 (parse_candidate_accepts a c H))
             [] _ (Forall_nil _) Hacc).
Qed.

Lemma resolver_attaches_credentials_uniformly_witness :
  exists cands call',
    sipe_media_parse_remote_candidates mixed_call = Ok (cands, call') /\
    Forall (fun c => cand_username c = Some "rufrag" /\
                     cand_password c = Some "rpwd") cands.
Proof.
  do 2 eexists. split; [vm_compute; reflexivity|].
  apply (resolver_attaches_credentials_uniformly mixed_call _ mixed_call).
  vm_compute. reflexivity.
Defined.

(** ** Remote codecs *)

Lemma parse_codecs_loop_app (attrs : list string)
    (acc : list PurpleMediaCodec) :
  parse_codecs_loop attrs acc
  = (l <- parse_codecs_loop attrs [] ;; Ok (acc ++ l)%list).
Proof.
  revert acc. induction attrs as [|a rest IH]; intros acc;
    cbn [parse_codecs_loop bind].
  - now rewrite app_nil_r.
  - destruct (parse_rtpmap a) as [c| |]; cbn [bind]; trivial.
    rewrite (IH (acc ++ [c])%list), (IH ([] ++ [c])%list).
    destruct (parse_codecs_loop rest []); cbn [bind]; trivial.
    now rewrite <- app_assoc.
Qed.

Lemma parse_codecs_loop_each (attrs : list string)
    (codecs : list PurpleMediaCodec) :
  parse_codecs_loop attrs [] = Ok codecs ->
  Forall2 (fun attr c => parse_rtpmap attr = Ok c) attrs codecs.
Proof.
  revert codecs. induction attrs as [|a rest IH]; intros codecs E;
    cbn [parse_codecs_loop] in E.
  - apply Ok_inj in E. subst. constructor.
  - destruct (parse_rtpmap a) as [c| |] eqn:Ea; cbn [bind] in E;
      try discriminate.
    rewrite parse_codecs_loop_app in E.
    destruct (parse_codecs_loop rest []) as [l| |]; cbn [bind] in E;
      try discriminate.
    apply Ok_inj in E. subst codecs.
    constructor; [exact Ea | now apply IH].
Qed.

(** X4: the remote codecs are the [rtpmap] instances, one codec per
    instance and in their order: the codec at position [i] is the one
    parsed from instance [i], and there is none where there is no
    instance. *)
Theorem remote_codecs_follow_rtpmap_instances :
  forall call codecs,
    sipe_media_parse_remote_codecs call = Ok codecs ->
    forall i,
      match sipe_utils_nameval_find_instance (sdp_attrs call) "rtpmap" i with
      | Some attr =>
        exists c, nth_error codecs i = Some c /\ parse_rtpmap attr = Ok c
      | None => nth_error codecs i = None
      end.
Proof.
  intros call codecs E i. rewrite nameval_find_instance_nth.
  apply parse_codecs_loop_each in E.
  revert i. induction E as [|a c attrs cs Hac Hrest IH]; intros i.
  - now destruct i.
  - destruct i as [|i]; cbn [nth_error]; [now exists c | apply IH].
Qed.

Lemma remote_codecs_follow_rtpmap_instances_witness :
  exists codecs,
    sipe_media_parse_remote_codecs mixed_call = Ok codecs /\
    exists c, nth_error codecs 1 = Some c /\
              parse_rtpmap "97 SPEEX/16000" = Ok c.
Proof.
  eexists. split; [vm_compute; reflexivity|].
  apply (remote_codecs_follow_rtpmap_instances mixed_call _ eq_refl 1%nat).
Defined.

(** ** First INVITE *)

Lemma call_init_shape (msg : sipmsg) (call : sipe_media_call) :
  sipe_media_call_init msg = Ok (Some call) ->
  state call = SIPE_CALL_CONNECTING /\
  invitation call = Some msg /\
  sdp_response call = None /\
  remote_codecs call = [] /\
  remote_candidates call <> [].
Proof.
  unfold sipe_media_call_init.
  destruct (sipe_media_parse_sdp_frame call_zero (msg_body msg))
    as [[c0 ok]| |] eqn:Ep; cbn [bind]; try discriminate.
  destruct ok; cbn [negb]; [|discriminate].
  apply parse_sdp_frame_shape in Ep.
  destruct Ep as (attrs & ip & port & ->).
  destruct (sipe_media_parse_remote_candidates _) as [[cands c1]| |] eqn:Er;
    cbn [bind]; try discriminate.
  intros E. apply Ok_inj in E. injection E as <-.
  destruct (resolver_cases _ _ _ Er) as (acc & _ & Hc1 & Hcands).
  assert (Hne : cands <> []).
  { subst cands.
    destruct (sipe_utils_nameval_find _ "ice-ufrag");
      destruct acc; discriminate. }
  subst c1. destruct acc; repeat split; trivial.
Qed.

Lemma negotiate_codecs_shape (env : engine) (call call' : sipe_media_call) :
  negotiate_codecs env call = Ok call' ->
  exists codecs,
    call' = with_remote_codecs
              (filter (offered_locally (purple_media_get_codecs env)) codecs)
              call.
Proof.
  unfold negotiate_codecs.
  destruct (sipe_media_parse_remote_codecs call) as [codecs| |];
    cbn [bind]; try discriminate.
  intros E. apply Ok_inj in E. subst call'.
  exists codecs. now rewrite prune_filter.
Qed.

(** X5: a first INVITE that sets up a call leaves it connecting, holding
    the invitation and the Call-ID of the message, with no cached SDP, at
    least one remote candidate and at least one remote codec, every one of
    which has the name of a local codec; the engine gets a raw UDP stream
    for a legacy call and an ICE one otherwise, then the candidates and the
    codecs, and the peer gets 180 Ringing. *)
Theorem first_invite_installs_negotiated_call :
  forall fuel env msg call out,
    sipe_media_incoming_invite fuel env None msg = Ok (Some call, out) ->
    state call = SIPE_CALL_CONNECTING /\
    invitation call = Some msg /\
    sipe_media_get_callid call = msg_callid msg /\
    sdp_response call = None /\
    remote_candidates call <> [] /\
    remote_codecs call <> [] /\
    Forall (fun c => offered_locally (purple_media_get_codecs env) c = true)
           (remote_codecs call) /\
    out = [purple_media_add_stream
             (if legacy_mode call then "rawudp" else "nice");
           purple_media_add_remote_candidates (remote_candidates call);
           purple_media_set_remote_codecs (remote_codecs call);
           send_sip_response (Some msg) 180 "Ringing" None].
Proof.
  intros fuel env msg call out.
  unfold sipe_media_incoming_invite.
  destruct (sipe_media_call_init msg) as [[c0|]| |] eqn:Ei; cbn [bind];
    try discriminate.
  apply call_init_shape in Ei.
  destruct Ei as (Hst & Hinv & Hrsp & _ & Hcands).
  destruct (negotiate_codecs env _) as [c1| |] eqn:En; cbn [bind];
    try discriminate.
  apply negotiate_codecs_shape in En. destruct En as (codecs & ->).
  cbn [remote_candidates remote_codecs with_remote_codecs with_dialog].
  destruct (remote_candidates c0) as [|rc rcs] eqn:Erc; [congruence|].
  destruct (filter _ codecs) as [|k ks] eqn:Ef; [discriminate|].
  intros E. apply Ok_inj in E. injection E as <- <-.
  cbn. rewrite Erc.
  repeat split; trivial; try discriminate.
  rewrite <- Ef. apply Forall_forall. intros c Hc.
  now apply filter_In in Hc.
Qed.

Lemma first_invite_installs_negotiated_call_witness :
  exists call out,
    sipe_media_incoming_invite 0 example_engine None
      (invite "call-1" legacy_offer) = Ok (Some call, out) /\
    state call = SIPE_CALL_CONNECTING /\
    invitation call = Some (invite "call-1" legacy_offer) /\
    sipe_media_get_callid call = Some "call-1" /\
    sdp_response call = None /\
    remote_candidates call <> [] /\
    remote_codecs call <> [] /\
    Forall (fun c => offered_locally
                       (purple_media_get_codecs example_engine) c = true)
           (remote_codecs call) /\
    out = [purple_media_add_stream
             (if legacy_mode call then "rawudp" else "nice");
           purple_media_add_remote_candidates (remote_candidates call);
           purple_media_set_remote_codecs (remote_codecs call);
           send_sip_response (Some (invite "call-1" legacy_offer)) 180
             "Ringing" None].
Proof.
  do 2 eexists. split; [vm_compute; reflexivity|].
  eapply (first_invite_installs_negotiated_call 0 example_engine
            (invite "call-1" legacy_offer)).
  vm_compute. reflexivity.
Defined.

(** X6: a first INVITE that sets up no call, because no offered codec has
    the name of a local one, is dropped without a word to the peer: the
    engine has been given a stream and the remote candidates, and no
    response of any kind is sent. *)
Theorem first_invite_without_codec_is_dropped_silently :
  forall fuel env msg out,
    sipe_media_incoming_invite fuel env None msg = Ok (None, out) ->
    (exists call codecs,
       sipe_media_call_init msg = Ok (Some call) /\
       sipe_media_parse_remote_codecs call = Ok codecs /\
       sipe_media_prune_remote_codecs (purple_media_get_codecs env) codecs
         = [] /\
       out = [purple_media_add_stream
                (if legacy_mode call then "rawudp" else "nice");
              purple_media_add_remote_candidates (remote_candidates call)]) /\
    existsb is_sip_message out = false.
Proof.
  intros fuel env msg out.
  unfold sipe_media_incoming_invite.
  destruct (sipe_media_call_init msg) as [[c0|]| |] eqn:Ei; cbn [bind];
    try discriminate.
  pose proof (call_init_shape _ _ Ei) as (_ & _ & _ & _ & Hcands).
  unfold negotiate_codecs.
  destruct (sipe_media_parse_remote_codecs _) as [codecs| |] eqn:Ec;
    cbn [bind]; try discriminate.
  cbn [remote_candidates remote_codecs with_remote_codecs with_dialog
       legacy_mode].
  destruct (remote_candidates c0) as [|rc rcs] eqn:Erc; [congruence|].
  destruct (sipe_media_prune_remote_codecs _ codecs) as [|k ks] eqn:Ef;
    [|discriminate].
  intros E. apply Ok_inj in E. injection E as <-.
  split; [|reflexivity].
  exists c0, codecs. repeat split; trivial.
  now rewrite Erc.
Qed.

Lemma first_invite_without_codec_is_dropped_silently_witness :
  exists out,
    sipe_media_incoming_invite 0 example_engine None
      (invite "call-1" speex_offer) = Ok (None, out) /\
    out = [purple_media_add_stream "rawudp";
           purple_media_add_remote_candidates
             [legacy_rtp (with_sdp [] (Some "10.0.0.5") 5004 call_zero);
              legacy_rtcp (with_sdp [] (Some "10.0.0.5") 5004 call_zero)]] /\
    existsb is_sip_message out = false.
Proof.
  eexists. split; [vm_compute; reflexivity|].
  split; [reflexivity|].
  eapply (first_invite_without_codec_is_dropped_silently 0 example_engine
            (invite "call-1" speex_offer)).
  vm_compute. reflexivity.
Defined.

(** ** What the events of a call's life leave alone *)

Lemma evolves_refl (c : sipe_media_call) : evolves c c.
Proof. unfold evolves. auto 10. Qed.

Lemma evolves_trans (a b c : sipe_media_call) :
  evolves a b -> evolves b c -> evolves a c.
Proof.
  unfold evolves. intros (H1 & H2 & H3 & H4 & H5) (K1 & K2 & K3 & K4 & K5).
  repeat split; try congruence.
  destruct K5 as [K5|[K5|K5]]; [rewrite K5; exact H5 | auto | auto].
Qed.

Lemma evolves_state (c : sipe_media_call) (s : SipeCallState) :
  s = SIPE_CALL_RUNNING \/ s = SIPE_CALL_HELD -> evolves c (with_state s c).
Proof. unfold evolves. cbn. intros [->| ->]; auto 10. Qed.

Lemma result_evolves_trans (a b : sipe_media_call) (r : outcome result) :
  evolves a b -> result_evolves b r -> result_evolves a r.
Proof.
  destruct r as [[[c|] out]| |]; cbn; trivial. apply evolves_trans.
Qed.

Lemma session_ready_evolves (env : engine) (call : sipe_media_call) :
  match sipe_media_session_ready_cb env call with
  | Ok (call', _) => evolves call call'
  | _ => True
  end.
Proof.
  unfold sipe_media_session_ready_cb.
  destruct (purple_media_candidates_prepared env); cbn [negb];
    [|apply evolves_refl].
  assert (H : forall c, evolves call c ->
            match
              (if negb (purple_media_accepted env)
               then if negb (legacy_mode c)
                    then Ok (c, [send_sip_response (invitation c) 183
                                   "Session Progress" (sdp_response c)])
                    else Ok (c, [])
               else Ok (with_state SIPE_CALL_RUNNING c,
                        [send_sip_response (invitation c) 200 "OK"
                           (sdp_response c)]))
            with
            | Ok (call', _) => evolves call call'
            | _ => True
            end).
  { intros c Hc. destruct (negb (purple_media_accepted env)).
    - destruct (negb (legacy_mode c)); exact Hc.
    - apply (evolves_trans _ c); [exact Hc|]. apply evolves_state. auto. }
  destruct (sdp_response call); cbn [bind].
  - apply H, evolves_refl.
  - destruct (sipe_media_create_sdp env call false); cbn [bind]; trivial.
    apply H. unfold evolves. cbn. auto 10.
Qed.

Section StreamInfoEvolves.

Variable env : engine.
Variable emit : PurpleMediaInfoType -> bool -> option sipe_media_call ->
                outcome result.
Hypothesis emit_evolves : forall type local call,
  result_evolves call (emit type local (Some call)).

Lemma cb_body_evolves (type : PurpleMediaInfoType) (local : bool)
    (call : sipe_media_call) :
  result_evolves call (stream_info_cb_body emit env type local (Some call)).
Proof.
  destruct type; cbn [stream_info_cb_body bind result_evolves]; trivial;
    try apply evolves_refl.
  - pose proof (session_ready_evolves env call) as H.
    destruct (sipe_media_session_ready_cb env call) as [[c o]| |];
      cbn; trivial.
  - destruct (SipeCallState_eqb (state call) SIPE_CALL_HELD);
      [apply evolves_refl|].
    destruct (notify_state_change env _ local);
      cbn [bind result_evolves]; trivial.
    pose proof (emit_evolves PURPLE_MEDIA_INFO_HOLD true
                  (with_state SIPE_CALL_HELD call)) as H.
    destruct (emit _ _ _) as [[[c|] o]| |]; cbn in *; trivial.
    apply (evolves_trans _ (with_state SIPE_CALL_HELD call));
      [apply evolves_state; auto | exact H].
  - destruct (SipeCallState_eqb (state call) SIPE_CALL_RUNNING);
      [apply evolves_refl|].
    destruct (notify_state_change env _ local);
      cbn [bind result_evolves]; trivial.
    pose proof (emit_evolves PURPLE_MEDIA_INFO_UNHOLD true
                  (with_state SIPE_CALL_RUNNING call)) as H.
    destruct (emit _ _ _) as [[[c|] o]| |]; cbn in *; trivial.
    apply (evolves_trans _ (with_state SIPE_CALL_RUNNING call));
      [apply evolves_state; auto | exact H].
Qed.

End StreamInfoEvolves.

Lemma stream_info_evolves (fuel : nat) (env : engine)
    (type : PurpleMediaInfoType) (local : bool) (call : sipe_media_call) :
  result_evolves call
    (purple_media_stream_info fuel env type local (Some call)).
Proof.
  revert type local call.
  induction fuel as [|fuel IH]; intros type local call;
    cbn [purple_media_stream_info]; [exact I|].
  pose proof (cb_body_evolves env _ IH type local call) as H.
  destruct (stream_info_cb_body _ env type local (Some call))
    as [[[c|] o]| |]; cbn in *; trivial.
Qed.

Lemma reinvite_evolves (fuel : nat) (env : engine)
    (call : sipe_media_call) (msg : sipmsg) :
  result_evolves call (reinvite fuel env call msg).
Proof.
  unfold reinvite.
  destruct (sipe_media_parse_sdp_frame _ _) as [[c b]| |] eqn:E;
    cbn [bind]; [|exact I|exact I].
  apply parse_sdp_frame_shape in E. destruct E as (attrs & ip & port & Hc).
  assert (Hev : evolves call c).
  { subst c. unfold evolves. cbn. auto 10. }
  clear Hc.
  destruct (legacy_mode c && _).
  { apply (result_evolves_trans _ c); [exact Hev|].
    apply stream_info_evolves. }
  destruct (sipe_utils_nameval_find _ _).
  { apply (result_evolves_trans _ c); [exact Hev|].
    apply stream_info_evolves. }
  destruct (SipeCallState_eqb _ _).
  { apply (result_evolves_trans _ c); [exact Hev|].
    apply stream_info_evolves. }
  unfold negotiate_codecs.
  destruct (sipe_media_parse_remote_codecs c);
    cbn [bind result_evolves]; trivial.
  destruct (sipe_media_create_sdp _ _ _); cbn [bind result_evolves]; trivial.
Qed.

Lemma handle_evolves (env : engine) (ev : event) (call : sipe_media_call) :
  result_evolves call (handle env ev (Some call)).
Proof.
  destruct ev as [msg|type local| | | |]; cbn [handle].
  - unfold sipe_media_incoming_invite.
    destruct (sipe_strequal _ _); [apply reinvite_evolves|].
    apply evolves_refl.
  - apply cb_body_evolves. intros. apply stream_info_evolves.
  - pose proof (session_ready_evolves env call) as H.
    destruct (sipe_media_session_ready_cb env call) as [[c o]| |];
      cbn; trivial.
  - apply stream_info_evolves.
  - apply stream_info_evolves.
  - apply stream_info_evolves.
Qed.

Lemma run_evolves (evs : list (engine * event)) :
  forall call call', run evs call = Ok (Some call') -> evolves call call'.
Proof.
  induction evs as [|[env ev] rest IH]; intros call call' Hrun;
    cbn [run] in Hrun.
  - apply Ok_inj in Hrun. injection Hrun as <-. apply evolves_refl.
  - pose proof (handle_evolves env ev call) as H.
    destruct (handle env ev (Some call)) as [[[c|] o]| |];
      cbn [bind] in Hrun; try discriminate.
    apply (evolves_trans _ c); [exact H | now apply IH].
Qed.

(** X7: no event of a call's life changes its Call-ID, its peer or its
    remote candidates: these are fixed when the call is set up, whatever
    INVITEs, signals and requests follow. *)
Theorem events_keep_identity_and_candidates :
  forall evs call call',
    run evs call = Ok (Some call') ->
    sipe_media_get_callid call' = sipe_media_get_callid call /\
    call_with call' = call_with call /\
    remote_candidates call' = remote_candidates call.
Proof.
  intros evs call call' H.
  destruct (run_evolves evs call call' H) as (H1 & H2 & H3 & _).
  auto.
Qed.

Lemma events_keep_identity_and_candidates_witness :
  exists call',
    run latch_events legacy_call = Ok (Some call') /\
    sipe_media_get_callid call' = sipe_media_get_callid legacy_call /\
    call_with call' = call_with legacy_call /\
    remote_candidates call' = remote_candidates legacy_call.
Proof.
  eexists. split; [vm_compute; reflexivity|].
  eapply (events_keep_identity_and_candidates latch_events legacy_call).
  vm_compute. reflexivity.
Defined.

(** X8: a call that stays is in the state it was in, or running, or held:
    no event takes a call back to connecting, and the finished state is
    never seen on a call that still exists. *)
Theorem events_move_state_to_running_or_held :
  forall evs call call',
    run evs call = Ok (Some call') ->
    state call' = state call \/
    state call' = SIPE_CALL_RUNNING \/
    state call' = SIPE_CALL_HELD.
Proof.
  intros evs call call' H.
  now destruct (run_evolves evs call call' H) as (_ & _ & _ & _ & H5).
Qed.

Lemma events_move_state_to_running_or_held_witness :
  exists call',
    run latch_events legacy_call = Ok (Some call') /\
    (state call' = state legacy_call \/
     state call' = SIPE_CALL_RUNNING \/
     state call' = SIPE_CALL_HELD).
Proof.
  eexists. split; [vm_compute; reflexivity|].
  eapply (events_move_state_to_running_or_held latch_events legacy_call).
  vm_compute. reflexivity.
Defined.

(** ** Provisional and final answer *)



(** ** Candidate section of the SDP *)

Lemma candidates_loop_port (cs : list PurpleMediaCandidate) :
  forall port lines port',
    candidates_loop cs port = Ok (lines, port') ->
    port' = if port =? 0 then first_rtcp_port cs else port.
Proof.
  induction cs as [|c next IH]; intros port lines port' E;
    cbn [candidates_loop] in E.
  - apply Ok_inj in E. injection E as _ <-.
    unfold first_rtcp_port. cbn [find]. now destruct (port =? 0) eqn:P;
      [apply Z.eqb_eq in P|].
  - destruct (candidate_line c) as [line| |]; cbn [bind] in E;
      try discriminate.
    destruct (candidates_loop next _) as [[ls p]| |] eqn:En;
      cbn [bind] in E; try discriminate.
    apply Ok_inj in E. injection E as _ <-.
    apply IH in En. subst p.
    unfold first_rtcp_port. cbn [find]. fold (first_rtcp_port next).
    destruct (cand_component c).
    + reflexivity.
    + reflexivity.
    + destruct (port =? 0) eqn:P; cbn [negb].
      * destruct (to_guint16 (cand_port c) =? 0) eqn:Q; cbn [negb];
          reflexivity.
      * rewrite P. reflexivity.
Qed.

(** X10: the port written on the [a=rtcp] line is found by the loop over
    the candidates: it is the port, as a [guint16], of the first RTCP
    candidate for which that port is not 0, and 0, for which no line is
    written, when there is no such candidate. *)
Theorem rtcp_port_is_first_nonzero_rtcp_candidate :
  forall cs lines port,
    candidates_loop cs 0 = Ok (lines, port) ->
    port = first_rtcp_port cs.
Proof.
  intros cs lines port E. now apply candidates_loop_port in E.
Qed.

Lemma rtcp_port_is_first_nonzero_rtcp_candidate_witness :
  exists lines port,
    candidates_loop
      [local_candidate PURPLE_MEDIA_COMPONENT_RTP 6000;
       local_candidate PURPLE_MEDIA_COMPONENT_RTCP 65536;
       local_candidate PURPLE_MEDIA_COMPONENT_RTCP 6001;
       local_candidate PURPLE_MEDIA_COMPONENT_RTCP 6003] 0
    = Ok (lines, port) /\
    port = 6001.
Proof.
  do 2 eexists. split; [vm_compute; reflexivity|].
  eapply (rtcp_port_is_first_nonzero_rtcp_candidate
            [local_candidate PURPLE_MEDIA_COMPONENT_RTP 6000;
             local_candidate PURPLE_MEDIA_COMPONENT_RTCP 65536;
             local_candidate PURPLE_MEDIA_COMPONENT_RTCP 6001;
             local_candidate PURPLE_MEDIA_COMPONENT_RTCP 6003]).
  vm_compute. reflexivity.
Defined.

Lemma candidate_line_unformattable (c : PurpleMediaCandidate) :
  formattable c = false -> candidate_line c = Undefined.
Proof.
  unfold formattable, candidate_line.
  destruct (cand_component c); cbn [bind andb]; trivial;
    destruct (cand_protocol c); cbn [bind];
    destruct (cand_type c); cbn [bind]; trivial; discriminate.
Qed.

Lemma candidate_line_formattable (c : PurpleMediaCandidate) :
  formattable c = true -> exists line, candidate_line c = Ok line.
Proof.
  unfold formattable, candidate_line.
  destruct (cand_component c); cbn [bind andb]; try discriminate;
    destruct (cand_protocol c); cbn [bind];
    destruct (cand_type c); cbn [bind]; try discriminate;
    intros _; now eexists.
Qed.

Lemma candidates_loop_unformattable (cs : list PurpleMediaCandidate) :
  forallb formattable cs = false ->
  forall port, candidates_loop cs port = Undefined.
Proof.
  induction cs as [|c next IH]; cbn [forallb candidates_loop];
    [discriminate|].
  intros H port.
  destruct (formattable c) eqn:Hc; cbn [andb] in H.
  - rewrite (IH H).
    destruct (candidate_line_formattable c Hc) as [line ->]. reflexivity.
  - now rewrite (candidate_line_unformattable c Hc).
Qed.

(** X11: the exact bounds of [sipe_media_create_sdp] with the
    remote-candidate flag: it returns a body when the engine has a local
    candidate and, outside legacy mode, every local candidate has a
    component and a type the formatter has a case for and the call has at
    least two remote candidates; in every other case it reads what is not
    there. *)
Theorem create_sdp_defined_exactly_when :
  forall env call,
    if sdp_defined env call
    then exists body, sipe_media_create_sdp env call true = Ok body
    else sipe_media_create_sdp env call true = Undefined.
Proof.
  intros env call. destruct (sdp_defined env call) eqn:Hd.
  - now apply create_sdp_total.
  - unfold sdp_defined in Hd.
    unfold sipe_media_create_sdp, sipe_media_sdp_candidates_format.
    destruct (purple_media_get_local_candidates env) as [|first rest] eqn:El;
      [reflexivity|].
    destruct (legacy_mode call); cbn [orb] in Hd; [discriminate|].
    destruct (forallb formattable (first :: rest)) eqn:Hf; cbn [andb] in Hd.
    + destruct (candidates_loop_total _ Hf 0) as (ls & p & ->).
      cbn [bind]. unfold remote_candidates_line.
      destruct (remote_candidates call) as [|c1 [|c2 more]];
        [reflexivity | reflexivity | discriminate].
    + now rewrite (candidates_loop_unformattable _ Hf).
Qed.

(** ** Numbers written and read back *)

Lemma digits_value_uint (u : Decimal.uint) (acc : Z) :
  digits_value acc (NilEmpty.string_of_uint u) = uint_value acc u.
Proof.
  revert acc. induction u; intros acc; cbn [NilEmpty.string_of_uint
    uint_value]; [reflexivity | ..]; apply IHu.
Qed.

Lemma uint_value_of_uint_acc (u : Decimal.uint) (acc : positive) :
  Z.pos (Pos.of_uint_acc u acc) = uint_value (Z.pos acc) u.
Proof.
  revert acc. induction u; intros acc; cbn [Pos.of_uint_acc uint_value];
    [reflexivity | ..]; rewrite IHu; f_equal; lia.
Qed.

Lemma uint_value_of_uint (u : Decimal.uint) :
  Z.of_N (Pos.of_uint u) = uint_value 0 u.
Proof.
  induction u; cbn [Pos.of_uint uint_value]; [reflexivity | exact IHu | ..];
    cbn [Z.of_N]; rewrite uint_value_of_uint_acc; reflexivity.
Qed.

Lemma string_of_uint_first (u : Decimal.uint) :
  match NilEmpty.string_of_uint u with
  | EmptyString => True
  | String c _ => isspace c = false /\ c <> "-"%char /\ c <> "+"%char
  end.
Proof. destruct u; cbn; repeat split; discriminate. Qed.

Lemma atoi_digits (u : Decimal.uint) :
  signed_value (skip_space (NilEmpty.string_of_uint u)) = uint_value 0 u.
Proof.
  pose proof (string_of_uint_first u) as H.
  pose proof (digits_value_uint u 0) as D.
  destruct (NilEmpty.string_of_uint u) as [|c s] eqn:E; [exact D|].
  destruct H as (Hs & Hm & Hp).
  cbn [skip_space]. rewrite Hs. unfold signed_value.
  destruct c as [[] [] [] [] [] [] [] []]; try exact D;
    exfalso; auto.
Qed.

Lemma atoi_minus (s : string) :
  signed_value (skip_space (String "-" s)) = - digits_value 0 s.
Proof. reflexivity. Qed.

(** What [printf] writes for an [int], [atoi] reads back. *)
Lemma atoi_fmt_int (z : Z) :
  INT_MIN <= z <= INT_MAX -> atoi (Some (fmt_int z)) = Ok z.
Proof.
  intros Hz.
  assert (V : signed_value (skip_space (fmt_int z)) = z).
  { unfold fmt_int. destruct z as [|p|p]; cbn [Z.to_int NilZero.string_of_int].
    - reflexivity.
    - unfold NilZero.string_of_uint.
      pose proof (DecimalPos.Unsigned.to_uint_nonnil p) as Hn.
      pose proof (DecimalPos.Unsigned.of_to p) as Hp.
      destruct (Pos.to_uint p) eqn:E; try congruence;
        rewrite atoi_digits, <- uint_value_of_uint, Hp; reflexivity.
    - unfold NilZero.string_of_uint.
      pose proof (DecimalPos.Unsigned.to_uint_nonnil p) as Hn.
      pose proof (DecimalPos.Unsigned.of_to p) as Hp.
      pose proof (digits_value_uint (Pos.to_uint p) 0) as D.
      rewrite <- uint_value_of_uint, Hp in D. cbn [Z.of_N] in D.
      destruct (Pos.to_uint p) eqn:E; try congruence;
        cbv iota; rewrite atoi_minus, D; reflexivity. }
  unfold atoi. rewrite V.
  destruct (INT_MIN <=? z) eqn:A; [|apply Z.leb_gt in A; lia].
  destruct (z <=? INT_MAX) eqn:B; [|apply Z.leb_gt in B; lia].
  reflexivity.
Qed.

(** ** Tokens *)

Lemma free_of_app (set a b : string) :
  free_of set (a ++ b) = free_of set a && free_of set b.
Proof.
  induction a as [|x a IH]; cbn [append free_of]; [reflexivity|].
  now rewrite IH, andb_assoc.
Qed.

Lemma free_of_space_uint (u : Decimal.uint) :
  free_of " /" (NilEmpty.string_of_uint u) = true.
Proof. induction u; cbn; trivial. Qed.

(** A number is written without space or slash. *)
Lemma free_of_fmt_int (z : Z) : free_of " /" (fmt_int z) = true.
Proof.
  unfold fmt_int, NilZero.string_of_int, NilZero.string_of_uint.
  destruct (Z.to_int z) as [u|u]; [|cbn [free_of mem_char]];
    destruct u; cbn; trivial; apply free_of_space_uint.
Qed.

Lemma free_of_weaken (s : string) :
  free_of " /" s = true -> free_of " " s = true.
Proof.
  induction s as [|c s IH]; cbn [free_of mem_char]; [reflexivity|].
  intros H. apply andb_true_iff in H. destruct H as [Hc Hs].
  rewrite (IH Hs), andb_true_r.
  apply negb_true_iff in Hc. apply orb_false_iff in Hc.
  destruct Hc as [Hc _]. now rewrite Hc.
Qed.

Lemma split_set_from_zero (delims s : string) :
  split_set_from delims 0 s = [s].
Proof. now destruct s. Qed.

Lemma split_set_from_free (delims s : string) (n : nat) :
  free_of delims s = true -> split_set_from delims n s = [s].
Proof.
  induction s as [|c s IH]; cbn [free_of split_set_from]; [reflexivity|].
  intros H. apply andb_true_iff in H. destruct H as [Hc Hs].
  apply negb_true_iff in Hc.
  destruct n as [|n]; [reflexivity|].
  now rewrite Hc, (IH Hs).
Qed.

Lemma split_set_from_token (delims t rest : string) (d : ascii) (n : nat) :
  free_of delims t = true ->
  mem_char d delims = true ->
  split_set_from delims (S n) (t ++ String d rest)
  = t :: split_set_from delims n rest.
Proof.
  intros Ht Hd. induction t as [|c t IH].
  - cbn [append split_set_from]. now rewrite Hd.
  - cbn [free_of] in Ht. apply andb_true_iff in Ht. destruct Ht as [Hc Ht].
    apply negb_true_iff in Hc.
    cbn [append split_set_from]. now rewrite Hc, (IH Ht).
Qed.

(** Tokens that hold no separator, joined by separators, are cut apart
    again; the last piece is what is left when the cuts are used up. *)
Lemma split_set_join (delims : string) (tokens : list (string * ascii))
    (last : string) :
  Forall (fun td => free_of delims (fst td) = true /\
                    mem_char (snd td) delims = true) tokens ->
  forall n,
    n = List.length tokens \/
    ((List.length tokens <= n)%nat /\ free_of delims last = true) ->
    split_set_from delims n (join tokens last)
    = (map fst tokens ++ [last])%list.
Proof.
  induction 1 as [|[t d] rest [Ht Hd] Hrest IH]; intros n Hn;
    cbn [join map app List.length] in *.
  - destruct Hn as [->|[_ Hl]];
      [apply split_set_from_zero | now apply split_set_from_free].
  - destruct n as [|n]; [destruct Hn as [Hn|[Hn _]]; [discriminate | lia]|].
    cbn [fst snd] in *.
    rewrite split_set_from_token by assumption.
    f_equal. apply IH.
    destruct Hn as [Hn|[Hn Hl]]; [left; congruence | right; split; [lia|
      exact Hl]].
Qed.

Lemma length_join (tokens : list (string * ascii)) (last : string) :
  (List.length tokens <= String.length (join tokens last))%nat.
Proof.
  induction tokens as [|[t d] rest IH]; cbn [join List.length]; [lia|].
  rewrite length_app_string. cbn [String.length]. lia.
Qed.

Lemma prefix_single (d c : ascii) (s : string) :
  String.prefix (String d "") (String c s) = mem_char c (String d "").
Proof.
  cbn [String.prefix mem_char]. rewrite orb_false_r.
  destruct (ascii_dec d c) as [<-|Hne].
  - rewrite Ascii.eqb_refl. now destruct s.
  - symmetry. apply Ascii.eqb_neq. congruence.
Qed.

(** With a delimiter of one character, [g_strsplit] cuts as
    [g_strsplit_set] does. *)
Lemma split_from_single (d : ascii) (s : string) :
  forall n,
    split_from (String d "") 0 n s = split_set_from (String d "") n s.
Proof.
  induction s as [|c s IH]; intros n; [reflexivity|].
  destruct n as [|n]; [reflexivity|].
  cbn [split_from split_set_from Nat.sub String.length].
  rewrite prefix_single.
  destruct (mem_char c (String d "")); now rewrite IH.
Qed.

Lemma g_strsplit_single (s : string) (d : ascii) (max_tokens : Z) :
  g_strsplit s (String d "") max_tokens
  = g_strsplit_set s (String d "") max_tokens.
Proof.
  unfold g_strsplit, g_strsplit_set.
  destruct s; [reflexivity|]. apply split_from_single.
Qed.

Lemma substring_all (s : string) :
  String.substring 0 (String.length s) s = s.
Proof.
  induction s as [|c s IH]; cbn [String.length String.substring];
    [reflexivity | now rewrite IH].
Qed.

Lemma after_prefix_two (a b : ascii) (s : string) :
  after_prefix (String a (String b s)) = s.
Proof.
  unfold after_prefix. cbn [String.length Nat.sub String.substring].
  rewrite Nat.sub_0_r. apply substring_all.
Qed.

(** ** The SDP parser, line by line *)

Lemma prefix_app (p s : string) : String.prefix p (p ++ s) = true.
Proof.
  induction p as [|c p IH]; cbn [append String.prefix].
  - now destruct s.
  - destruct (ascii_dec c c) as [_|H]; [exact IH | congruence].
Qed.

Lemma g_strsplit_set_nonempty (s delims : string) (max_tokens : Z) :
  s <> "" ->
  g_strsplit_set s delims max_tokens
  = split_set_from delims
      (if max_tokens <? 1 then String.length s
       else Z.to_nat (max_tokens - 1)) s.
Proof. destruct s; [congruence | reflexivity]. Qed.

Lemma join_nonempty (t : string) (d : ascii) (rest : list (string * ascii))
    (last : string) :
  join ((t, d) :: rest) last <> "".
Proof. cbn [join]. destruct t; discriminate. Qed.

Lemma frame_eta (acc : sdp_frame) :
  mkFrame (frame_attrs acc) (frame_ip acc) (frame_port acc) = acc.
Proof. now destruct acc. Qed.

Lemma parse_attr_line (name value : string) (rest : list string)
    (acc : sdp_frame) :
  free_of ":" name = true ->
  parse_sdp_lines (attr_line (name, value) :: rest) acc
  = parse_sdp_lines rest (add_attrs acc [(name, value)]).
Proof.
  intros Hn. cbn [parse_sdp_lines].
  unfold attr_line, g_str_has_prefix. cbn [fst snd].
  rewrite prefix_app.
  change ("a=" ++ name ++ ":" ++ value)
    with (String "a" (String "=" (join [(name, ":"%char)] value))).
  rewrite after_prefix_two, g_strsplit_single,
    g_strsplit_set_nonempty by apply join_nonempty.
  change (2 <? 1) with false. cbv iota.
  change (Z.to_nat (2 - 1)) with 1%nat.
  rewrite split_set_join.
  - reflexivity.
  - constructor; [|constructor]. split; [exact Hn | reflexivity].
  - now left.
Qed.

Lemma parse_skipped_line (line : string) (rest : list string)
    (acc : sdp_frame) :
  relevant_line line = false ->
  parse_sdp_lines (line :: rest) acc = parse_sdp_lines rest acc.
Proof.
  unfold relevant_line. intros H.
  apply orb_false_iff in H. destruct H as [H Hm].
  apply orb_false_iff in H. destruct H as [Ha Ho].
  cbn [parse_sdp_lines]. now rewrite Ha, Ho, Hm.
Qed.

Lemma parse_sdp_lines_head (line : string) (r1 r2 : list string) :
  (forall acc, parse_sdp_lines r1 acc = parse_sdp_lines r2 acc) ->
  forall acc,
    parse_sdp_lines (line :: r1) acc = parse_sdp_lines (line :: r2) acc.
Proof.
  intros H acc. cbn [parse_sdp_lines].
  repeat match goal with
  | |- context [if ?b then _ else _] => destruct b
  | |- context [strv_get ?v ?i] =>
    destruct (strv_get v i) as [[?|]| |]; cbn [bind]
  | |- context [atoi ?p] => destruct (atoi p); cbn [bind]
  end; trivial.
Qed.

Lemma parse_sdp_lines_filter (lines : list string) :
  forall acc,
    parse_sdp_lines lines acc
    = parse_sdp_lines (filter relevant_line lines) acc.
Proof.
  induction lines as [|l rest IH]; intros acc; [reflexivity|].
  cbn [filter]. destruct (relevant_line l) eqn:R.
  - now apply parse_sdp_lines_head.
  - rewrite parse_skipped_line by exact R. apply IH.
Qed.

(** X12: only the lines that start with [a=], [o=] or [m=] count: two
    bodies with the same such lines, in the same order, parse into the
    same call.  The connection line [c=] in particular is not read; the
    remote address is the one of the origin line. *)
Theorem parse_reads_only_a_o_m_lines :
  forall call frame1 frame2,
    filter relevant_line (sdp_lines frame1)
      = filter relevant_line (sdp_lines frame2) ->
    sipe_media_parse_sdp_frame call frame1
      = sipe_media_parse_sdp_frame call frame2.
Proof.
  intros call frame1 frame2 H. unfold sipe_media_parse_sdp_frame.
  fold (sdp_lines frame1). fold (sdp_lines frame2).
  now rewrite (parse_sdp_lines_filter (sdp_lines frame1)),
    (parse_sdp_lines_filter (sdp_lines frame2)), H.
Qed.

Lemma parse_reads_only_a_o_m_lines_witness :
  filter relevant_line (sdp_lines verbose_offer)
    = filter relevant_line (sdp_lines terse_offer) /\
  sipe_media_parse_sdp_frame call_zero verbose_offer
    = sipe_media_parse_sdp_frame call_zero terse_offer /\
  sipe_media_parse_sdp_frame call_zero verbose_offer
    = Ok (with_sdp [("rtpmap", "0 PCMU/8000"); ("encryption", "rejected")]
            (Some "10.0.0.5") 5004 call_zero, true).
Proof.
  split; [vm_compute; reflexivity|].
  split; [|vm_compute; reflexivity].
  apply (parse_reads_only_a_o_m_lines call_zero verbose_offer terse_offer).
  vm_compute. reflexivity.
Defined.

Lemma parse_sdp_lines_ip (lines : list string) :
  existsb (fun l => g_str_has_prefix l "o=") lines = false ->
  forall acc f,
    parse_sdp_lines lines acc = Ok (Some f) -> frame_ip f = frame_ip acc.
Proof.
  induction lines as [|l rest IH]; intros H acc f E.
  - cbn in E. apply Ok_inj in E. now injection E as <-.
  - cbn [existsb] in H. apply orb_false_iff in H. destruct H as [Ho H].
    cbn [parse_sdp_lines] in E. rewrite Ho in E.
    repeat match type of E with
    | context [if ?b then _ else _] => destruct b
    | context [strv_get ?v ?i] =>
      destruct (strv_get v i) as [[?|]| |]; cbn [bind] in E
    | context [atoi ?p] => destruct (atoi p); cbn [bind] in E
    end; try discriminate; apply (IH H) in E; exact E.
Qed.

Lemma parse_sdp_lines_port (lines : list string) :
  existsb (fun l => negb (g_str_has_prefix l "a=")
                    && negb (g_str_has_prefix l "o=")
                    && g_str_has_prefix l "m=") lines = false ->
  forall acc f,
    parse_sdp_lines lines acc = Ok (Some f) -> frame_port f = frame_port acc.
Proof.
  induction lines as [|l rest IH]; intros H acc f E.
  - cbn in E. apply Ok_inj in E. now injection E as <-.
  - cbn [existsb] in H. apply orb_false_iff in H. destruct H as [Hm H].
    cbn [parse_sdp_lines] in E.
    destruct (g_str_has_prefix l "a=");
      [|destruct (g_str_has_prefix l "o=");
        [|destruct (g_str_has_prefix l "m="); [discriminate Hm|]]];
    repeat match type of E with
    | context [strv_get ?v ?i] =>
      destruct (strv_get v i) as [[?|]| |]; cbn [bind] in E
    end; try discriminate; apply (IH H) in E; exact E.
Qed.

(** X13: the remote address and port are taken anew from every body that
    parses: one without an origin line leaves the call without remote
    address, and one without a media line leaves it with port 0, whatever
    the call had before. *)
Theorem parse_resets_address_and_port :
  forall call frame call',
    sipe_media_parse_sdp_frame call frame = Ok (call', true) ->
    (existsb (fun l => g_str_has_prefix l "o=") (sdp_lines frame) = false ->
     remote_ip call' = None) /\
    (existsb (fun l => g_str_has_prefix l "m=") (sdp_lines frame) = false ->
     remote_port call' = 0).
Proof.
  intros call frame call'. unfold sipe_media_parse_sdp_frame.
  fold (sdp_lines frame).
  destruct (parse_sdp_lines (sdp_lines frame) _) as [[f|]| |] eqn:E;
    cbn [bind]; try discriminate.
  intros H. apply Ok_inj in H. injection H as <-.
  split; intros Hno.
  - apply (parse_sdp_lines_ip _ Hno) in E. exact E.
  - refine (parse_sdp_lines_port _ _ _ _ E).
    clear -Hno. induction (sdp_lines frame) as [|l ls IH]; [reflexivity|].
    cbn [existsb] in *. apply orb_false_iff in Hno. destruct Hno as [Hl Hls].
    now rewrite Hl, andb_false_r, (IH Hls).
Qed.

Lemma parse_resets_address_and_port_witness :
  exists call',
    sipe_media_parse_sdp_frame running_call
      (crlf_lines ["v=0"; "a=rtpmap:0 PCMU/8000"]) = Ok (call', true) /\
    remote_ip running_call = Some "10.0.0.5" /\
    remote_port running_call = 5004 /\
    remote_ip call' = None /\
    remote_port call' = 0.
Proof.
  eexists. split; [vm_compute; reflexivity|].
  split; [reflexivity|]. split; [reflexivity|].
  destruct (parse_resets_address_and_port running_call
              (crlf_lines ["v=0"; "a=rtpmap:0 PCMU/8000"]) _ eq_refl)
    as [Hip Hport].
  split; [apply Hip | apply Hport]; reflexivity.
Defined.

Lemma length_crlf_lines (lines : list string) :
  (List.length lines <= String.length (crlf_lines lines))%nat.
Proof.
  induction lines as [|l rest IH]; cbn [crlf_lines List.length]; [lia|].
  rewrite !length_app_string. change (String.length CRLF) with 2%nat. lia.
Qed.

Lemma split_from_crlf_lines (lines : list string) :
  forallb nocr lines = true ->
  forall n, (String.length (crlf_lines lines) <= n)%nat ->
    split_from CRLF 0 n (crlf_lines lines) = (lines ++ [""])%list.
Proof.
  induction lines as [|l rest IH]; cbn [forallb crlf_lines app];
    intros H n Hn.
  - now destruct n.
  - apply andb_true_iff in H. destruct H as [Hl Hrest].
    rewrite !length_app_string in Hn.
    change (String.length CRLF) with 2%nat in Hn.
    destruct n as [|n]; [lia|].
    rewrite split_from_line by exact Hl.
    f_equal. apply (IH Hrest). lia.
Qed.

(** The lines of a text made of lines. *)
Lemma sdp_lines_crlf_lines (lines : list string) :
  forallb nocr lines = true ->
  lines <> [] ->
  sdp_lines (crlf_lines lines) = (lines ++ [""])%list.
Proof.
  intros H Hne. unfold sdp_lines, g_strsplit.
  destruct (crlf_lines lines) eqn:E.
  - destruct lines as [|l rest]; [congruence|].
    cbn [crlf_lines] in E. destruct l; discriminate.
  - rewrite <- E. change (0 <? 1) with true. cbv iota.
    now apply split_from_crlf_lines.
Qed.

Lemma parse_sdp_lines_app (l1 l2 : list string) :
  forall acc,
    parse_sdp_lines (l1 ++ l2) acc
    = (r <- parse_sdp_lines l1 acc ;;
       match r with
       | Some acc' => parse_sdp_lines l2 acc'
       | None => Ok None
       end).
Proof.
  induction l1 as [|l rest IH]; intros acc; [reflexivity|].
  cbn [app parse_sdp_lines].
  repeat match goal with
  | |- context [if ?b then _ else _] => destruct b
  | |- context [strv_get ?v ?i] =>
    destruct (strv_get v i) as [[?|]| |]; cbn [bind]
  | |- context [atoi ?p] => destruct (atoi p); cbn [bind]
  end; trivial.
Qed.

Lemma add_attrs_nil (acc : sdp_frame) : add_attrs acc [] = acc.
Proof. unfold add_attrs. rewrite app_nil_r. apply frame_eta. Qed.

Lemma add_attrs_app (acc : sdp_frame) (a b : list (string * string)) :
  add_attrs (add_attrs acc a) b = add_attrs acc (a ++ b).
Proof. unfold add_attrs. cbn. now rewrite app_assoc. Qed.

Lemma parse_attr_lines (nvs : list (string * string)) :
  forallb clean_attr nvs = true ->
  forall acc,
    parse_sdp_lines (map attr_line nvs) acc = Ok (Some (add_attrs acc nvs)).
Proof.
  induction nvs as [|[n v] rest IH]; cbn [forallb map]; intros H acc.
  - now rewrite add_attrs_nil.
  - apply andb_true_iff in H. destruct H as [Hnv Hrest].
    unfold clean_attr in Hnv. cbn [fst snd] in Hnv.
    apply andb_true_iff in Hnv. destruct Hnv as [Hnv _].
    apply andb_true_iff in Hnv. destruct Hnv as [Hn _].
    rewrite parse_attr_line by exact Hn.
    rewrite (IH Hrest), add_attrs_app. reflexivity.
Qed.

Lemma nocr_attr_lines (nvs : list (string * string)) :
  forallb clean_attr nvs = true ->
  forallb nocr (map attr_line nvs) = true.
Proof.
  induction nvs as [|[n v] rest IH]; cbn [forallb map]; [reflexivity|].
  intros H. apply andb_true_iff in H. destruct H as [Hnv Hrest].
  unfold clean_attr in Hnv. cbn [fst snd] in Hnv.
  apply andb_true_iff in Hnv. destruct Hnv as [Hnv Hv].
  apply andb_true_iff in Hnv. destruct Hnv as [_ Hn].
  rewrite (IH Hrest), andb_true_r.
  unfold attr_line. cbn [fst snd].
  now rewrite !nocr_app, Hn, Hv.
Qed.

(** X14: a body made of lines [a=<name>:<value>] parses into exactly these
    attributes, in the order of the lines and with repeated names kept
    apart; the value may hold colons, the name may not, and neither holds
    a carriage return.  The attributes the call had before are gone, and
    so are its remote address and port. *)
Theorem attribute_lines_parse_in_order :
  forall call nvs,
    forallb clean_attr nvs = true ->
    sipe_media_parse_sdp_frame call (crlf_lines (map attr_line nvs))
    = Ok (with_sdp nvs None 0 call, true).
Proof.
  intros call nvs H. unfold sipe_media_parse_sdp_frame.
  fold (sdp_lines (crlf_lines (map attr_line nvs))).
  destruct nvs as [|nv rest] eqn:E; [reflexivity|]. rewrite <- E in *.
  rewrite sdp_lines_crlf_lines;
    [| now apply nocr_attr_lines | subst nvs; discriminate].
  rewrite parse_sdp_lines_app, parse_attr_lines by exact H.
  reflexivity.
Qed.

Lemma attribute_lines_parse_in_order_witness :
  forallb clean_attr
    [("candidate", "1 1 UDP 9 10.0.0.5 5004 typ host");
     ("x-note", "a:b:c"); ("candidate", "1 2 UDP 8 10.0.0.5 5005 typ host")]
    = true /\
  sipe_media_parse_sdp_frame running_call
    (crlf_lines
       ["a=candidate:1 1 UDP 9 10.0.0.5 5004 typ host"; "a=x-note:a:b:c";
        "a=candidate:1 2 UDP 8 10.0.0.5 5005 typ host"])
  = Ok (with_sdp
          [("candidate", "1 1 UDP 9 10.0.0.5 5004 typ host");
           ("x-note", "a:b:c");
           ("candidate", "1 2 UDP 8 10.0.0.5 5005 typ host")]
          None 0 running_call, true).
Proof.
  split; [reflexivity|].
  apply (attribute_lines_parse_in_order running_call
           [("candidate", "1 1 UDP 9 10.0.0.5 5004 typ host");
            ("x-note", "a:b:c");
            ("candidate", "1 2 UDP 8 10.0.0.5 5005 typ host")]).
  reflexivity.
Defined.

(** ** What the formatter writes *)

Lemma crlf_lines_app (l1 l2 : list string) :
  crlf_lines (l1 ++ l2) = crlf_lines l1 ++ crlf_lines l2.
Proof.
  induction l1 as [|l rest IH]; cbn [app crlf_lines]; [reflexivity|].
  now rewrite IH, !app_string_assoc.
Qed.

Lemma attr_line_text (name value : string) :
  "a=" ++ name ++ ":" ++ value = attr_line (name, value).
Proof. reflexivity. Qed.

Lemma codecs_format_attrs (codecs : list PurpleMediaCodec) :
  sipe_media_sdp_codecs_format codecs
  = crlf_lines (map attr_line (codec_attrs codecs)).
Proof.
  induction codecs as [|c next IH];
    cbn [sipe_media_sdp_codecs_format codec_attrs flat_map]; [reflexivity|].
  fold (codec_attrs next).
  cbn [app map crlf_lines]. rewrite map_app, crlf_lines_app, <- IH.
  unfold rtpmap_line, fmtp_line, attr_line, rtpmap_value, fmtp_value.
  cbn [fst snd].
  destruct (optional_parameters c) as [|kv ps];
    cbn [map crlf_lines fst snd];
    rewrite !app_string_assoc; reflexivity.
Qed.

Lemma candidate_line_value (c : PurpleMediaCandidate) (line : string) :
  candidate_line c = Ok line ->
  line = attr_line ("candidate", candidate_value c) ++ CRLF.
Proof.
  unfold candidate_line, attr_line, candidate_value, component_number,
    protocol_name, type_name. cbn [fst snd].
  destruct (cand_component c); cbn [bind]; try discriminate;
    destruct (cand_protocol c); cbn [bind];
    destruct (cand_type c); cbn [bind]; try discriminate;
    intros E; apply Ok_inj in E; subst line;
    rewrite !app_string_assoc; reflexivity.
Qed.

Lemma candidates_loop_attrs (cs : list PurpleMediaCandidate) :
  forall port lines port',
    candidates_loop cs port = Ok (lines, port') ->
    lines = crlf_lines
              (map attr_line
                 (map (fun c => ("candidate", candidate_value c)) cs)).
Proof.
  induction cs as [|c next IH]; intros port lines port' E;
    cbn [candidates_loop] in E.
  - apply Ok_inj in E. now injection E as <- _.
  - destruct (candidate_line c) as [line| |] eqn:El; cbn [bind] in E;
      try discriminate.
    destruct (candidates_loop next _) as [[ls p]| |] eqn:En;
      cbn [bind] in E; try discriminate.
    apply Ok_inj in E. injection E as <- _.
    apply candidate_line_value in El. apply IH in En. subst line ls.
    cbn [map crlf_lines]. now rewrite !app_string_assoc.
Qed.

Lemma rtcp_lines_attrs (port : Z) :
  rtcp_lines port
  = crlf_lines
      (map attr_line
         (if port =? 0 then []
          else [("maxptime", "200"); ("rtcp", fmt_int port)])).
Proof.
  unfold rtcp_lines. destruct (port =? 0); [reflexivity|].
  unfold attr_line. cbn [map crlf_lines fst snd].
  rewrite !app_string_assoc. reflexivity.
Qed.

Lemma candidates_format_attrs (cs : list PurpleMediaCandidate)
    (call : sipe_media_call) (flag : bool) (text : string) :
  sipe_media_sdp_candidates_format cs call flag = Ok text ->
  text = crlf_lines (map attr_line (candidate_section_attrs cs call flag)).
Proof.
  unfold sipe_media_sdp_candidates_format, candidate_section_attrs.
  destruct cs as [|first rest] eqn:Ecs; [discriminate|].
  destruct (legacy_mode call);
    [intros E; apply Ok_inj in E; now subst text|].
  rewrite <- Ecs.
  destruct (candidates_loop cs 0) as [[lines port]| |] eqn:El;
    cbn [bind]; try discriminate.
  pose proof (candidates_loop_port _ _ _ _ El) as Hport.
  cbn [Z.eqb] in Hport. subst port.
  apply candidates_loop_attrs in El. subst lines.
  assert (Hr : forall r,
             (if flag then remote_candidates_line call else Ok "") = Ok r ->
             r = crlf_lines
                   (map attr_line
                      (if flag then remote_candidates_attr call else []))).
  { intros r. destruct flag; [|intros E; apply Ok_inj in E; now subst r].
    unfold remote_candidates_line, remote_candidates_attr.
    destruct (remote_candidates call) as [|c1 [|c2 more]];
      try discriminate.
    intros E. apply Ok_inj in E. subst r.
    unfold attr_line. cbn [map crlf_lines fst snd].
    rewrite !app_string_assoc. reflexivity. }
  destruct (if flag then remote_candidates_line call else Ok "") as [r| |];
    cbn [bind]; try discriminate.
  specialize (Hr r eq_refl). subst r.
  intros E. apply Ok_inj in E. subst text.
  rewrite rtcp_lines_attrs, !map_app, !crlf_lines_app.
  cbn [map crlf_lines app]. unfold attr_line at 1 2. cbn [fst snd].
  rewrite !app_string_assoc. reflexivity.
Qed.

Lemma create_sdp_text (env : engine) (call : sipe_media_call) (flag : bool)
    (body : string) :
  sipe_media_create_sdp env call flag = Ok body ->
  body = crlf_lines
           (sdp_head_lines env
            ++ map attr_line
                 (candidate_section_attrs
                    (purple_media_get_local_candidates env) call flag)
            ++ inactive_lines call
            ++ map attr_line
                 (codec_attrs (purple_media_get_codecs env)
                  ++ [("encryption", "rejected")])).
Proof.
  unfold sipe_media_create_sdp, sdp_head_lines, local_port.
  destruct (purple_media_get_local_candidates env) as [|first rest] eqn:El;
    [discriminate|].
  rewrite <- El.
  destruct (sipe_media_sdp_candidates_format _ call flag) as [cands| |] eqn:Ec;
    cbn [bind]; try discriminate.
  apply candidates_format_attrs in Ec. subst cands.
  intros E. apply Ok_inj in E. subst body.
  rewrite !crlf_lines_app, map_app, crlf_lines_app, codecs_format_attrs.
  replace (inactive_line call) with (crlf_lines (inactive_lines call))
    by (unfold inactive_line, inactive_lines; now destruct (state call)).
  cbn [crlf_lines map]. unfold attr_line at 3. cbn [fst snd].
  rewrite !app_string_assoc. reflexivity.
Qed.

Lemma clean_candidate_attrs (cs : list PurpleMediaCandidate) :
  forallb clean_candidate cs = true ->
  forallb clean_attr (map (fun c => ("candidate", candidate_value c)) cs)
  = true.
Proof.
  induction cs as [|c next IH]; cbn [forallb map]; [reflexivity|].
  intros H. apply andb_true_iff in H. destruct H as [Hc Hnext].
  rewrite (IH Hnext), andb_true_r.
  unfold clean_candidate in Hc.
  apply andb_true_iff in Hc. destruct Hc as [Hc _].
  apply andb_true_iff in Hc. destruct Hc as [Hc _].
  apply andb_true_iff in Hc. destruct Hc as [Hf Hip].
  unfold clean_attr, candidate_value. cbn [fst snd].
  rewrite !nocr_app, !nocr_fmt_int, Hf, Hip.
  unfold protocol_name, type_name.
  destruct (cand_protocol c); destruct (cand_type c); reflexivity.
Qed.

Lemma clean_candidate_section (cs : list PurpleMediaCandidate)
    (call : sipe_media_call) (flag : bool) :
  forallb clean_candidate cs = true ->
  forallb clean_candidate (remote_candidates call) = true ->
  forallb clean_attr (candidate_section_attrs cs call flag) = true.
Proof.
  intros Hcs Hremote. unfold candidate_section_attrs.
  destruct (legacy_mode call); [reflexivity|].
  destruct cs as [|first rest] eqn:Ecs; [reflexivity|]. rewrite <- Ecs.
  assert (Hfirst : clean_candidate first = true).
  { cbn [forallb] in Hcs. now apply andb_true_iff in Hcs. }
  rewrite <- Ecs in Hcs.
  unfold clean_candidate in Hfirst.
  apply andb_true_iff in Hfirst. destruct Hfirst as [Hfirst Hpwd].
  apply andb_true_iff in Hfirst. destruct Hfirst as [_ Huser].
  rewrite !forallb_app. cbn [forallb].
  unfold clean_attr at 1 2. cbn [fst snd]. rewrite Huser, Hpwd.
  rewrite (clean_candidate_attrs cs Hcs).
  cbn [free_of mem_char nocr andb negb Ascii.eqb Bool.eqb].
  assert (Hr : forallb clean_attr
                 (if flag then remote_candidates_attr call else []) = true).
  { destruct flag; [|reflexivity]. unfold remote_candidates_attr.
    destruct (remote_candidates call) as [|c1 [|c2 more]];
      try reflexivity.
    cbn [forallb] in Hremote.
    apply andb_true_iff in Hremote. destruct Hremote as [H1 Hremote].
    apply andb_true_iff in Hremote. destruct Hremote as [H2 _].
    unfold clean_candidate in H1, H2.
    apply andb_true_iff in H1. destruct H1 as [H1 _].
    apply andb_true_iff in H1. destruct H1 as [H1 _].
    apply andb_true_iff in H1. destruct H1 as [_ Hip1].
    apply andb_true_iff in H2. destruct H2 as [H2 _].
    apply andb_true_iff in H2. destruct H2 as [H2 _].
    apply andb_true_iff in H2. destruct H2 as [_ Hip2].
    cbn [forallb]. unfold clean_attr. cbn [fst snd].
    rewrite !nocr_app, !nocr_fmt_int, Hip1, Hip2. reflexivity. }
  rewrite Hr.
  destruct (first_rtcp_port cs =? 0); [reflexivity|].
  cbn [forallb]. unfold clean_attr. cbn [fst snd].
  rewrite nocr_fmt_int. reflexivity.
Qed.

Lemma clean_codec_attrs (codecs : list PurpleMediaCodec) :
  forallb clean_codec codecs = true ->
  forallb clean_attr (codec_attrs codecs) = true.
Proof.
  induction codecs as [|c next IH]; cbn [forallb codec_attrs flat_map];
    [reflexivity|].
  fold (codec_attrs next).
  intros H. apply andb_true_iff in H. destruct H as [Hc Hnext].
  unfold clean_codec in Hc.
  apply andb_true_iff in Hc. destruct Hc as [Hname Hparams].
  pose proof (nocr_fmtp_params _ Hparams) as Hp.
  cbn [app forallb]. rewrite forallb_app, (IH Hnext), andb_true_r.
  unfold clean_attr at 1, rtpmap_value. cbn [fst snd].
  rewrite !nocr_app, !nocr_fmt_int, Hname. unfold fmtp_value.
  destruct (optional_parameters c) as [|kv ps]; [reflexivity|].
  cbn [forallb]. unfold clean_attr. cbn [fst snd].
  rewrite nocr_app, nocr_fmt_int, Hp. reflexivity.
Qed.

(** ** The parser on what the formatter writes *)

Lemma parse_origin_line (ip : string) (rest : list string)
    (acc : sdp_frame) :
  parse_sdp_lines (("o=- 0 0 IN IP4 " ++ ip) :: rest) acc
  = parse_sdp_lines rest (mkFrame (frame_attrs acc) (Some ip)
                            (frame_port acc)).
Proof.
  cbn [parse_sdp_lines].
  change (g_str_has_prefix ("o=- 0 0 IN IP4 " ++ ip) "a=") with false.
  cbv iota.
  change ("o=- 0 0 IN IP4 " ++ ip)
    with ("o=" ++ join [("-", " "%char); ("0", " "%char); ("0", " "%char);
                        ("IN", " "%char); ("IP4", " "%char)] ip).
  unfold g_str_has_prefix. rewrite prefix_app.
  change ("o=" ++ ?x) with (String "o" (String "=" x)).
  rewrite after_prefix_two, g_strsplit_single,
    g_strsplit_set_nonempty by apply join_nonempty.
  change (6 <? 1) with false. cbv iota.
  change (Z.to_nat (6 - 1)) with 5%nat.
  rewrite split_set_join; [reflexivity | | now left].
  repeat constructor.
Qed.

Lemma parse_media_line (port : Z) (tail : string) (rest : list string)
    (acc : sdp_frame) :
  0 <= port < 65536 ->
  parse_sdp_lines (("m=audio " ++ fmt_int port ++ " RTP/AVP" ++ tail) :: rest)
    acc
  = parse_sdp_lines rest (mkFrame (frame_attrs acc) (frame_ip acc) port).
Proof.
  intros Hport. cbn [parse_sdp_lines].
  change (g_str_has_prefix ("m=audio " ++ fmt_int port ++ " RTP/AVP" ++ tail)
            "a=") with false.
  change (g_str_has_prefix ("m=audio " ++ fmt_int port ++ " RTP/AVP" ++ tail)
            "o=") with false.
  cbv iota.
  change ("m=audio " ++ fmt_int port ++ " RTP/AVP" ++ tail)
    with ("m=" ++ join [("audio", " "%char); (fmt_int port, " "%char)]
                    ("RTP/AVP" ++ tail)).
  unfold g_str_has_prefix. rewrite prefix_app.
  change ("m=" ++ ?x) with (String "m" (String "=" x)).
  rewrite after_prefix_two, g_strsplit_single,
    g_strsplit_set_nonempty by apply join_nonempty.
  change (3 <? 1) with false. cbv iota.
  change (Z.to_nat (3 - 1)) with 2%nat.
  rewrite split_set_join; [| | now left].
  - cbn [map fst app strv_get nth_error bind].
    rewrite atoi_fmt_int by (unfold INT_MIN, INT_MAX; lia).
    cbn [bind]. unfold to_guint16. now rewrite Z.mod_small.
  - constructor; [split; reflexivity|].
    constructor; [|constructor].
    split; [|reflexivity]. cbn [fst].
    apply free_of_weaken, free_of_fmt_int.
Qed.

Lemma local_port_range (env : engine) : 0 <= local_port env < 65536.
Proof.
  unfold local_port.
  destruct (purple_media_get_local_candidates env); [lia|].
  unfold to_guint16. apply Z.mod_pos_bound. lia.
Qed.

Lemma parse_head_lines (env : engine) (rest : list string)
    (acc : sdp_frame) :
  parse_sdp_lines (sdp_head_lines env ++ rest) acc
  = parse_sdp_lines rest
      (mkFrame (frame_attrs acc)
         (Some (sipe_utils_get_suitable_local_ip env)) (local_port env)).
Proof.
  unfold sdp_head_lines. cbn [app].
  rewrite (parse_skipped_line "v=0") by reflexivity.
  rewrite parse_origin_line.
  rewrite (parse_skipped_line "s=session") by reflexivity.
  rewrite (parse_skipped_line ("c=IN IP4 " ++ _)) by reflexivity.
  rewrite (parse_skipped_line "b=CT:99980") by reflexivity.
  rewrite (parse_skipped_line "t=0 0") by reflexivity.
  rewrite (parse_media_line (local_port env)) by apply local_port_range.
  reflexivity.
Qed.

Lemma parse_inactive_lines (call : sipe_media_call) (rest : list string)
    (acc : sdp_frame) :
  parse_sdp_lines (inactive_lines call ++ rest) acc
  = parse_sdp_lines rest
      (add_attrs acc match state call with
                     | SIPE_CALL_HELD => [("inactive", "")]
                     | _ => []
                     end).
Proof.
  unfold inactive_lines.
  destruct (state call); cbn [app]; rewrite ?add_attrs_nil; reflexivity.
Qed.

Lemma nocr_head_lines (env : engine) :
  nocr (sipe_utils_get_suitable_local_ip env) = true ->
  forallb nocr (sdp_head_lines env) = true.
Proof.
  intros Hip. unfold sdp_head_lines. cbn [forallb].
  rewrite !nocr_app, !nocr_fmt_int, Hip, nocr_codec_ids. reflexivity.
Qed.

Lemma parse_frame_lines (call : sipe_media_call) (frame : string) :
  sipe_media_parse_sdp_frame call frame
  = (r <- parse_sdp_lines (sdp_lines frame) (mkFrame [] None 0) ;;
     match r with
     | Some f =>
       Ok (with_sdp (frame_attrs f) (frame_ip f) (frame_port f) call, true)
     | None => Ok (call, false)
     end).
Proof. reflexivity. Qed.

(** The parser reads back what the formatter wrote. *)
Lemma create_sdp_parses (env : engine) (call : sipe_media_call)
    (flag : bool) (body : string) (peer : sipe_media_call) :
  clean env call = true ->
  sipe_media_create_sdp env call flag = Ok body ->
  sipe_media_parse_sdp_frame peer body
  = Ok (with_sdp (sdp_attrs_written env call flag)
          (Some (sipe_utils_get_suitable_local_ip env)) (local_port env)
          peer, true).
Proof.
  intros Hclean Hbody. apply create_sdp_text in Hbody. subst body.
  unfold clean in Hclean.
  apply andb_true_iff in Hclean. destruct Hclean as [H Hremote].
  apply andb_true_iff in H. destruct H as [H Hlocal].
  apply andb_true_iff in H. destruct H as [Hip Hcodecs].
  pose proof (clean_candidate_section _ call flag Hlocal Hremote) as HA.
  assert (HB : forallb clean_attr
                 (codec_attrs (purple_media_get_codecs env)
                  ++ [("encryption", "rejected")]) = true).
  { rewrite forallb_app, (clean_codec_attrs _ Hcodecs). reflexivity. }
  rewrite parse_frame_lines, sdp_lines_crlf_lines.
  - rewrite <- !app_assoc, parse_head_lines, parse_sdp_lines_app,
      (parse_attr_lines _ HA).
    cbn [bind]. rewrite parse_inactive_lines, parse_sdp_lines_app,
      (parse_attr_lines _ HB).
    cbn [bind parse_sdp_lines]. unfold sdp_attrs_written, add_attrs.
    cbn [frame_attrs frame_ip frame_port app].
    rewrite <- !app_assoc. reflexivity.
  - rewrite !forallb_app, (nocr_head_lines env Hip),
      (nocr_attr_lines _ HA), (nocr_attr_lines _ HB).
    unfold inactive_lines. now destruct (state call).
  - unfold sdp_head_lines. discriminate.
Qed.

(** X15: the parser reads back what the formatter wrote.  When [clean] holds
    (no carriage return in the local address, in the names and parameters of
    the local codecs, or in the foundation, address and credentials of the
    local candidates and of the call's remote candidates), a body built by
    [sipe_media_create_sdp] parses, and gives the attributes it was built
    from in their order, the address of its origin line, which is the local
    one, and the port of its media line, which is that of the first local
    candidate.  Identifier and clock rate of a codec are there as [%d]
    prints them. *)
Theorem formatted_sdp_parses_back :
  forall env call flag body peer,
    clean env call = true ->
    sipe_media_create_sdp env call flag = Ok body ->
    sipe_media_parse_sdp_frame peer body
    = Ok (with_sdp (sdp_attrs_written env call flag)
            (Some (sipe_utils_get_suitable_local_ip env)) (local_port env)
            peer, true).
Proof. exact create_sdp_parses. Qed.

Lemma formatted_sdp_parses_back_witness :
  exists body,
    sipe_media_create_sdp example_engine held_call true = Ok body /\
    sipe_media_parse_sdp_frame call_zero body
    = Ok (with_sdp
            [("ice-ufrag", "lufrag"); ("ice-pwd", "lpwd");
             ("candidate", "1 1 UDP 2130706431 192.168.1.2 6000 typ host ");
             ("candidate", "1 2 UDP 2130706431 192.168.1.2 6001 typ host ");
             ("remote-candidates", "1 10.0.0.5 5004 2 10.0.0.5 5005");
             ("maxptime", "200"); ("rtcp", "6001"); ("inactive", "");
             ("rtpmap", "0 PCMU/8000"); ("encryption", "rejected")]
            (Some "192.168.1.2") 6000 call_zero, true).
Proof.
  eexists. split; [vm_compute; reflexivity|].
  rewrite (formatted_sdp_parses_back example_engine held_call true _
             call_zero);
    vm_compute; reflexivity.
Defined.

(** ** Reading the attributes back *)

Lemma instances_app (a b : list (string * string)) (name : string) :
  instances (a ++ b) name = (instances a name ++ instances b name)%list.
Proof. unfold instances. now rewrite filter_app, map_app. Qed.

Lemma instances_other_names (names : list string)
    (l : list (string * string)) (name : string) :
  names_in names l = true ->
  existsb (String.eqb name) names = false ->
  instances l name = [].
Proof.
  intros Hl Hn. unfold instances.
  induction l as [|[n v] rest IH]; [reflexivity|].
  cbn [names_in forallb fst] in Hl.
  apply andb_true_iff in Hl. destruct Hl as [Hnv Hrest].
  cbn [filter fst].
  destruct (String.eqb_spec n name) as [->|Hne]; [|now apply IH].
  congruence.
Qed.

Lemma find_instance_app (a b : list (string * string)) (name : string) :
  sipe_utils_nameval_find (a ++ b) name
  = match sipe_utils_nameval_find a name with
    | Some v => Some v
    | None => sipe_utils_nameval_find b name
    end.
Proof.
  unfold sipe_utils_nameval_find.
  induction a as [|[n v] rest IH]; [reflexivity|].
  cbn [app sipe_utils_nameval_find_instance].
  destruct (String.eqb n name); [reflexivity | exact IH].
Qed.

Lemma find_other_names (names : list string) (l : list (string * string))
    (name : string) :
  names_in names l = true ->
  existsb (String.eqb name) names = false ->
  sipe_utils_nameval_find l name = None.
Proof.
  intros Hl Hn. unfold sipe_utils_nameval_find.
  rewrite nameval_find_instance_nth.
  now rewrite (instances_other_names names l name Hl Hn).
Qed.

Lemma candidate_section_names_in (cs : list PurpleMediaCandidate)
    (call : sipe_media_call) (flag : bool) :
  names_in candidate_section_names (candidate_section_attrs cs call flag)
  = true.
Proof.
  unfold candidate_section_attrs, names_in.
  destruct (legacy_mode call); [reflexivity|].
  destruct cs as [|first rest] eqn:E; [reflexivity|]. rewrite <- E.
  rewrite !forallb_app. cbn [forallb fst].
  assert (Hc : forallb
                 (fun nv => existsb (String.eqb (fst nv))
                              candidate_section_names)
                 (map (fun c => ("candidate", candidate_value c)) cs) = true).
  { clear. induction cs as [|c next IH]; [reflexivity|].
    cbn [map forallb fst]. now rewrite IH. }
  rewrite Hc.
  assert (Hr : forallb
                 (fun nv => existsb (String.eqb (fst nv))
                              candidate_section_names)
                 (if flag then remote_candidates_attr call else []) = true).
  { destruct flag; [|reflexivity]. unfold remote_candidates_attr.
    now destruct (remote_candidates call) as [|c1 [|c2 more]]. }
  rewrite Hr.
  now destruct (first_rtcp_port cs =? 0).
Qed.

Lemma codec_attrs_names_in (codecs : list PurpleMediaCodec) :
  names_in ["rtpmap"; "fmtp"] (codec_attrs codecs) = true.
Proof.
  unfold names_in, codec_attrs.
  induction codecs as [|c next IH]; [reflexivity|].
  cbn [flat_map]. rewrite forallb_app, IH, andb_true_r.
  now destruct (optional_parameters c).
Qed.

Lemma codec_attrs_rtpmap (codecs : list PurpleMediaCodec) :
  instances (codec_attrs codecs) "rtpmap" = map rtpmap_value codecs.
Proof.
  induction codecs as [|c next IH]; [reflexivity|].
  cbn [codec_attrs flat_map]. fold (codec_attrs next).
  rewrite instances_app, IH.
  now destruct (optional_parameters c).
Qed.

(** X16: the peer sees a hold exactly when the call is held.  When [clean]
    holds (no carriage return in the local address, in the names and
    parameters of the local codecs, or in the foundation, address and
    credentials of the local candidates and of the call's remote
    candidates), the body built for a held call, and no other, parses into
    attributes among which the handler of a re-INVITE finds the [inactive]
    marker. *)
Theorem formatted_sdp_shows_hold_exactly_when_held :
  forall env call flag body peer peer',
    clean env call = true ->
    sipe_media_create_sdp env call flag = Ok body ->
    sipe_media_parse_sdp_frame peer body = Ok (peer', true) ->
    sipe_utils_nameval_find (sdp_attrs peer') "inactive"
    = match state call with
      | SIPE_CALL_HELD => Some ""
      | _ => None
      end.
Proof.
  intros env call flag body peer peer' Hclean Hbody Hparse.
  rewrite (create_sdp_parses env call flag body peer Hclean Hbody) in Hparse.
  apply Ok_inj in Hparse. injection Hparse as <-.
  cbn [sdp_attrs with_sdp]. unfold sdp_attrs_written.
  rewrite !find_instance_app.
  rewrite (find_other_names candidate_section_names
             (candidate_section_attrs _ call flag) "inactive")
    by (apply candidate_section_names_in || reflexivity).
  rewrite (find_other_names ["rtpmap"; "fmtp"]
             (codec_attrs (purple_media_get_codecs env)) "inactive")
    by (apply codec_attrs_names_in || reflexivity).
  now destruct (state call).
Qed.

Lemma formatted_sdp_shows_hold_exactly_when_held_witness :
  exists body peer',
    sipe_media_create_sdp example_engine held_call true = Ok body /\
    sipe_media_parse_sdp_frame call_zero body = Ok (peer', true) /\
    sipe_utils_nameval_find (sdp_attrs peer') "inactive" = Some "".
Proof.
  assert (Hc : clean example_engine held_call = true) by reflexivity.
  destruct (create_sdp_total example_engine held_call true eq_refl)
    as [body Hb].
  pose proof (create_sdp_parses example_engine held_call true body
                call_zero Hc Hb) as Hp.
  eexists body, _. split; [exact Hb|]. split; [exact Hp|].
  exact (formatted_sdp_shows_hold_exactly_when_held example_engine
           held_call true body call_zero _ Hc Hb Hp).
Defined.

(** *** Codecs through the wire *)

Lemma rtpmap_value_join (c : PurpleMediaCodec) :
  rtpmap_value c
  = join [(fmt_int (to_gint (codec_id c)), " "%char);
          (fmt_str (encoding_name c), "/"%char)]
      (fmt_int (to_gint (clock_rate c))).
Proof. reflexivity. Qed.

Lemma to_guint32_small (z : Z) : 0 <= z <= INT_MAX -> to_guint32 z = z.
Proof.
  unfold to_guint32, INT_MAX. intros H. apply Z.mod_small. lia.
Qed.

Lemma to_gint_range (z : Z) : INT_MIN <= to_gint z <= INT_MAX.
Proof.
  unfold to_gint, INT_MIN, INT_MAX.
  pose proof (Z.mod_pos_bound (z + 2 ^ 31) (2 ^ 32)). lia.
Qed.

Lemma to_gint_small (z : Z) : INT_MIN <= z <= INT_MAX -> to_gint z = z.
Proof.
  unfold to_gint, INT_MIN, INT_MAX. intros H.
  rewrite Z.mod_small; lia.
Qed.

(** A [guint] printed with [%d] and read with [atoi] is the same [guint]
    again. *)
Lemma to_guint32_to_gint (z : Z) :
  0 <= z < 2 ^ 32 -> to_guint32 (to_gint z) = z.
Proof.
  unfold to_guint32, to_gint. intros H.
  change 4294967296 with (2 ^ 32).
  rewrite Zminus_mod, Z.mod_mod, <- Zminus_mod by lia.
  replace (z + 2 ^ 31 - 2 ^ 31) with z by lia.
  apply Z.mod_small, H.
Qed.

(** [%d] of a clock rate beyond [INT_MAX], and what is read from it. *)
Example rtpmap_line_wraps_clock_rate :
  rtpmap_line (mkCodec 96 (Some "X") 4294967295 [])
  = "a=rtpmap:96 X/-1" ++ CRLF /\
  parse_rtpmap "96 X/-1" = Ok (mkCodec 96 (Some "X") 4294967295 []).
Proof. split; reflexivity. Qed.

(** One [rtpmap] value, written and read. *)
Lemma parse_rtpmap_value (c : PurpleMediaCodec) :
  codec_round_trips c = true ->
  parse_rtpmap (rtpmap_value c) = Ok (bare_codec c).
Proof.
  unfold codec_round_trips. intros H.
  repeat (apply andb_true_iff in H; destruct H as [H ?]).
  destruct (encoding_name c) as [n|] eqn:En; [|discriminate].
  unfold parse_rtpmap. rewrite rtpmap_value_join, En. cbn [fmt_str].
  rewrite g_strsplit_set_nonempty by apply join_nonempty.
  change (if 3 <? 1 then _ else Z.to_nat (3 - 1)) with 2%nat.
  rewrite split_set_join.
  - cbn [map fst app strv_get nth_error bind].
    rewrite atoi_fmt_int by apply to_gint_range.
    cbn [map fst app strv_get nth_error bind].
    rewrite atoi_fmt_int by apply to_gint_range.
    cbn [bind].
    rewrite to_gint_small by (unfold INT_MIN, INT_MAX in *; lia).
    rewrite to_guint32_to_gint by lia.
    unfold bare_codec. now rewrite En.
  - repeat constructor; cbn [fst snd]; trivial.
    apply free_of_fmt_int.
  - now left.
Qed.

Lemma parse_codecs_loop_values (codecs : list PurpleMediaCodec) :
  forallb codec_round_trips codecs = true ->
  parse_codecs_loop (map rtpmap_value codecs) []
  = Ok (map bare_codec codecs).
Proof.
  induction codecs as [|c next IH]; intros H; [reflexivity|].
  cbn [forallb] in H. apply andb_true_iff in H. destruct H as [Hc Hnext].
  cbn [map parse_codecs_loop]. rewrite (parse_rtpmap_value c Hc).
  cbn [bind app]. rewrite parse_codecs_loop_app, (IH Hnext).
  reflexivity.
Qed.

Lemma written_rtpmap (env : engine) (call : sipe_media_call) (flag : bool) :
  instances (sdp_attrs_written env call flag) "rtpmap"
  = map rtpmap_value (purple_media_get_codecs env).
Proof.
  unfold sdp_attrs_written. rewrite !instances_app, codec_attrs_rtpmap.
  rewrite (instances_other_names candidate_section_names
             (candidate_section_attrs _ call flag) "rtpmap")
    by (apply candidate_section_names_in || reflexivity).
  replace (instances match state call with
                     | SIPE_CALL_HELD => [("inactive", "")]
                     | _ => []
                     end "rtpmap") with (@nil string)
    by now destruct (state call).
  cbn [app]. apply app_nil_r.
Qed.

(** X17: the codecs come back from the wire.  When [clean] holds (no
    carriage return in the local address, in the names and parameters of the
    local codecs, or in the foundation, address and credentials of the local
    candidates and of the call's remote candidates) and every local codec
    has an encoding name without space or slash, an identifier that is an
    [int] and a clock rate that is a [guint], the body
    [sipe_media_create_sdp] builds is parsed by [sipe_media_parse_sdp_frame]
    into a call from which [sipe_media_parse_remote_codecs] reads the local
    codecs, in order, each without its optional parameters.  A clock rate
    beyond [INT_MAX] is written as a negative number and read back as it
    was. *)
Theorem formatted_codecs_read_back :
  forall env call flag body peer,
    clean env call = true ->
    forallb codec_round_trips (purple_media_get_codecs env) = true ->
    sipe_media_create_sdp env call flag = Ok body ->
    exists peer',
      sipe_media_parse_sdp_frame peer body = Ok (peer', true) /\
      sipe_media_parse_remote_codecs peer'
      = Ok (map bare_codec (purple_media_get_codecs env)).
Proof.
  intros env call flag body peer Hclean Hcodecs Hbody.
  eexists. split; [exact (create_sdp_parses _ _ _ _ peer Hclean Hbody)|].
  unfold sipe_media_parse_remote_codecs.
  change (sdp_attrs (with_sdp ?a ?i ?p ?c)) with a.
  rewrite written_rtpmap. now apply parse_codecs_loop_values.
Qed.

Lemma formatted_codecs_read_back_witness :
  exists body peer',
    sipe_media_create_sdp tcp_udp_engine running_call true = Ok body /\
    sipe_media_parse_sdp_frame call_zero body = Ok (peer', true) /\
    sipe_media_parse_remote_codecs peer' = Ok [PCMU 0; SPEEX 97].
Proof.
  assert (Hc : clean tcp_udp_engine running_call = true) by reflexivity.
  destruct (create_sdp_total tcp_udp_engine running_call true eq_refl)
    as [body Hb].
  destruct (formatted_codecs_read_back tcp_udp_engine running_call true body
              call_zero Hc eq_refl Hb) as (peer' & Hp & Hr).
  exists body, peer'. split; [exact Hb|]. split; [exact Hp | exact Hr].
Defined.

(** *** Candidates through the wire *)

Lemma candidate_value_join (c : PurpleMediaCandidate) :
  candidate_value c = join (candidate_tokens c) "".
Proof. reflexivity. Qed.

Lemma free_of_space_fmt_int (z : Z) : free_of " " (fmt_int z) = true.
Proof. apply free_of_weaken, free_of_fmt_int. Qed.

Lemma to_guint16_idem (z : Z) : to_guint16 (to_guint16 z) = to_guint16 z.
Proof. unfold to_guint16. apply Z.mod_mod. lia. Qed.

Lemma to_guint16_range (z : Z) : INT_MIN <= to_guint16 z <= INT_MAX.
Proof.
  unfold to_guint16, INT_MIN, INT_MAX.
  pose proof (Z.mod_pos_bound z 65536). lia.
Qed.

Lemma candidate_tokens_split (c : PurpleMediaCandidate) :
  candidate_round_trips c = true ->
  g_strsplit_set (candidate_value c) " " 0
  = [fmt_str (cand_foundation c); fmt_int (component_number c);
     protocol_name c; fmt_int (cand_priority c); fmt_str (cand_ip c);
     fmt_int (to_guint16 (cand_port c)); "typ"; type_name c; ""].
Proof.
  unfold candidate_round_trips. intros H.
  repeat (apply andb_true_iff in H; destruct H as [H ?]).
  rewrite candidate_value_join.
  rewrite g_strsplit_set_nonempty by apply join_nonempty.
  change (0 <? 1) with true. cbv iota.
  rewrite split_set_join; [reflexivity| |].
  - unfold candidate_tokens.
    repeat constructor; cbn [fst snd]; trivial;
      try apply free_of_space_fmt_int.
    + destruct (cand_foundation c); cbn [fmt_str]; congruence.
    + unfold protocol_name. now destruct (cand_protocol c).
    + destruct (cand_ip c); cbn [fmt_str]; congruence.
    + unfold type_name. now destruct (cand_type c).
  - right. split; [apply length_join | reflexivity].
Qed.

(** One [candidate] value, written and read: a candidate over TCP is
    skipped. *)
Lemma parse_candidate_value (c : PurpleMediaCandidate) :
  candidate_round_trips c = true ->
  parse_candidate (candidate_value c)
  = Ok (if is_udp c then Some (bare_candidate c) else None).
Proof.
  intros Hc. unfold parse_candidate.
  rewrite (candidate_tokens_split c Hc).
  unfold candidate_round_trips in Hc.
  repeat (apply andb_true_iff in Hc; destruct Hc as [Hc ?]).
  cbn [strv_get nth_error bind].
  rewrite atoi_fmt_int
    by (unfold component_number, INT_MIN, INT_MAX;
        destruct (cand_component c); lia).
  cbn [strv_get nth_error bind].
  unfold is_udp, protocol_name.
  destruct (cand_protocol c) eqn:Ep; [|reflexivity].
  cbn [sipe_strequal g_strcmp0_eq String.eqb Ascii.eqb Bool.eqb negb].
  rewrite atoi_fmt_int by (unfold INT_MIN, INT_MAX in *; lia).
  cbn [strv_get nth_error bind].
  rewrite atoi_fmt_int by apply to_guint16_range.
  cbn [strv_get nth_error bind].
  rewrite to_guint16_idem,
    to_guint32_small by (unfold INT_MIN, INT_MAX in *; lia).
  destruct (cand_foundation c) as [f|] eqn:Ef; [|discriminate].
  destruct (cand_ip c) as [ip|] eqn:Ei; [|discriminate].
  unfold bare_candidate, component_number, type_name.
  rewrite Ef, Ei, Ep.
  destruct (cand_component c); try discriminate;
    destruct (cand_type c); try discriminate; reflexivity.
Qed.

Lemma parse_candidates_loop_values (cs acc : list PurpleMediaCandidate) :
  forallb candidate_round_trips cs = true ->
  parse_candidates_loop (map candidate_value cs) acc
  = Ok (acc ++ map bare_candidate (filter is_udp cs))%list.
Proof.
  revert acc. induction cs as [|c next IH]; intros acc H.
  - cbn. now rewrite app_nil_r.
  - cbn [forallb] in H. apply andb_true_iff in H. destruct H as [Hc Hnext].
    cbn [map parse_candidates_loop filter].
    rewrite (parse_candidate_value c Hc). cbn [bind].
    destruct (is_udp c); rewrite (IH _ Hnext); [|reflexivity].
    cbn [map]. now rewrite <- app_assoc.
Qed.

Lemma instances_candidate_values (cs : list PurpleMediaCandidate) :
  instances (map (fun c => ("candidate", candidate_value c)) cs) "candidate"
  = map candidate_value cs.
Proof.
  unfold instances. induction cs as [|c next IH]; [reflexivity|].
  cbn [map filter fst snd String.eqb Ascii.eqb Bool.eqb] in *.
  now rewrite IH.
Qed.

Lemma instances_held_marker (call : sipe_media_call) (name : string) :
  String.eqb "inactive" name = false ->
  instances match state call with
            | SIPE_CALL_HELD => [("inactive", "")]
            | _ => []
            end name = [].
Proof.
  intros H. destruct (state call); trivial.
  unfold instances. cbn [filter fst]. now rewrite H.
Qed.

(** The [candidate] values of a body. *)
Lemma written_candidates (env : engine) (call : sipe_media_call)
    (flag : bool) :
  instances (sdp_attrs_written env call flag) "candidate"
  = if legacy_mode call then []
    else map candidate_value (purple_media_get_local_candidates env).
Proof.
  unfold sdp_attrs_written. rewrite !instances_app.
  rewrite (instances_held_marker call "candidate") by reflexivity.
  rewrite (instances_other_names ["rtpmap"; "fmtp"]
             (codec_attrs (purple_media_get_codecs env)) "candidate")
    by (apply codec_attrs_names_in || reflexivity).
  cbn [app]. change (instances [("encryption", "rejected")] "candidate")
    with (@nil string).
  rewrite app_nil_r. unfold candidate_section_attrs.
  destruct (legacy_mode call); [reflexivity|].
  destruct (purple_media_get_local_candidates env) as [|first rest] eqn:E;
    [reflexivity|].
  rewrite !instances_app, instances_candidate_values.
  change (instances [("ice-ufrag", fmt_str (cand_username first));
                     ("ice-pwd", fmt_str (cand_password first))] "candidate")
    with (@nil string).
  replace (instances (if flag then remote_candidates_attr call else [])
             "candidate") with (@nil string).
  2:{ destruct flag; [|reflexivity]. unfold remote_candidates_attr.
      now destruct (remote_candidates call) as [|c1 [|c2 more]]. }
  replace (instances
             (if first_rtcp_port (first :: rest) =? 0 then []
              else [("maxptime", "200");
                    ("rtcp", fmt_int (first_rtcp_port (first :: rest)))])
             "candidate") with (@nil string)
    by now destruct (first_rtcp_port (first :: rest) =? 0).
  cbn [app]. now rewrite app_nil_r.
Qed.

Lemma find_held_marker (call : sipe_media_call) (name : string) :
  String.eqb "inactive" name = false ->
  sipe_utils_nameval_find match state call with
                          | SIPE_CALL_HELD => [("inactive", "")]
                          | _ => []
                          end name = None.
Proof.
  intros H. destruct (state call); trivial.
  unfold sipe_utils_nameval_find. cbn [sipe_utils_nameval_find_instance].
  now rewrite H.
Qed.

(** A name that is neither that of the hold marker nor that of a codec
    line: it is found in the candidate section or not at all. *)
Lemma find_in_candidate_section (env : engine) (call : sipe_media_call)
    (flag : bool) (name : string) :
  String.eqb "inactive" name = false ->
  existsb (String.eqb name) ["rtpmap"; "fmtp"; "encryption"] = false ->
  sipe_utils_nameval_find (sdp_attrs_written env call flag) name
  = sipe_utils_nameval_find
      (candidate_section_attrs (purple_media_get_local_candidates env) call
         flag) name.
Proof.
  intros Hi Hn. unfold sdp_attrs_written. rewrite !find_instance_app.
  rewrite (find_held_marker call name Hi).
  cbn [existsb] in Hn. apply orb_false_iff in Hn. destruct Hn as [Hr Hn].
  apply orb_false_iff in Hn. destruct Hn as [Hf Hn].
  apply orb_false_iff in Hn. destruct Hn as [He _].
  rewrite (find_other_names ["rtpmap"; "fmtp"]
             (codec_attrs (purple_media_get_codecs env)) name)
    by (apply codec_attrs_names_in || (cbn [existsb]; now rewrite Hr, Hf)).
  replace (sipe_utils_nameval_find [("encryption", "rejected")] name)
    with (@None string).
  - now destruct (sipe_utils_nameval_find _ name).
  - unfold sipe_utils_nameval_find.
    cbn [sipe_utils_nameval_find_instance].
    now rewrite String.eqb_sym, He.
Qed.

(** X18: the candidates come back from the wire.  Outside legacy mode, when
    [clean] holds (no carriage return in the local address, in the names and
    parameters of the local codecs, or in the foundation, address and
    credentials of the local candidates and of the call's remote
    candidates), every local candidate is of a component and type the
    formatter knows, has a foundation and an address without a space and a
    priority that is a non-negative [int], and one of them is over UDP, the
    peer that parses the body and resolves its candidates gets the local
    candidates over UDP, in order: the port as a [guint16], the ICE
    credentials of the first local candidate on each, and no fall-back to
    legacy mode.  Candidates over TCP are written and then dropped. *)
Theorem formatted_candidates_read_back :
  forall env call flag body peer first rest,
    clean env call = true ->
    legacy_mode call = false ->
    purple_media_get_local_candidates env = first :: rest ->
    forallb candidate_round_trips (first :: rest) = true ->
    existsb is_udp (first :: rest) = true ->
    sipe_media_create_sdp env call flag = Ok body ->
    exists peer',
      sipe_media_parse_sdp_frame peer body = Ok (peer', true) /\
      sipe_media_parse_remote_candidates peer'
      = Ok (map (as_seen_by_peer first) (filter is_udp (first :: rest)),
            peer').
Proof.
  intros env call flag body peer first rest Hclean Hlegacy Hlocal Hround
    Hudp Hbody.
  eexists. split; [exact (create_sdp_parses _ _ _ _ peer Hclean Hbody)|].
  unfold sipe_media_parse_remote_candidates, accepted_candidates.
  change (sdp_attrs (with_sdp ?a ?i ?p ?c)) with a.
  rewrite written_candidates, Hlegacy, Hlocal.
  rewrite (parse_candidates_loop_values _ [] Hround). cbn [bind app].
  rewrite !find_in_candidate_section by reflexivity.
  unfold candidate_section_attrs. rewrite Hlegacy, Hlocal.
  change (sipe_utils_nameval_find (_ ++ _) "ice-ufrag")
    with (Some (fmt_str (cand_username first))).
  change (sipe_utils_nameval_find (_ ++ _) "ice-pwd")
    with (Some (fmt_str (cand_password first))).
  destruct (filter is_udp (first :: rest)) as [|u more] eqn:Eu.
  - exfalso. apply existsb_exists in Hudp. destruct Hudp as (x & Hin & Hx).
    assert (Hf : In x (filter is_udp (first :: rest)))
      by (apply filter_In; auto).
    now rewrite Eu in Hf.
  - cbn [map]. cbv beta iota zeta. cbn [map]. now rewrite map_map.
Qed.

Lemma formatted_candidates_read_back_witness :
  exists body peer',
    sipe_media_create_sdp tcp_udp_engine running_call true = Ok body /\
    sipe_media_parse_sdp_frame call_zero body = Ok (peer', true) /\
    sipe_media_parse_remote_candidates peer'
    = Ok ([mkCandidate (Some "2") PURPLE_MEDIA_COMPONENT_RTP
             PURPLE_MEDIA_CANDIDATE_TYPE_SRFLX
             PURPLE_MEDIA_NETWORK_PROTOCOL_UDP (Some "198.51.100.7") 6004
             1694498815 (Some "lufrag") (Some "lpwd");
           mkCandidate (Some "2") PURPLE_MEDIA_COMPONENT_RTCP
             PURPLE_MEDIA_CANDIDATE_TYPE_SRFLX
             PURPLE_MEDIA_NETWORK_PROTOCOL_UDP (Some "198.51.100.7") 6005
             1694498814 (Some "lufrag") (Some "lpwd")], peer').
Proof.
  assert (Hc : clean tcp_udp_engine running_call = true) by reflexivity.
  destruct (create_sdp_total tcp_udp_engine running_call true eq_refl)
    as [body Hb].
  destruct (formatted_candidates_read_back tcp_udp_engine running_call true
              body call_zero _ _ Hc eq_refl eq_refl eq_refl eq_refl Hb)
    as (peer' & Hp & Hr).
  exists body, peer'. split; [exact Hb|]. split; [exact Hp | exact Hr].
Defined.

(** X19: legacy mode spreads.  When [clean] holds (no carriage return in the
    local address, in the names and parameters of the local codecs, or in
    the foundation, address and credentials of the local candidates and of
    the call's remote candidates), the body built for a call in legacy mode
    has no candidate and no ICE credential, so the peer that parses it and
    resolves its candidates falls back to legacy mode itself, with the pair
    of host candidates at the address of the origin line: RTP at the port of
    the media line, that of the first local candidate, and RTCP at the next
    port, whatever the port of the local RTCP candidate. *)
Theorem legacy_body_makes_peer_legacy :
  forall env call flag body peer,
    clean env call = true ->
    legacy_mode call = true ->
    sipe_media_create_sdp env call flag = Ok body ->
    exists peer',
      sipe_media_parse_sdp_frame peer body = Ok (peer', true) /\
      sipe_media_parse_remote_candidates peer'
      = Ok ([purple_media_candidate_new (Some "foundation")
               PURPLE_MEDIA_COMPONENT_RTP PURPLE_MEDIA_CANDIDATE_TYPE_HOST
               PURPLE_MEDIA_NETWORK_PROTOCOL_UDP
               (Some (sipe_utils_get_suitable_local_ip env))
               (local_port env);
             purple_media_candidate_new (Some "foundation")
               PURPLE_MEDIA_COMPONENT_RTCP PURPLE_MEDIA_CANDIDATE_TYPE_HOST
               PURPLE_MEDIA_NETWORK_PROTOCOL_UDP
               (Some (sipe_utils_get_suitable_local_ip env))
               (local_port env + 1)],
            with_legacy_mode true peer').
Proof.
  intros env call flag body peer Hclean Hlegacy Hbody.
  eexists. split; [exact (create_sdp_parses _ _ _ _ peer Hclean Hbody)|].
  unfold sipe_media_parse_remote_candidates, accepted_candidates.
  change (sdp_attrs (with_sdp ?a ?i ?p ?c)) with a.
  rewrite written_candidates, Hlegacy.
  cbn [parse_candidates_loop bind].
  rewrite !find_in_candidate_section by reflexivity.
  unfold candidate_section_attrs. rewrite Hlegacy.
  reflexivity.
Qed.

Lemma legacy_body_makes_peer_legacy_witness :
  exists body peer',
    sipe_media_create_sdp example_engine legacy_running_call false = Ok body /\
    sipe_media_parse_sdp_frame call_zero body = Ok (peer', true) /\
    sipe_media_parse_remote_candidates peer'
    = Ok ([mkCandidate (Some "foundation") PURPLE_MEDIA_COMPONENT_RTP
             PURPLE_MEDIA_CANDIDATE_TYPE_HOST
             PURPLE_MEDIA_NETWORK_PROTOCOL_UDP (Some "192.168.1.2") 6000 0
             None None;
           mkCandidate (Some "foundation") PURPLE_MEDIA_COMPONENT_RTCP
             PURPLE_MEDIA_CANDIDATE_TYPE_HOST
             PURPLE_MEDIA_NETWORK_PROTOCOL_UDP (Some "192.168.1.2") 6001 0
             None None], with_legacy_mode true peer').
Proof.
  assert (Hc : clean example_engine legacy_running_call = true)
    by reflexivity.
  destruct (create_sdp_total example_engine legacy_running_call false eq_refl)
    as [body Hb].
  destruct (legacy_body_makes_peer_legacy example_engine legacy_running_call
              false body call_zero Hc eq_refl Hb) as (peer' & Hp & Hr).
  exists body, peer'. split; [exact Hb|]. split; [exact Hp | exact Hr].
Defined.

(** *** The end of a call *)

Section StreamInfoKeeps.

Variable env : engine.
Variable emit : PurpleMediaInfoType -> bool -> option sipe_media_call ->
                outcome result.
Hypothesis emit_keeps : forall type local call,
  ending type = false -> keeps_call (emit type local (Some call)).

Lemma cb_body_keeps (type : PurpleMediaInfoType) (local : bool)
    (call : sipe_media_call) :
  ending type = false ->
  keeps_call (stream_info_cb_body emit env type local (Some call)).
Proof.
  destruct type; cbn [ending]; intros Ht; try discriminate;
    cbn [stream_info_cb_body bind keeps_call]; trivial.
  - destruct (sipe_media_session_ready_cb env call) as [[c o]| |];
      cbn; trivial.
  - destruct (SipeCallState_eqb (state call) SIPE_CALL_HELD);
      [exact I|].
    destruct (notify_state_change env _ local);
      cbn [bind keeps_call]; trivial.
    pose proof (emit_keeps PURPLE_MEDIA_INFO_HOLD true
                  (with_state SIPE_CALL_HELD call) eq_refl) as H.
    destruct (emit _ _ _) as [[[c|] o]| |]; cbn in *; trivial.
  - destruct (SipeCallState_eqb (state call) SIPE_CALL_RUNNING);
      [exact I|].
    destruct (notify_state_change env _ local);
      cbn [bind keeps_call]; trivial.
    pose proof (emit_keeps PURPLE_MEDIA_INFO_UNHOLD true
                  (with_state SIPE_CALL_RUNNING call) eq_refl) as H.
    destruct (emit _ _ _) as [[[c|] o]| |]; cbn in *; trivial.
Qed.

End StreamInfoKeeps.

Lemma stream_info_keeps (fuel : nat) (env : engine)
    (type : PurpleMediaInfoType) (local : bool) (call : sipe_media_call) :
  ending type = false ->
  keeps_call (purple_media_stream_info fuel env type local (Some call)).
Proof.
  revert type local call.
  induction fuel as [|fuel IH]; intros type local call Ht;
    cbn [purple_media_stream_info]; [exact I|].
  pose proof (cb_body_keeps env _ IH type local call Ht) as H.
  destruct (stream_info_cb_body _ env type local (Some call))
    as [[[c|] o]| |]; cbn in *; trivial.
Qed.

Lemma reinvite_keeps (fuel : nat) (env : engine) (call : sipe_media_call)
    (msg : sipmsg) :
  keeps_call (reinvite fuel env call msg).
Proof.
  unfold reinvite.
  destruct (sipe_media_parse_sdp_frame _ _) as [[c b]| |];
    cbn [bind]; [|exact I|exact I].
  destruct (legacy_mode c && _); [now apply stream_info_keeps|].
  destruct (sipe_utils_nameval_find _ _); [now apply stream_info_keeps|].
  destruct (SipeCallState_eqb _ _); [now apply stream_info_keeps|].
  unfold negotiate_codecs.
  destruct (sipe_media_parse_remote_codecs c); cbn [bind keeps_call]; trivial.
  destruct (sipe_media_create_sdp _ _ _); cbn [bind keeps_call]; trivial.
Qed.

(** X20: what ends a call.  Of the events served for a call in progress,
    exactly three destroy it: the REJECT signal, which answers the
    invitation with 603 Decline; the HANGUP signal, which sends BYE when it
    is local and nothing otherwise; and [sipe_media_hangup], which passes
    HANGUP to the media engine as a remote one, so that no BYE is sent.
    Every other event, an INVITE and the nested signals of a hold
    included, leaves a call in place. *)
Theorem call_ends_exactly_on_reject_or_hangup :
  forall env ev call media_call out,
    handle env ev (Some call) = Ok (media_call, out) ->
    match ends_with ev call with
    | Some sent => media_call = None /\ out = sent
    | None => media_call <> None
    end.
Proof.
  intros env ev call media_call out E.
  assert (K : forall r, keeps_call r -> r = Ok (media_call, out) ->
                        media_call <> None).
  { intros r Hr ->. now destruct media_call. }
  destruct ev as [msg|type local| | | |]; cbn [handle ends_with] in *.
  - unfold sipe_media_incoming_invite in E.
    destruct (sipe_strequal _ _).
    + exact (K _ (reinvite_keeps _ env call msg) E).
    + apply Ok_inj in E. now inversion E.
  - destruct (ending type) eqn:Et.
    + destruct type; try discriminate;
        cbn [sipe_media_stream_info_cb stream_info_cb_body bind] in E;
        apply Ok_inj in E; inversion E; subst; auto.
    + pose proof (K _ (cb_body_keeps env _
                         (stream_info_keeps signal_depth env) type local
                         call Et) E) as Hk.
      destruct type; try discriminate; exact Hk.
  - destruct (sipe_media_session_ready_cb env call) as [[c o]| |];
      cbn [bind] in E; try discriminate.
    apply Ok_inj in E. now inversion E.
  - exact (K _ (stream_info_keeps _ env PURPLE_MEDIA_INFO_HOLD false call
                  eq_refl) E).
  - exact (K _ (stream_info_keeps _ env PURPLE_MEDIA_INFO_UNHOLD false call
                  eq_refl) E).
  - cbn in E. apply Ok_inj in E. now inversion E.
Qed.

Lemma call_ends_exactly_on_reject_or_hangup_witness :
  handle example_engine EvHangup (Some running_call)
  = Ok (None, [stream_info PURPLE_MEDIA_INFO_HANGUP false]) /\
  (@None sipe_media_call = None /\
   [stream_info PURPLE_MEDIA_INFO_HANGUP false]
   = [stream_info PURPLE_MEDIA_INFO_HANGUP false]).
Proof.
  split; [reflexivity|].
  exact (call_ends_exactly_on_reject_or_hangup example_engine EvHangup
           running_call None [stream_info PURPLE_MEDIA_INFO_HANGUP false]
           eq_refl).
Defined.

(** *** What goes to the peer *)

Lemma messages_app (a b : list effect) :
  messages (a ++ b) = (messages a + messages b)%nat.
Proof. unfold messages. now rewrite filter_app, length_app. Qed.

Lemma notify_one_message (env : engine) (call : sipe_media_call)
    (local : bool) :
  match notify_state_change env call local with
  | Ok out => messages out = 1%nat
  | _ => True
  end.
Proof.
  unfold notify_state_change, sipe_invite_call.
  destruct local; destruct (sipe_media_create_sdp env call true);
    cbn [bind]; trivial.
Qed.

Lemma session_ready_at_most_one (env : engine) (call : sipe_media_call) :
  match sipe_media_session_ready_cb env call with
  | Ok (_, out) => (messages out <= 1)%nat
  | _ => True
  end.
Proof.
  unfold sipe_media_session_ready_cb.
  destruct (purple_media_candidates_prepared env); cbn [negb];
    [|cbn; lia].
  destruct (sdp_response call); cbn [bind].
  - destruct (purple_media_accepted env); cbn [negb]; [cbn; lia|].
    destruct (negb (legacy_mode _)); cbn; lia.
  - destruct (sipe_media_create_sdp env call false); cbn [bind]; trivial.
    destruct (purple_media_accepted env); cbn [negb]; [cbn; lia|].
    destruct (negb (legacy_mode _)); cbn; lia.
Qed.

(** A hold asked of a held call, and an unhold asked of a running one,
    stop at once. *)
Lemma stream_info_hold_held (n : nat) (env : engine) (local : bool)
    (call : sipe_media_call) :
  state call = SIPE_CALL_HELD ->
  purple_media_stream_info (S n) env PURPLE_MEDIA_INFO_HOLD local (Some call)
  = Ok (Some call, [stream_info PURPLE_MEDIA_INFO_HOLD local]).
Proof.
  intros H. cbn [purple_media_stream_info stream_info_cb_body bind].
  now rewrite H.
Qed.

Lemma stream_info_unhold_running (n : nat) (env : engine) (local : bool)
    (call : sipe_media_call) :
  state call = SIPE_CALL_RUNNING ->
  purple_media_stream_info (S n) env PURPLE_MEDIA_INFO_UNHOLD local
    (Some call)
  = Ok (Some call, [stream_info PURPLE_MEDIA_INFO_UNHOLD local]).
Proof.
  intros H. cbn [purple_media_stream_info stream_info_cb_body bind].
  now rewrite H.
Qed.

(** The callback, when the nested signal of a hold or unhold is served. *)
Lemma cb_at_most_one (n : nat) (env : engine) (type : PurpleMediaInfoType)
    (local : bool) (media_call : option sipe_media_call) :
  at_most_one_message
    (stream_info_cb_body (purple_media_stream_info (S n) env) env type local
       media_call).
Proof.
  destruct media_call as [call|];
    destruct type; cbn [stream_info_cb_body bind at_most_one_message];
    trivial; try (cbn; lia).
  - destruct local; cbn; lia.
  - pose proof (session_ready_at_most_one env call) as H.
    destruct (sipe_media_session_ready_cb env call) as [[c o]| |];
      cbn [bind at_most_one_message]; trivial.
  - destruct (SipeCallState_eqb (state call) SIPE_CALL_HELD);
      [cbn; lia|].
    pose proof (notify_one_message env (with_state SIPE_CALL_HELD call)
                  local) as H.
    destruct (notify_state_change env _ local) as [o| |];
      cbn [bind at_most_one_message]; trivial.
    rewrite stream_info_hold_held by reflexivity.
    cbn [bind at_most_one_message].
    rewrite messages_app, H. cbn. lia.
  - destruct (SipeCallState_eqb (state call) SIPE_CALL_RUNNING);
      [cbn; lia|].
    pose proof (notify_one_message env (with_state SIPE_CALL_RUNNING call)
                  local) as H.
    destruct (notify_state_change env _ local) as [o| |];
      cbn [bind at_most_one_message]; trivial.
    rewrite stream_info_unhold_running by reflexivity.
    cbn [bind at_most_one_message].
    rewrite messages_app, H. cbn. lia.
Qed.

Lemma stream_info_at_most_one (n : nat) (env : engine)
    (type : PurpleMediaInfoType) (local : bool)
    (media_call : option sipe_media_call) :
  at_most_one_message
    (purple_media_stream_info (S (S n)) env type local media_call).
Proof.
  pose proof (cb_at_most_one n env type local media_call) as H.
  change (purple_media_stream_info (S (S n)) env type local media_call)
    with ('(media_call, out) <-
            stream_info_cb_body (purple_media_stream_info (S n) env)
              env type local media_call ;;
          Ok (media_call, stream_info type local :: out)).
  destruct (stream_info_cb_body _ env type local media_call)
    as [[c o]| |]; cbn [bind at_most_one_message] in *; trivial.
Qed.

Lemma reinvite_at_most_one (n : nat) (env : engine)
    (call : sipe_media_call) (msg : sipmsg) :
  at_most_one_message (reinvite (S (S n)) env call msg).
Proof.
  unfold reinvite.
  destruct (sipe_media_parse_sdp_frame _ _) as [[c b]| |];
    cbn [bind]; [|exact I|exact I].
  destruct (legacy_mode c && _); [apply stream_info_at_most_one|].
  destruct (sipe_utils_nameval_find _ _); [apply stream_info_at_most_one|].
  destruct (SipeCallState_eqb _ _); [apply stream_info_at_most_one|].
  unfold negotiate_codecs.
  destruct (sipe_media_parse_remote_codecs c);
    cbn [bind at_most_one_message]; trivial.
  destruct (sipe_media_create_sdp _ _ _);
    cbn [bind at_most_one_message]; trivial.
Qed.

(** X21: one event, at most one SIP message.  Whatever the event, the
    engine and the call, if there is one, a handler that returns has sent
    at most one request or response: a hold or unhold sends its INVITE or
    200 OK once, although its signal is emitted a second time from within
    the callback. *)
Theorem every_event_sends_at_most_one_message :
  forall env ev media_call media_call' out,
    handle env ev media_call = Ok (media_call', out) ->
    (messages out <= 1)%nat.
Proof.
  intros env ev media_call media_call' out E.
  assert (K : forall r, at_most_one_message r ->
                        r = Ok (media_call', out) -> (messages out <= 1)%nat).
  { now intros r Hr ->. }
  destruct ev as [msg|type local| | | |]; cbn [handle] in E.
  - unfold sipe_media_incoming_invite in E.
    destruct media_call as [call|].
    + destruct (sipe_strequal _ _).
      * exact (K _ (reinvite_at_most_one 0 env call msg) E).
      * apply Ok_inj in E. inversion E. cbn. lia.
    + destruct (sipe_media_call_init msg) as [[c|]| |];
        cbn [bind] in E; try discriminate.
      destruct (negotiate_codecs env _) as [c'| |];
        cbn [bind] in E; try discriminate.
      destruct (remote_candidates c'), (remote_codecs c');
        apply Ok_inj in E; inversion E; cbn; lia.
  - exact (K _ (cb_at_most_one 1 env type local media_call) E).
  - destruct media_call as [call|]; [|discriminate].
    pose proof (session_ready_at_most_one env call) as H.
    destruct (sipe_media_session_ready_cb env call) as [[c o]| |];
      cbn [bind] in E; try discriminate.
    apply Ok_inj in E. now inversion E; subst.
  - destruct media_call as [call|]; cbn [sipe_media_hold] in E.
    + exact (K _ (stream_info_at_most_one 0 env _ _ _) E).
    + apply Ok_inj in E. inversion E. cbn. lia.
  - destruct media_call as [call|]; cbn [sipe_media_unhold] in E.
    + exact (K _ (stream_info_at_most_one 0 env _ _ _) E).
    + apply Ok_inj in E. inversion E. cbn. lia.
  - destruct media_call as [call|]; cbn [sipe_media_hangup] in E.
    + exact (K _ (stream_info_at_most_one 0 env _ _ _) E).
    + apply Ok_inj in E. inversion E. cbn. lia.
Qed.

Lemma every_event_sends_at_most_one_message_witness :
  exists media_call out,
    handle example_engine EvHold (Some running_call)
    = Ok (media_call, out) /\
    (messages out <= 1)%nat.
Proof.
  do 2 eexists. split; [vm_compute; reflexivity|].
  eapply (every_event_sends_at_most_one_message example_engine EvHold
            (Some running_call)).
  vm_compute. reflexivity.
Defined.
